(** * fastlogging: the logger pipeline of [fastlogging/fastlogging.py]

    A shallow embedding of the module: the [Logger] class, the module-level
    registry [domains], [GetLogger], [LogInit], [Shutdown] and [Rotate].
    Python objects live in stores indexed by references, the interpreter and
    the operating system (clock, file system, streams) are part of the state,
    and every method is a computation in a state-and-exception monad, in
    which the effects made before a [raise] persist. *)

From stdpp Require Import gmap strings list fin_maps pretty.
From Stdlib Require Import Ascii ZArith QArith_base Lia.

Local Open Scope Z_scope.

(** ** Python values, entries, exceptions *)

(** The values that travel in [**kwargs]. *)
Inductive pyval :=
| VStr (s : string)
| VInt (z : Z)
| VBool (b : bool)
| VNone.

(** Truth value of a Python object. *)
Definition truthy (v : pyval) : bool :=
  match v with
  | VStr s => negb (String.eqb s "")
  | VInt z => negb (z =? 0)
  | VBool b => b
  | VNone => false
  end.

(** [str(v)], what ["%s" % v] prints. *)
Definition str_of (v : pyval) : string :=
  match v with
  | VStr s => s
  | VInt z => pretty z
  | VBool true => "True"
  | VBool false => "False"
  | VNone => "None"
  end.

(** The tuple [(logTime, domain, level, msg, kwargs)]. *)
Record Entry := mkEntry {
  e_time : Z;
  e_domain : string;
  e_level : Z;
  e_msg : string;
  e_kwargs : gmap string pyval }.

Inductive exn :=
| ValueError (msg : string)
| RuntimeError (msg : string)
| KeyError
| TypeError
| AttributeError
| OSError
| ImportError
| BadRef.   (* a reference to no object: no Python program produces one *)

(** What [Logger.backlog] holds: entries (or [None]) and error texts. *)
Inductive backlog_item :=
| BEntry (e : option Entry)
| BErr (s : string).

(** ** Strings and paths (posixpath) *)

Definition slash : ascii := "/"%char.

Fixpoint split_on (c : ascii) (s : string) : list string :=
  match s with
  | EmptyString => [EmptyString]
  | String a r =>
      match split_on c r with
      | h :: t => if Ascii.eqb a c then EmptyString :: h :: t else String a h :: t
      | [] => [String a EmptyString]
      end
  end.

Fixpoint span_while {A} (p : A -> bool) (l : list A) : list A * list A :=
  match l with
  | [] => ([], [])
  | x :: r => if p x then let '(a, b) := span_while p r in (x :: a, b) else ([], l)
  end.

Definition is_slash (a : ascii) : bool := Ascii.eqb a slash.

(** [s.rstrip('/')] *)
Definition rstrip_slash (s : string) : string :=
  String.string_of_list_ascii (rev (snd (span_while is_slash (rev (String.list_ascii_of_string s))))).

Definition all_slashes (s : string) : bool :=
  forallb is_slash (String.list_ascii_of_string s).

(** [os.path.split]: cut after the last slash, strip the head's trailing
    slashes unless it is all slashes. *)
Definition path_split (p : string) : string * string :=
  let '(rtail, rhead) := span_while (fun a => negb (is_slash a)) (rev (String.list_ascii_of_string p)) in
  let head := String.string_of_list_ascii (rev rhead) in
  let tail := String.string_of_list_ascii (rev rtail) in
  (if negb (String.eqb head "") && negb (all_slashes head) then rstrip_slash head else head, tail).

Definition dirname (p : string) : string := fst (path_split p).

Definition endswith_slash (s : string) : bool :=
  match rev (String.list_ascii_of_string s) with
  | a :: _ => is_slash a
  | [] => false
  end.

(** [os.path.join a b] *)
Definition path_join (a b : string) : string :=
  if String.prefix "/" b then b
  else if String.eqb a "" || endswith_slash a then a +:+ b
  else a +:+ "/" +:+ b.

(** [s.startswith(pre)] *)
Definition startswith (s pre : string) : bool := String.prefix pre s.

(** ** The file system

    Files are inodes reached by name; a path string is resolved against the
    working directory, [""] and ["."] components dropped and [".."] going
    up, to the list of its components from the root.  Symbolic links,
    permissions and device errors are left out. *)

Inductive node :=
| File (ino : nat)
| Dir.

Record FileSystem := mkFS {
  tree : gmap (list string) node;
  inodes : gmap nat string;
  cwd : list string }.

Definition norm_step (acc : list string) (c : string) : list string :=
  if String.eqb c "" || String.eqb c "." then acc
  else if String.eqb c ".." then removelast acc
  else acc ++ [c].

Definition resolve (fs : FileSystem) (p : string) : list string :=
  fold_left norm_step (split_on slash p) (if String.prefix "/" p then [] else cwd fs).

Definition is_dir_key (fs : FileSystem) (k : list string) : bool :=
  match tree fs !! k with Some Dir => true | _ => false end.

(** [os.path.isdir] *)
Definition fs_isdir (fs : FileSystem) (p : string) : bool :=
  negb (String.eqb p "") && is_dir_key fs (resolve fs p).

(** The parent directory of the key exists. *)
Definition parent_ok (fs : FileSystem) (k : list string) : bool :=
  match k with
  | [] => false
  | _ => is_dir_key fs (removelast k)
  end.

(** [os.listdir]: the names directly under the directory. *)
Definition fs_listdir (fs : FileSystem) (p : string) : option (list string) :=
  if fs_isdir fs p then
    let d := resolve fs p in
    Some (omap (fun kn : list string * node =>
                  match kn.1 with
                  | [] => None
                  | _ => if decide (removelast kn.1 = d) then last kn.1 else None
                  end) (map_to_list (tree fs)))
  else None.

(** The inode behind [open(p, "a")], created empty when the name is free. *)
Definition fs_open_append (fs : FileSystem) (p : string) : option (FileSystem * nat) :=
  if String.eqb p "" then None else
  let k := resolve fs p in
  match tree fs !! k with
  | Some (File i) => Some (fs, i)
  | Some Dir => None
  | None =>
      if parent_ok fs k then
        let i := fresh (dom (inodes fs)) in
        Some (mkFS (<[k := File i]> (tree fs)) (<[i := ""%string]> (inodes fs)) (cwd fs), i)
      else None
  end.

(** [open(p, "wb")], write, close: the name gets exactly [data]. *)
Definition fs_write_new (fs : FileSystem) (p : string) (data : string) : option FileSystem :=
  match fs_open_append fs p with
  | Some (fs', i) => Some (mkFS (tree fs') (<[i := data]> (inodes fs')) (cwd fs'))
  | None => None
  end.

(** [open(p, "rb").read()] *)
Definition fs_read (fs : FileSystem) (p : string) : option string :=
  if String.eqb p "" then None else
  match tree fs !! resolve fs p with
  | Some (File i) => inodes fs !! i
  | _ => None
  end.

(** [os.remove] *)
Definition fs_remove (fs : FileSystem) (p : string) : option FileSystem :=
  if String.eqb p "" then None else
  match tree fs !! resolve fs p with
  | Some (File _) => Some (mkFS (delete (resolve fs p) (tree fs)) (inodes fs) (cwd fs))
  | _ => None
  end.

Definition is_prefix_key (a b : list string) : bool :=
  bool_decide (take (length a) b = a).

Definition has_children (fs : FileSystem) (k : list string) : bool :=
  existsb (fun kn : list string * node =>
             is_prefix_key k kn.1 && negb (bool_decide (kn.1 = k)))
          (map_to_list (tree fs)).

(** [os.replace] (rename(2)): a file replaces a file or a free name, never
    a directory; a directory moves, with what is under it, onto a free name
    or an empty directory. *)
Definition fs_replace (fs : FileSystem) (src dst : string) : option FileSystem :=
  if String.eqb src "" || String.eqb dst "" then None else
  let ks := resolve fs src in
  let kd := resolve fs dst in
  match tree fs !! ks with
  | None => None
  | Some (File i) =>
      match tree fs !! kd with
      | Some Dir => None
      | Some (File _) =>
          if decide (ks = kd) then Some fs
          else Some (mkFS (<[kd := File i]> (delete ks (tree fs))) (inodes fs) (cwd fs))
      | None =>
          if parent_ok fs kd
          then Some (mkFS (<[kd := File i]> (delete ks (tree fs))) (inodes fs) (cwd fs))
          else None
      end
  | Some Dir =>
      if decide (ks = kd) then Some fs
      else if is_prefix_key ks kd || negb (parent_ok fs kd) then None
      else
        match tree fs !! kd with
        | Some (File _) => None
        | Some Dir =>
            if has_children fs kd then None
            else Some (mkFS (list_to_map
                               (map (fun kn : list string * node =>
                                       (if is_prefix_key ks kn.1
                                        then kd ++ drop (length ks) kn.1 else kn.1, kn.2))
                                    (map_to_list (delete kd (tree fs)))))
                            (inodes fs) (cwd fs))
        | None =>
            Some (mkFS (list_to_map
                          (map (fun kn : list string * node =>
                                  (if is_prefix_key ks kn.1
                                   then kd ++ drop (length ks) kn.1 else kn.1, kn.2))
                               (map_to_list (tree fs))))
                       (inodes fs) (cwd fs))
        end
  end.

(** What a flush appends to an inode. *)
Definition fs_append (fs : FileSystem) (i : nat) (data : string) : FileSystem :=
  mkFS (tree fs) (<[i := (default ""%string (inodes fs !! i) +:+ data)%string]> (inodes fs)) (cwd fs).

(** ** The objects of the module *)

(** A file object opened for appending: what was written and not yet
    flushed, whether it was closed, and how many times [close()] was called
    on it. *)
Record FileObj := mkFO {
  fo_ino : nat;
  fo_closed : bool;
  fo_wbuf : string;
  fo_closes : nat }.

(** [CommonConfig]: the queue and the two events are shared objects, held
    by reference. *)
Record CommonConfig := mkCommon {
  queue : nat;
  evtQueue : nat;
  evtRotate : nat;
  maxSize : Z;
  backupCnt : Z }.

Record LastMessage := mkLast {
  key : option string;
  cnt : Z;
  entry : option Entry }.

(** [LastMessage.__init__] drops its three arguments. *)
Definition LastMessage_init (key0 : option string) (cnt0 : Z) (entry0 : option Entry) : LastMessage :=
  {| key := None; cnt := 1; entry := None |}.

(** The instance attributes of a [Logger]; [lock] is left out, the
    sections it guards being single steps here.  [server] and [client] are
    [None] when the attribute is absent. *)
Record Logger := mkLogger {
  domain : string;
  level : Z;
  common : CommonConfig;
  _lastMsg : LastMessage;
  pathName : option string;
  F : option nat;
  buf : list string;
  size : Z;
  pos : Z;
  __console : bool;
  __thrTimer : option nat;
  __thrLogger : option nat;
  stopped : bool;
  server : option (string * Z);
  client : option (list (option Entry)) }.

(** The class attributes of [Logger].  A hook returns [inl e] when it
    raises [e]; the writer hook returns the buffer and size it leaves in the
    logger and what it wrote to its own sink. *)
Record LoggerClass := mkClass {
  backlog : option (nat * list backlog_item);
  dateFmt : string;
  cbMessageKey : option (Logger -> Entry -> exn + option string);
  cbFormatter : option (Logger -> Entry -> exn + string);
  cbWriter : option (Logger -> exn + (list string * Z * list string));
  colors : bool;
  compress : option ((string -> string) * string);
  useThreads : bool;
  encoding : option string;
  sameMsgTimeout : Q;
  sameMsgCountMax : Z;
  thrConsoleLogger : option (list (option (Z * string))) }.

(** The class as the module defines it. *)
Definition Logger_class0 : LoggerClass :=
  {| backlog := None; dateFmt := "%y.%m.%d %H:%M:%S"; cbMessageKey := None;
     cbFormatter := None; cbWriter := None; colors := false; compress := None;
     useThreads := false; encoding := None; sameMsgTimeout := (30 # 1)%Q;
     sameMsgCountMax := 0; thrConsoleLogger := None |}.

(** A [threading.Timer] bound to [self._logMessage] with its arguments. *)
Inductive timer_state := Armed | Fired | Cancelled.

Record TimerObj := mkTimer {
  tm_interval : Q;
  tm_logger : nat;
  tm_key : option string;
  tm_entry : option Entry;
  tm_cnt : Z;
  tm_state : timer_state }.

(** A writer thread running [__logThread]: at the top of its loop, blocked
    in [evtQueue.wait()], returned, or ended by an exception. *)
Inductive tstate := TRun | TWait | TDone | TDied.

Record ThreadObj := mkThread {
  th_logger : nat;
  th_state : tstate }.

(** ** The state *)

Record World := mkWorld {
  domains : list (string * option nat);
  loggers : gmap nat Logger;
  queues : gmap nat (list (option Entry));
  events : gmap nat bool;
  files : gmap nat FileObj;
  timers : gmap nat TimerObj;
  threads : gmap nat ThreadObj;
  cls : LoggerClass;
  fsys : FileSystem;
  stdout : list string;
  stderr : list string;
  sink : list string;
  clock : Z;
  handling : option exn }.

Definition set_key (v : option string) (m : LastMessage) : LastMessage :=
  {| key := v; cnt := cnt m; entry := entry m |}.
Definition set_cnt (v : Z) (m : LastMessage) : LastMessage :=
  {| key := key m; cnt := v; entry := entry m |}.
Definition set_entry (v : option Entry) (m : LastMessage) : LastMessage :=
  {| key := key m; cnt := cnt m; entry := v |}.

Definition set_level (v : Z) (L : Logger) : Logger :=
  {| domain := domain L; level := v; common := common L; _lastMsg := _lastMsg L; pathName := pathName L; F := F L; buf := buf L; size := size L; pos := pos L; __console := __console L; __thrTimer := __thrTimer L; __thrLogger := __thrLogger L; stopped := stopped L; server := server L; client := client L |}.
Definition set_common (v : CommonConfig) (L : Logger) : Logger :=
  {| domain := domain L; level := level L; common := v; _lastMsg := _lastMsg L; pathName := pathName L; F := F L; buf := buf L; size := size L; pos := pos L; __console := __console L; __thrTimer := __thrTimer L; __thrLogger := __thrLogger L; stopped := stopped L; server := server L; client := client L |}.
Definition set__lastMsg (v : LastMessage) (L : Logger) : Logger :=
  {| domain := domain L; level := level L; common := common L; _lastMsg := v; pathName := pathName L; F := F L; buf := buf L; size := size L; pos := pos L; __console := __console L; __thrTimer := __thrTimer L; __thrLogger := __thrLogger L; stopped := stopped L; server := server L; client := client L |}.
Definition set_F (v : option nat) (L : Logger) : Logger :=
  {| domain := domain L; level := level L; common := common L; _lastMsg := _lastMsg L; pathName := pathName L; F := v; buf := buf L; size := size L; pos := pos L; __console := __console L; __thrTimer := __thrTimer L; __thrLogger := __thrLogger L; stopped := stopped L; server := server L; client := client L |}.
Definition set_buf (v : list string) (L : Logger) : Logger :=
  {| domain := domain L; level := level L; common := common L; _lastMsg := _lastMsg L; pathName := pathName L; F := F L; buf := v; size := size L; pos := pos L; __console := __console L; __thrTimer := __thrTimer L; __thrLogger := __thrLogger L; stopped := stopped L; server := server L; client := client L |}.
Definition set_size (v : Z) (L : Logger) : Logger :=
  {| domain := domain L; level := level L; common := common L; _lastMsg := _lastMsg L; pathName := pathName L; F := F L; buf := buf L; size := v; pos := pos L; __console := __console L; __thrTimer := __thrTimer L; __thrLogger := __thrLogger L; stopped := stopped L; server := server L; client := client L |}.
Definition set_pos (v : Z) (L : Logger) : Logger :=
  {| domain := domain L; level := level L; common := common L; _lastMsg := _lastMsg L; pathName := pathName L; F := F L; buf := buf L; size := size L; pos := v; __console := __console L; __thrTimer := __thrTimer L; __thrLogger := __thrLogger L; stopped := stopped L; server := server L; client := client L |}.
Definition set___thrTimer (v : option nat) (L : Logger) : Logger :=
  {| domain := domain L; level := level L; common := common L; _lastMsg := _lastMsg L; pathName := pathName L; F := F L; buf := buf L; size := size L; pos := pos L; __console := __console L; __thrTimer := v; __thrLogger := __thrLogger L; stopped := stopped L; server := server L; client := client L |}.
Definition set___thrLogger (v : option nat) (L : Logger) : Logger :=
  {| domain := domain L; level := level L; common := common L; _lastMsg := _lastMsg L; pathName := pathName L; F := F L; buf := buf L; size := size L; pos := pos L; __console := __console L; __thrTimer := __thrTimer L; __thrLogger := v; stopped := stopped L; server := server L; client := client L |}.
Definition set_stopped (v : bool) (L : Logger) : Logger :=
  {| domain := domain L; level := level L; common := common L; _lastMsg := _lastMsg L; pathName := pathName L; F := F L; buf := buf L; size := size L; pos := pos L; __console := __console L; __thrTimer := __thrTimer L; __thrLogger := __thrLogger L; stopped := v; server := server L; client := client L |}.
Definition set_client (v : option (list (option Entry))) (L : Logger) : Logger :=
  {| domain := domain L; level := level L; common := common L; _lastMsg := _lastMsg L; pathName := pathName L; F := F L; buf := buf L; size := size L; pos := pos L; __console := __console L; __thrTimer := __thrTimer L; __thrLogger := __thrLogger L; stopped := stopped L; server := server L; client := v |}.

Definition set_backlog (v : option (nat * list backlog_item)) (c : LoggerClass) : LoggerClass :=
  {| backlog := v; dateFmt := dateFmt c; cbMessageKey := cbMessageKey c; cbFormatter := cbFormatter c; cbWriter := cbWriter c; colors := colors c; compress := compress c; useThreads := useThreads c; encoding := encoding c; sameMsgTimeout := sameMsgTimeout c; sameMsgCountMax := sameMsgCountMax c; thrConsoleLogger := thrConsoleLogger c |}.
Definition set_colors (v : bool) (c : LoggerClass) : LoggerClass :=
  {| backlog := backlog c; dateFmt := dateFmt c; cbMessageKey := cbMessageKey c; cbFormatter := cbFormatter c; cbWriter := cbWriter c; colors := v; compress := compress c; useThreads := useThreads c; encoding := encoding c; sameMsgTimeout := sameMsgTimeout c; sameMsgCountMax := sameMsgCountMax c; thrConsoleLogger := thrConsoleLogger c |}.
Definition set_compress (v : option ((string -> string) * string)) (c : LoggerClass) : LoggerClass :=
  {| backlog := backlog c; dateFmt := dateFmt c; cbMessageKey := cbMessageKey c; cbFormatter := cbFormatter c; cbWriter := cbWriter c; colors := colors c; compress := v; useThreads := useThreads c; encoding := encoding c; sameMsgTimeout := sameMsgTimeout c; sameMsgCountMax := sameMsgCountMax c; thrConsoleLogger := thrConsoleLogger c |}.
Definition set_useThreads (v : bool) (c : LoggerClass) : LoggerClass :=
  {| backlog := backlog c; dateFmt := dateFmt c; cbMessageKey := cbMessageKey c; cbFormatter := cbFormatter c; cbWriter := cbWriter c; colors := colors c; compress := compress c; useThreads := v; encoding := encoding c; sameMsgTimeout := sameMsgTimeout c; sameMsgCountMax := sameMsgCountMax c; thrConsoleLogger := thrConsoleLogger c |}.
Definition set_encoding (v : option string) (c : LoggerClass) : LoggerClass :=
  {| backlog := backlog c; dateFmt := dateFmt c; cbMessageKey := cbMessageKey c; cbFormatter := cbFormatter c; cbWriter := cbWriter c; colors := colors c; compress := compress c; useThreads := useThreads c; encoding := v; sameMsgTimeout := sameMsgTimeout c; sameMsgCountMax := sameMsgCountMax c; thrConsoleLogger := thrConsoleLogger c |}.
Definition set_thrConsoleLogger (v : option (list (option (Z * string)))) (c : LoggerClass) : LoggerClass :=
  {| backlog := backlog c; dateFmt := dateFmt c; cbMessageKey := cbMessageKey c; cbFormatter := cbFormatter c; cbWriter := cbWriter c; colors := colors c; compress := compress c; useThreads := useThreads c; encoding := encoding c; sameMsgTimeout := sameMsgTimeout c; sameMsgCountMax := sameMsgCountMax c; thrConsoleLogger := v |}.

Definition upd_domains (f : list (string * option nat) -> list (string * option nat)) (w : World) : World :=
  {| domains := f (domains w); loggers := loggers w; queues := queues w; events := events w; files := files w; timers := timers w; threads := threads w; cls := cls w; fsys := fsys w; stdout := stdout w; stderr := stderr w; sink := sink w; clock := clock w; handling := handling w |}.
Definition upd_loggers (f : gmap nat Logger -> gmap nat Logger) (w : World) : World :=
  {| domains := domains w; loggers := f (loggers w); queues := queues w; events := events w; files := files w; timers := timers w; threads := threads w; cls := cls w; fsys := fsys w; stdout := stdout w; stderr := stderr w; sink := sink w; clock := clock w; handling := handling w |}.
Definition upd_queues (f : gmap nat (list (option Entry)) -> gmap nat (list (option Entry))) (w : World) : World :=
  {| domains := domains w; loggers := loggers w; queues := f (queues w); events := events w; files := files w; timers := timers w; threads := threads w; cls := cls w; fsys := fsys w; stdout := stdout w; stderr := stderr w; sink := sink w; clock := clock w; handling := handling w |}.
Definition upd_events (f : gmap nat bool -> gmap nat bool) (w : World) : World :=
  {| domains := domains w; loggers := loggers w; queues := queues w; events := f (events w); files := files w; timers := timers w; threads := threads w; cls := cls w; fsys := fsys w; stdout := stdout w; stderr := stderr w; sink := sink w; clock := clock w; handling := handling w |}.
Definition upd_files (f : gmap nat FileObj -> gmap nat FileObj) (w : World) : World :=
  {| domains := domains w; loggers := loggers w; queues := queues w; events := events w; files := f (files w); timers := timers w; threads := threads w; cls := cls w; fsys := fsys w; stdout := stdout w; stderr := stderr w; sink := sink w; clock := clock w; handling := handling w |}.
Definition upd_timers (f : gmap nat TimerObj -> gmap nat TimerObj) (w : World) : World :=
  {| domains := domains w; loggers := loggers w; queues := queues w; events := events w; files := files w; timers := f (timers w); threads := threads w; cls := cls w; fsys := fsys w; stdout := stdout w; stderr := stderr w; sink := sink w; clock := clock w; handling := handling w |}.
Definition upd_threads (f : gmap nat ThreadObj -> gmap nat ThreadObj) (w : World) : World :=
  {| domains := domains w; loggers := loggers w; queues := queues w; events := events w; files := files w; timers := timers w; threads := f (threads w); cls := cls w; fsys := fsys w; stdout := stdout w; stderr := stderr w; sink := sink w; clock := clock w; handling := handling w |}.
Definition upd_cls (f : LoggerClass -> LoggerClass) (w : World) : World :=
  {| domains := domains w; loggers := loggers w; queues := queues w; events := events w; files := files w; timers := timers w; threads := threads w; cls := f (cls w); fsys := fsys w; stdout := stdout w; stderr := stderr w; sink := sink w; clock := clock w; handling := handling w |}.
Definition upd_fsys (f : FileSystem -> FileSystem) (w : World) : World :=
  {| domains := domains w; loggers := loggers w; queues := queues w; events := events w; files := files w; timers := timers w; threads := threads w; cls := cls w; fsys := f (fsys w); stdout := stdout w; stderr := stderr w; sink := sink w; clock := clock w; handling := handling w |}.
Definition upd_stdout (f : list string -> list string) (w : World) : World :=
  {| domains := domains w; loggers := loggers w; queues := queues w; events := events w; files := files w; timers := timers w; threads := threads w; cls := cls w; fsys := fsys w; stdout := f (stdout w); stderr := stderr w; sink := sink w; clock := clock w; handling := handling w |}.
Definition upd_stderr (f : list string -> list string) (w : World) : World :=
  {| domains := domains w; loggers := loggers w; queues := queues w; events := events w; files := files w; timers := timers w; threads := threads w; cls := cls w; fsys := fsys w; stdout := stdout w; stderr := f (stderr w); sink := sink w; clock := clock w; handling := handling w |}.
Definition upd_sink (f : list string -> list string) (w : World) : World :=
  {| domains := domains w; loggers := loggers w; queues := queues w; events := events w; files := files w; timers := timers w; threads := threads w; cls := cls w; fsys := fsys w; stdout := stdout w; stderr := stderr w; sink := f (sink w); clock := clock w; handling := handling w |}.

(** The state before the module is used: an empty registry, the class as
    defined, over some file system. *)
Definition world0 (fs : FileSystem) (now : Z) : World :=
  {| domains := []; loggers := ∅; queues := ∅; events := ∅; files := ∅;
     timers := ∅; threads := ∅; cls := Logger_class0; fsys := fs;
     stdout := []; stderr := []; sink := []; clock := now; handling := None |}.

(** ** Computations

    A call returns, raises, or never returns ([Hang]: a [join] on a thread
    that is blocked for good); in each case it leaves a state. *)

Inductive outcome (A : Type) :=
| Ok (a : A)
| Raise (e : exn)
| Hang.
Arguments Ok {A} a.
Arguments Raise {A} e.
Arguments Hang {A}.

Definition M (A : Type) : Type := World -> outcome A * World.

#[global] Instance M_ret : MRet M := fun A a w => (Ok a, w).

#[global] Instance M_bind : MBind M := fun A B f m w =>
  match m w with
  | (Ok a, w') => f a w'
  | (Raise e, w') => (Raise e, w')
  | (Hang, w') => (Hang, w')
  end.

Definition raise {A} (e : exn) : M A := fun w => (Raise e, w).

Definition hang {A} : M A := fun w => (Hang, w).

(** [try: m  except: h] with a bare [except]. *)
Definition try_except {A} (m : M A) (h : exn -> M A) : M A := fun w =>
  match m w with
  | (Raise e, w') => h e w'
  | r => r
  end.

Definition gets {A} (f : World -> A) : M A := fun w => (Ok (f w), w).

Definition modify (f : World -> World) : M unit := fun w => (Ok tt, f w).

(** [x] when the option holds one, else [raise e]. *)
Definition unwrap {A} (e : exn) (o : option A) : M A :=
  match o with
  | Some x => mret x
  | None => raise e
  end.

(** *** Objects *)

Definition get_logger (l : nat) : M Logger := fun w => unwrap BadRef (loggers w !! l) w.

Definition upd_logger (l : nat) (f : Logger -> Logger) : M unit :=
  modify (upd_loggers (alter f l)).

Definition class_attr {A} (f : LoggerClass -> A) : M A := gets (fun w => f (cls w)).

(** [time.time()] *)
Definition time_time : M Z := gets clock.

(** [deque()] *)
Definition new_queue : M nat := fun w =>
  let q := fresh (dom (queues w)) in (Ok q, upd_queues (insert q []) w).

Definition queue_append (q : nat) (x : option Entry) : M unit :=
  modify (upd_queues (alter (fun l => l ++ [x]) q)).

Definition queue_clear (q : nat) : M unit :=
  modify (upd_queues (alter (fun _ => []) q)).

(** [popleft()]: [None] stands for [IndexError]. *)
Definition queue_popleft (q : nat) : M (option (option Entry)) := fun w =>
  match queues w !! q with
  | Some (x :: r) => (Ok (Some x), upd_queues (insert q r) w)
  | Some [] => (Ok None, w)
  | None => (Raise BadRef, w)
  end.

(** [Event()] *)
Definition new_event : M nat := fun w =>
  let e := fresh (dom (events w)) in (Ok e, upd_events (insert e false) w).

Definition event_set (e : nat) : M unit := modify (upd_events (alter (fun _ => true) e)).

Definition event_clear (e : nat) : M unit := modify (upd_events (alter (fun _ => false) e)).

Definition event_is_set (e : nat) : M bool := fun w => unwrap BadRef (events w !! e) w.

(** [print(s, file=sys.stdout)] and [print(s, file=sys.stderr)] *)
Definition print_out (s : string) : M unit := modify (upd_stdout (fun l => l ++ [s])).

Definition print_err (s : string) : M unit := modify (upd_stderr (fun l => l ++ [s])).

(** [Logger.backlog.append(x)] on a [deque] with [maxlen]. *)
Definition backlog_push (x : backlog_item) (b : nat * list backlog_item) : nat * list backlog_item :=
  (b.1, drop (length (b.2 ++ [x]) - b.1)%nat (b.2 ++ [x])).

(** [if Logger.backlog is not None: Logger.backlog.append(x)] *)
Definition backlog_append (x : backlog_item) : M unit :=
  modify (upd_cls (fun c => match backlog c with
                            | Some b => set_backlog (Some (backlog_push x b)) c
                            | None => c
                            end)).

(** *** Files *)

(** [open(p, "a")] *)
Definition open_append (p : string) : M nat := fun w =>
  match fs_open_append (fsys w) p with
  | Some (fs', i) =>
      let h := fresh (dom (files w)) in
      (Ok h, upd_files (insert h (mkFO i false "" 0)) (upd_fsys (fun _ => fs') w))
  | None => (Raise OSError, w)
  end.

Definition get_file (h : nat) : M FileObj := fun w => unwrap BadRef (files w !! h) w.

(** [f.tell()] just after [open(p, "a")]: the length of the file. *)
Definition file_tell (h : nat) : M Z :=
  f ← get_file h;
  if fo_closed f then raise (ValueError "I/O operation on closed file.")
  else gets (fun w => Z.of_nat (String.length (default ""%string (inodes (fsys w) !! fo_ino f)))).

(** [f.write(data)] *)
Definition file_write (h : nat) (data : string) : M unit :=
  f ← get_file h;
  if fo_closed f then raise (ValueError "I/O operation on closed file.")
  else modify (upd_files (insert h (mkFO (fo_ino f) false (fo_wbuf f +:+ data) (fo_closes f)))).

(** [f.flush()] *)
Definition file_flush (h : nat) : M unit :=
  f ← get_file h;
  if fo_closed f then raise (ValueError "I/O operation on closed file.")
  else modify (fun w => upd_files (insert h (mkFO (fo_ino f) false "" (fo_closes f)))
                          (upd_fsys (fun fs => fs_append fs (fo_ino f) (fo_wbuf f)) w)).

(** [f.close()]: flushes an open file; a second call does nothing more. *)
Definition file_close (h : nat) : M unit :=
  f ← get_file h;
  modify (fun w => upd_files (insert h (mkFO (fo_ino f) true "" (S (fo_closes f))))
                     (if fo_closed f then w
                      else upd_fsys (fun fs => fs_append fs (fo_ino f) (fo_wbuf f)) w)).

Definition os_listdir (p : string) : M (list string) := fun w =>
  unwrap OSError (fs_listdir (fsys w) p) w.

Definition os_replace (src dst : string) : M unit := fun w =>
  match fs_replace (fsys w) src dst with
  | Some fs' => (Ok tt, upd_fsys (fun _ => fs') w)
  | None => (Raise OSError, w)
  end.

Definition os_remove (p : string) : M unit := fun w =>
  match fs_remove (fsys w) p with
  | Some fs' => (Ok tt, upd_fsys (fun _ => fs') w)
  | None => (Raise OSError, w)
  end.

Definition read_file (p : string) : M string := fun w =>
  unwrap OSError (fs_read (fsys w) p) w.

Definition write_new (p data : string) : M unit := fun w =>
  match fs_write_new (fsys w) p data with
  | Some fs' => (Ok tt, upd_fsys (fun _ => fs') w)
  | None => (Raise OSError, w)
  end.

(** *** The registry, a [dict] in insertion order *)

Definition dict_get {V} (k : string) (d : list (string * V)) : option V :=
  snd <$> find (fun kv => String.eqb kv.1 k) d.

Definition dict_has {V} (k : string) (d : list (string * V)) : bool :=
  existsb (fun kv => String.eqb kv.1 k) d.

(** [d[k] = v] *)
Definition dict_set {V} (k : string) (v : V) (d : list (string * V)) : list (string * V) :=
  if dict_has k d
  then map (fun kv => if String.eqb kv.1 k then (k, v) else kv) d
  else d ++ [(k, v)].

(** [del d[k]], after the key was found. *)
Definition dict_remove {V} (k : string) (d : list (string * V)) : list (string * V) :=
  filter (fun kv => negb (String.eqb kv.1 k)) d.

(** [del domains[k]] *)
Definition domains_del (k : string) : M unit :=
  d ← gets domains;
  if dict_has k d then modify (upd_domains (dict_remove k)) else raise KeyError.

(** *** Threads and timers *)

Definition get_thread (t : nat) : M ThreadObj := fun w => unwrap BadRef (threads w !! t) w.

Definition set_thread_state (t : nat) (s : tstate) : M unit :=
  modify (upd_threads (alter (fun th => mkThread (th_logger th) s) t)).

(** [Thread(target=self.__logThread, ...)] then [start()] *)
Definition thread_start (self : nat) : M nat := fun w =>
  let t := fresh (dom (threads w)) in (Ok t, upd_threads (insert t (mkThread self TRun)) w).

(** [Timer(interval, self._logMessage, args=(key, entry, cnt))] then [start()] *)
Definition timer_start (interval : Q) (self : nat) (key0 : option string)
    (entry0 : option Entry) (cnt0 : Z) : M nat := fun w =>
  let t := fresh (dom (timers w)) in
  (Ok t, upd_timers (insert t (mkTimer interval self key0 entry0 cnt0 Armed)) w).

(** [cancel()] stops a timer that has not fired; [join()] after it returns
    at once. *)
Definition timer_cancel (t : nat) : M unit :=
  modify (upd_timers (alter (fun tm =>
    match tm_state tm with
    | Armed => mkTimer (tm_interval tm) (tm_logger tm) (tm_key tm) (tm_entry tm) (tm_cnt tm) Cancelled
    | _ => tm
    end) t)).

(** ** What the module imports

    The level constants and [LOG2SYM] come from the package's [__init__],
    [NORMAL], [BRIGHTRED] and [LVL2COL] from the [try: import colorama]
    block, the rest from the interpreter; the modules [console] and
    [fastlogging.network] are imported on demand and may be missing.  They
    are parameters of the development. *)

Class Runtime := {
  NOLOG : Z;
  FATAL : Z;
  ERROR : Z;
  WARNING : Z;
  INFO : Z;
  DEBUG : Z;
  EXCEPTION : Z;
  LOG2SYM : gmap Z string;
  NORMAL : string;
  BRIGHTRED : string;
  LVL2COL : gmap Z string;
  (** [time.strftime(fmt, time.localtime(t))] *)
  strftime : string -> Z -> string;
  (** [msg % args]; [None] when the operator raises *)
  percent : string -> list pyval -> option string;
  (** [traceback.format_exc()] while the given exception is handled *)
  format_exc : option exn -> string;
  has_console : bool;
  has_network : bool }.

Section Methods.
Context `{rt : Runtime}.

(** The handler shared by [_logMessage] and [__logThread]:
    [errMsg = traceback.format_exc()], into the backlog and to [stderr]. *)
Definition report_error (e : exn) : M unit :=
  let errMsg := format_exc (Some e) in
  backlog_append (BErr errMsg);;
  print_err (BRIGHTRED +:+ errMsg +:+ NORMAL).

(** *** [Logger.__writePending] *)
Definition __writePending (self : nat) : M unit :=
  L ← get_logger self;
  match buf L with
  | [] => mret tt
  | _ =>
      w ← class_attr cbWriter;
      match w with
      | None =>
          let data := String.concat "" (buf L) in
          upd_logger self (fun L => set_size 0 (set_buf [] L));;
          h ← unwrap AttributeError (F L);
          file_write h data
      | Some hook =>
          match hook L with
          | inl e => raise e
          | inr (b, s, out) =>
              upd_logger self (fun L => set_size s (set_buf b L));;
              modify (upd_sink (fun l => l ++ out))
          end
      end
  end.

(** *** [Logger.__rotate] *)

(** [range(b, 1, -1)] *)
Definition range_down (b : Z) : list Z :=
  map (fun i => b - Z.of_nat i) (seq 0 (Z.to_nat (b - 1))).

(** ["%s.%d%s" % (logFileName, n, zExt)] *)
Definition backup_name (logFileName : string) (n : Z) (zExt : string) : string :=
  logFileName +:+ "." +:+ pretty n +:+ zExt.

(** The body of the [for cnt in range(...)] loop of [__rotate], over the
    values [cnt] still to come. *)
Fixpoint shift_loop (dirName logFileName zExt : string) (fileNames : list string)
    (cnts : list Z) : M unit :=
  match cnts with
  | [] => mret tt
  | cnt :: rest =>
      let srcFileName := backup_name logFileName (cnt - 1) zExt in
      if negb (bool_decide (srcFileName ∈ fileNames))
      then shift_loop dirName logFileName zExt fileNames rest
      else
        os_replace (path_join dirName srcFileName)
                   (path_join dirName (backup_name logFileName cnt zExt));;
        shift_loop dirName logFileName zExt fileNames rest
  end.

(** The [try: for ...  except: pass] block of [__rotate]. *)
Definition shift_backups (dirName logFileName zExt : string) (fileNames : list string)
    (backupCnt0 : Z) : M unit :=
  try_except (shift_loop dirName logFileName zExt fileNames (range_down backupCnt0))
             (fun _ => mret tt).

Definition __rotate (self : nat) : M unit :=
  __writePending self;;
  L ← get_logger self;
  h ← unwrap AttributeError (F L);
  file_flush h;;
  file_close h;;
  upd_logger self (set_pos 0);;
  pathName0 ← unwrap TypeError (pathName L);
  let '(dirName, logFileName) := path_split pathName0 in
  comp ← class_attr compress;
  let zExt := match comp with None => ""%string | Some c => c.2 end in
  names ← os_listdir dirName;
  let fileNames := filter (fun fileName => startswith fileName logFileName) names in
  shift_backups dirName logFileName zExt fileNames (backupCnt (common L));;
  let dstFileName := (logFileName +:+ ".1" +:+ zExt)%string in
  match comp with
  | None => os_replace pathName0 (path_join dirName dstFileName)
  | Some c =>
      write_new (path_join dirName dstFileName) "";;
      data ← read_file pathName0;
      write_new (path_join dirName dstFileName) (c.1 data);;
      os_remove pathName0
  end;;
  enc ← class_attr encoding;
  h' ← open_append pathName0;
  upd_logger self (set_F (Some h')).

(** *** [Logger.rotate] *)
Definition rotate (self : nat) : M unit :=
  L ← get_logger self;
  match F L with
  | None => mret tt
  | Some _ =>
      ut ← class_attr useThreads;
      if ut : bool then
        event_set (evtRotate (common L));;
        event_set (evtQueue (common L))
      else __rotate self
  end.

(** *** [Logger._logMessage] *)

(** The default text of an entry. *)
Definition default_format (dateFmt0 : string) (e : Entry) : M string :=
  let sTime := strftime dateFmt0 (e_time e) in
  sym ← unwrap KeyError (LOG2SYM !! e_level e);
  match e_kwargs e !! "exc_info"%string with
  | Some x => mret (sTime +:+ ": " +:+ sym +:+ ": " +:+ e_msg e +:+ String "010"%char "" +:+ str_of x)
  | None => mret (sTime +:+ ": " +:+ sym +:+ ": " +:+ e_msg e)
  end.

(** The [try] block of [_logMessage]; [true] when it leaves the method by
    its [return]. *)
Definition buffer_message (self : nat) (message : string) : M bool :=
  L ← get_logger self;
  match F L with
  | None => mret false
  | Some _ =>
      let size0 := Z.of_nat (String.length message) + 1 in
      upd_logger self (fun L => set_size (size L + size0)
                                 (set_buf (buf L ++ [message +:+ String "010"%char ""]) L));;
      ut ← class_attr useThreads;
      if maxSize (common L) =? 0 then
        (if (size L + size0 >=? 4096) || negb ut then __writePending self else mret tt);;
        mret true
      else
        upd_logger self (fun L => set_pos (pos L + size0) L);;
        (if pos L + size0 >=? maxSize (common L) then
           if ut : bool then event_set (evtRotate (common L)) else __rotate self
         else mret tt);;
        mret false
  end.

(** The console part of [_logMessage]. *)
Definition console_message (level0 : Z) (kwargs : gmap string pyval) (message : string) : M unit :=
  col ← class_attr colors;
  let message :=
    if col : bool then
      (match kwargs !! "color"%string with
       | Some c => str_of c
       | None => default (pretty FATAL) (LVL2COL !! level0)
       end +:+ message +:+ NORMAL)%string
    else message in
  con ← class_attr thrConsoleLogger;
  match con with
  | None => if level0 <? ERROR then print_out message else print_err message
  | Some q => modify (upd_cls (set_thrConsoleLogger (Some (q ++ [Some (level0, message)]))))
  end.

Definition _logMessage (self : nat) (key0 : option string) (entry0 : option Entry)
    (cnt0 : Z) : M unit :=
  backlog_append (BEntry entry0);;
  e ← unwrap TypeError entry0;
  L ← get_logger self;
  fmt ← class_attr cbFormatter;
  message ← match fmt with
            | None => d ← class_attr dateFmt; default_format d e
            | Some hook => match hook L e with inl ex => raise ex | inr s => mret s end
            end;
  message ← match key0 with
            | Some _ =>
                upd_logger self (fun L => set__lastMsg (mkLast key0 1 entry0) L);;
                mret (if cnt0 >? 0 then (pretty cnt0 +:+ " times: " +:+ message)%string
                      else message)
            | None => mret message
            end;
  returned ← try_except (buffer_message self message)
                        (fun ex => report_error ex;; mret false);
  if returned : bool then mret tt
  else
    (if __console L || truthy (default (VBool false) (e_kwargs e !! "console"%string))
     then console_message (e_level e) (e_kwargs e) message else mret tt);;
    upd_logger self (fun L => match client L with
                              | Some sent => set_client (Some (sent ++ [entry0])) L
                              | None => L
                              end).

(** *** [Logger.__logEntry] *)
Definition __logEntry (self : nat) (e : Entry) : M unit :=
  L ← get_logger self;
  mk ← class_attr cbMessageKey;
  key0 ← match mk with
         | None => mret (Some (e_msg e))
         | Some hook => match hook L e with inl ex => raise ex | inr k => mret k end
         end;
  smax ← class_attr sameMsgCountMax;
  let lastMsg := _lastMsg L in
  if bool_decide (key0 = key lastMsg) && (cnt lastMsg <? smax) then
    upd_logger self (set__lastMsg (mkLast (key lastMsg) (cnt lastMsg + 1) (Some e)));;
    match __thrTimer L with
    | None =>
        timeout ← class_attr sameMsgTimeout;
        t ← timer_start timeout self key0 (Some e) 0;
        upd_logger self (set___thrTimer (Some t))
    | Some _ => mret tt
    end
  else
    match __thrTimer L with
    | None => _logMessage self key0 (Some e) 0
    | Some t =>
        timer_cancel t;;
        upd_logger self (set___thrTimer None);;
        _logMessage self key0 (entry lastMsg) (cnt lastMsg);;
        _logMessage self key0 (Some e) 0
    end.

(** The timer thread, when the interval has passed: it calls its function
    on its arguments unless it was cancelled; what the call raises ends the
    thread and goes to [stderr]. *)
Definition timer_fire (t : nat) : M unit :=
  tm ← (fun w => unwrap BadRef (timers w !! t) w);
  match tm_state tm with
  | Armed =>
      modify (upd_timers (insert t (mkTimer (tm_interval tm) (tm_logger tm) (tm_key tm)
                                            (tm_entry tm) (tm_cnt tm) Fired)));;
      try_except (_logMessage (tm_logger tm) (tm_key tm) (tm_entry tm) (tm_cnt tm))
                 (fun ex => print_err (format_exc (Some ex)))
  | _ => mret tt
  end.

(** *** [Logger.__log] and the logging methods *)
Definition __log (self : nat) (level0 : Z) (msg : string) (args : list pyval)
    (kwargs : gmap string pyval) : M unit :=
  L ← get_logger self;
  if stopped L then raise (RuntimeError "Logger already stopped")
  else
    msg ← match args with
          | [] => mret msg
          | _ => unwrap TypeError (percent msg args)
          end;
    ut ← class_attr useThreads;
    if negb ut || bool_decide (__thrLogger L = None) then
      smax ← class_attr sameMsgCountMax;
      now ← time_time;
      if smax >? 0 then __logEntry self (mkEntry now (domain L) level0 msg kwargs)
      else _logMessage self None (Some (mkEntry now (domain L) level0 msg kwargs)) 0
    else
      now ← time_time;
      queue_append (queue (common L)) (Some (mkEntry now (domain L) level0 msg kwargs));;
      event_set (evtQueue (common L)).

Definition log (self : nat) (level0 : Z) (msg : string) (args : list pyval)
    (kwargs : gmap string pyval) : M unit :=
  __log self level0 msg args kwargs.

Definition debug (self : nat) (msg : string) (args : list pyval)
    (kwargs : gmap string pyval) : M unit :=
  L ← get_logger self;
  if level L <=? DEBUG then __log self DEBUG msg args kwargs else mret tt.

Definition info (self : nat) (msg : string) (args : list pyval)
    (kwargs : gmap string pyval) : M unit :=
  L ← get_logger self;
  if level L <=? INFO then __log self INFO msg args kwargs else mret tt.

Definition warning (self : nat) (msg : string) (args : list pyval)
    (kwargs : gmap string pyval) : M unit :=
  L ← get_logger self;
  if level L <=? WARNING then __log self WARNING msg args kwargs else mret tt.

Definition error (self : nat) (msg : string) (args : list pyval)
    (kwargs : gmap string pyval) : M unit :=
  L ← get_logger self;
  if level L <=? ERROR then __log self ERROR msg args kwargs else mret tt.

Definition fatal (self : nat) (msg : string) (args : list pyval)
    (kwargs : gmap string pyval) : M unit :=
  L ← get_logger self;
  if level L <=? FATAL then __log self FATAL msg args kwargs else mret tt.

Definition critical (self : nat) (msg : string) (args : list pyval)
    (kwargs : gmap string pyval) : M unit :=
  L ← get_logger self;
  if level L <=? FATAL then __log self FATAL msg args kwargs else mret tt.

Definition exception (self : nat) (msg : string) (args : list pyval)
    (kwargs : gmap string pyval) : M unit :=
  L ← get_logger self;
  if level L <=? EXCEPTION then
    cur ← gets handling;
    __log self EXCEPTION msg args (<["exc_info"%string := VStr (format_exc cur)]> kwargs)
  else mret tt.

Definition setLevel (self : nat) (level0 : Z) : M unit :=
  upd_logger self (set_level level0).

(** [Logger.setBacklog]: [deque(Logger.backlog, maxlen=size)] needs an
    iterable. *)
Definition setBacklog (size0 : Z) : M unit :=
  if size0 >? 0 then
    b ← class_attr backlog;
    match b with
    | None => raise TypeError
    | Some old =>
        modify (upd_cls (set_backlog
          (Some (Z.to_nat size0, drop (length old.2 - Z.to_nat size0)%nat old.2))))
    end
  else modify (upd_cls (set_backlog None)).

(** *** [Logger.stop] *)
Definition stop (self : nat) (now : bool) : M unit :=
  L ← get_logger self;
  match __thrTimer L with
  | Some t =>
      timer_cancel t;;
      upd_logger self (set___thrTimer None);;
      _logMessage self (key (_lastMsg L)) (entry (_lastMsg L)) (cnt (_lastMsg L))
  | None => mret tt
  end;;
  (if now then queue_clear (queue (common L)) else mret tt);;
  queue_append (queue (common L)) None;;
  event_set (evtQueue (common L));;
  upd_logger self (set_stopped true).

(** *** [Logger.__logThread]

    One pass of the [while True] loop, from [popleft] to the next turn, to
    the [break] or to [evtQueue.wait()]; it answers where the thread is
    next. *)
Definition logThread_pass (self : nat) : M tstate :=
  L ← get_logger self;
  x ← queue_popleft (queue (common L));
  match x with
  | Some None =>
      match F L with
      | Some h =>
          (match buf L with [] => mret tt | _ => __writePending self end);;
          file_flush h;;
          file_close h;;
          upd_logger self (set_F None)
      | None => mret tt
      end;;
      mret TDone
  | None =>
      match F L, buf L with
      | Some _, _ :: _ => __writePending self
      | _, _ => mret tt
      end;;
      mret TWait
  | Some (Some e) =>
      smax ← class_attr sameMsgCountMax;
      try_except (if smax >? 0 then __logEntry self e else _logMessage self None (Some e) 0)
                 report_error;;
      mret TRun
  end.

(** From the return of [evtQueue.wait()] to [continue]. *)
Definition logThread_wake (self : nat) : M tstate :=
  L ← get_logger self;
  event_clear (evtQueue (common L));;
  r ← event_is_set (evtRotate (common L));
  (if r : bool then event_clear (evtRotate (common L));; __rotate self else mret tt);;
  mret TRun.

(** Whether the thread can take a step: it has not ended and is not
    waiting for an event that is clear. *)
Definition thread_ready (t : nat) : M bool :=
  th ← get_thread t;
  match th_state th with
  | TRun => mret true
  | TWait =>
      L ← get_logger (th_logger th);
      event_is_set (evtQueue (common L))
  | _ => mret false
  end.

(** A step of the writer thread.  An exception that leaves [__logThread]
    ends the thread, its traceback going to [stderr]. *)
Definition thread_step (t : nat) : M unit :=
  th ← get_thread t;
  ready ← thread_ready t;
  if ready : bool then
    try_except
      (s ← match th_state th with
           | TWait => logThread_wake (th_logger th)
           | _ => logThread_pass (th_logger th)
           end;
       set_thread_state t s)
      (fun ex => print_err (format_exc (Some ex));; set_thread_state t TDied)
  else mret tt.

Definition thread_ended (t : nat) : M bool :=
  th ← get_thread t;
  mret (match th_state th with TDone | TDied => true | _ => false end).

(** The thread left to itself for at most [fuel] steps; [true] when it has
    ended. *)
Fixpoint thread_run (fuel : nat) (t : nat) : M bool :=
  ended ← thread_ended t;
  if ended : bool then mret true
  else
    match fuel with
    | O => mret false
    | S n =>
        ready ← thread_ready t;
        if ready : bool then thread_step t;; thread_run n t else mret false
    end.

(** [Thread.join()]: the caller waits while the thread runs alone, one
    pass for each item of the queue and a few more for a wake-up and the
    last wait.  A thread that has not ended by then keeps the caller
    waiting. *)
Definition thread_join (t : nat) : M unit :=
  th ← get_thread t;
  L ← get_logger (th_logger th);
  q ← (fun w => unwrap BadRef (queues w !! queue (common L)) w);
  ended ← thread_run (length q + 4) t;
  if ended : bool then mret tt else hang.

(** Modelled from the spec: the console sink [console.ConsoleLogger], whose
    module is not among the sources.  It is a queue of [(level, message)]
    items; on [join()], after the [None] that ends it, it has printed its
    items in order, as the logger itself prints them without it. *)
Definition console_join (q : list (option (Z * string))) : M unit :=
  foldr (fun item k =>
           match item with
           | Some (lv, message) =>
               (if lv <? ERROR then print_out message else print_err message);; k
           | None => mret tt
           end) (mret tt) q.

(** *** [Logger.join] and [Logger.shutdown] *)
Definition join (self : nat) : M unit :=
  L ← get_logger self;
  match __thrLogger L with
  | Some t => thread_join t;; upd_logger self (set___thrLogger None)
  | None => mret tt
  end;;
  domains_del (domain L);;
  d ← gets domains;
  con ← class_attr thrConsoleLogger;
  match d, con with
  | [], Some q =>
      console_join (q ++ [None]);;
      modify (upd_cls (set_thrConsoleLogger None))
  | _, _ => mret tt
  end.

Definition shutdown (self : nat) (now : bool) : M unit :=
  stop self now;;
  join self.

(** *** [Logger.__init__] *)

(** The [for logger in domains.values()] loop of [__init__], over the
    values still to come: the [CommonConfig] of the first logger with this
    [pathName], [None] when the loop ends without [break]. *)
Fixpoint find_shared (pathName0 : string) (values : list (option nat)) : M (option CommonConfig) :=
  match values with
  | [] => mret None
  | v :: rest =>
      l ← unwrap AttributeError v;
      L ← get_logger l;
      if bool_decide (Some pathName0 = pathName L)
      then mret (Some (mkCommon (queue (common L)) (evtQueue (common L))
                                (evtRotate (common L)) (maxSize (common L))
                                (backupCnt (common L))))
      else find_shared pathName0 rest
  end.

(** Modelled from the spec: [console.ConsoleLogger()] and its [start()],
    from a module that is not among the sources; the import fails when the
    module is not installed. *)
Definition console_start : M unit :=
  if has_console then modify (upd_cls (set_thrConsoleLogger (Some [])))
  else raise ImportError.

(** Modelled from the spec: [fastlogging.network], not among the sources.
    The server is kept as its address, the client as the entries handed to
    its [log]. *)
Definition network_import : M unit :=
  if has_network then mret tt else raise ImportError.

(** The constructor answers the reference of the new object, which enters
    the store when [__init__] returns. *)
Definition Logger_init (domain0 : string) (level0 : Z) (pathName0 : option string)
    (maxSize0 backupCnt0 : Z) (console0 : bool) (server0 connect0 : option (string * Z)) : M nat :=
  if (maxSize0 <? 0) || (backupCnt0 <? 0) || ((maxSize0 >? 0) && (backupCnt0 =? 0))
  then raise (ValueError "Invalid maxSize or backupCnt")
  else
    self ← gets (fun w => fresh (dom (loggers w)));
    q ← new_queue;
    e1 ← new_event;
    e2 ← new_event;
    let L0 := {| domain := domain0; level := level0;
                 common := mkCommon q e1 e2 maxSize0 backupCnt0;
                 _lastMsg := LastMessage_init None 1 None;
                 pathName := pathName0; F := None; buf := []; size := 0; pos := 0;
                 __console := console0; __thrTimer := None; __thrLogger := None;
                 stopped := false; server := None; client := None |} in
    isd ← match pathName0 with
          | Some p => gets (fun w => fs_isdir (fsys w) (dirname p))
          | None => mret false
          end;
    ut ← class_attr useThreads;
    L1 ← (if isd : bool then
            match pathName0 with
            | Some p =>
                values ← gets (fun w => (map snd (domains w)));
                shared ← find_shared p values;
                match shared with
                | Some c => mret (set_common c L0)
                | None =>
                    enc ← class_attr encoding;
                    h ← open_append p;
                    pos0 ← file_tell h;
                    thr ← (if ut : bool then t ← thread_start self; mret (Some t) else mret None);
                    mret (set___thrLogger thr (set_pos pos0 (set_F (Some h) L0)))
                end
            | None => mret L0
            end
          else mret L0);
    con ← class_attr thrConsoleLogger;
    (match ut, con with
     | true, None => console_start
     | _, _ => mret tt
     end);;
    srv ← match server0 with
          | Some addr => network_import;; mret (Some addr)
          | None => mret None
          end;
    cli ← match connect0 with
          | Some _ => network_import;; mret (Some ([] : list (option Entry)))
          | None => mret None
          end;
    modify (upd_loggers (insert self
      {| domain := domain L1; level := level L1; common := common L1;
         _lastMsg := _lastMsg L1; pathName := pathName L1; F := F L1; buf := buf L1;
         size := size L1; pos := pos L1; __console := __console L1;
         __thrTimer := __thrTimer L1; __thrLogger := __thrLogger L1;
         stopped := stopped L1; server := srv; client := cli |}));;
    mret self.

(** *** The module functions *)

Definition GetLogger (domain0 : option string) (level0 : Z) (pathName0 : option string)
    (maxSize0 backupCnt0 : Z) (console0 : bool) (server0 connect0 : option (string * Z)) : M nat :=
  d ← gets domains;
  match d with
  | [] => raise (ValueError "Call LogInit first")
  | _ =>
      let domain1 := default "root"%string domain0 in
      match dict_get domain1 d with
      | Some logger =>
          match logger with
          | Some l => stop l false;; join l
          | None => mret tt
          end;;
          domains_del domain1
      | None => mret tt
      end;;
      l ← Logger_init domain1 level0 pathName0 maxSize0 backupCnt0 console0 server0 connect0;
      modify (upd_domains (dict_set domain1 (Some l)));;
      mret l
  end.

Definition LogInit (domain0 : option string) (level0 : Z) (pathName0 : option string)
    (maxSize0 backupCnt0 : Z) (console0 colors0 : bool)
    (compress0 : option ((string -> string) * string)) (useThreads0 : bool)
    (encoding0 : option string) (server0 connect0 : option (string * Z)) : M nat :=
  let domain1 := default "root"%string domain0 in
  modify (upd_cls (fun c => set_encoding encoding0 (set_useThreads useThreads0
                              (set_compress compress0 (set_colors colors0 c)))));;
  modify (upd_domains (dict_set domain1 None));;
  l ← GetLogger (Some domain1) level0 pathName0 maxSize0 backupCnt0 console0 server0 connect0;
  (if colors0 && String.eqb NORMAL ""
   then warning l "Module colorama not installed! Colored log not available" [] ∅
   else mret tt);;
  mret l.

(** [for x in xs: body x] *)
Fixpoint for_each {A} (xs : list A) (body : A -> M unit) : M unit :=
  match xs with
  | [] => mret tt
  | x :: rest => body x;; for_each rest body
  end.

(** [Shutdown]: over [tuple(domains.values())], taken before the loop. *)
Definition Shutdown (now : bool) : M unit :=
  values ← gets (fun w => map snd (domains w));
  for_each values (fun v => l ← unwrap AttributeError v; shutdown l now).

(** The loop of [Rotate], [signaled] going from turn to turn. *)
Fixpoint Rotate_loop (values : list (option nat)) (signaled : gset nat) : M unit :=
  match values with
  | [] => mret tt
  | v :: rest =>
      l ← unwrap AttributeError v;
      L ← get_logger l;
      if bool_decide (F L = None) || bool_decide (evtRotate (common L) ∈ signaled)
      then Rotate_loop rest signaled
      else rotate l;; Rotate_loop rest ({[evtRotate (common L)]} ∪ signaled)
  end.

Definition Rotate : M unit :=
  values ← gets (fun w => map snd (domains w));
  Rotate_loop values ∅.

(** The assignments by which a client configures the class:
    [Logger.dateFmt = ...], the three hooks, [Logger.sameMsgTimeout = ...]
    and [Logger.sameMsgCountMax = ...]. *)
Definition configure (dateFmt0 : string)
    (cbMessageKey0 : option (Logger -> Entry -> exn + option string))
    (cbFormatter0 : option (Logger -> Entry -> exn + string))
    (cbWriter0 : option (Logger -> exn + (list string * Z * list string)))
    (sameMsgTimeout0 : Q) (sameMsgCountMax0 : Z) : M unit :=
  modify (upd_cls (fun c =>
    {| backlog := backlog c; dateFmt := dateFmt0; cbMessageKey := cbMessageKey0;
       cbFormatter := cbFormatter0; cbWriter := cbWriter0; colors := colors c;
       compress := compress c; useThreads := useThreads c; encoding := encoding c;
       sameMsgTimeout := sameMsgTimeout0; sameMsgCountMax := sameMsgCountMax0;
       thrConsoleLogger := thrConsoleLogger c |})).

(** ** Runs

    What happens to the state: the calls of a client, from one thread, and
    between them the steps of the writer threads, the timers that fire and
    the clock that goes on. *)
Inductive Call :=
| CLogInit (domain0 : option string) (level0 : Z) (pathName0 : option string)
    (maxSize0 backupCnt0 : Z) (console0 colors0 : bool)
    (compress0 : option ((string -> string) * string)) (useThreads0 : bool)
    (encoding0 : option string) (server0 connect0 : option (string * Z))
| CGetLogger (domain0 : option string) (level0 : Z) (pathName0 : option string)
    (maxSize0 backupCnt0 : Z) (console0 : bool) (server0 connect0 : option (string * Z))
| CShutdown (now : bool)
| CRotate
| CSetBacklog (size0 : Z)
| CConfigure (dateFmt0 : string)
    (cbMessageKey0 : option (Logger -> Entry -> exn + option string))
    (cbFormatter0 : option (Logger -> Entry -> exn + string))
    (cbWriter0 : option (Logger -> exn + (list string * Z * list string)))
    (sameMsgTimeout0 : Q) (sameMsgCountMax0 : Z)
| CLog (self : nat) (level0 : Z) (msg : string) (args : list pyval) (kwargs : gmap string pyval)
| CDebug (self : nat) (msg : string) (args : list pyval) (kwargs : gmap string pyval)
| CInfo (self : nat) (msg : string) (args : list pyval) (kwargs : gmap string pyval)
| CWarning (self : nat) (msg : string) (args : list pyval) (kwargs : gmap string pyval)
| CError (self : nat) (msg : string) (args : list pyval) (kwargs : gmap string pyval)
| CFatal (self : nat) (msg : string) (args : list pyval) (kwargs : gmap string pyval)
| CCritical (self : nat) (msg : string) (args : list pyval) (kwargs : gmap string pyval)
| CException (self : nat) (msg : string) (args : list pyval) (kwargs : gmap string pyval)
| CSetLevel (self : nat) (level0 : Z)
| CStop (self : nat) (now : bool)
| CJoin (self : nat)
| CShutdownLogger (self : nat) (now : bool)
| CRotateLogger (self : nat)
| CThreadStep (t : nat)
| CTimerFire (t : nat)
| CTick (dt : Z).

Definition run (c : Call) : M unit :=
  match c with
  | CLogInit d lv p ms bc con col comp ut enc srv cli =>
      LogInit d lv p ms bc con col comp ut enc srv cli;; mret tt
  | CGetLogger d lv p ms bc con srv cli => GetLogger d lv p ms bc con srv cli;; mret tt
  | CShutdown now => Shutdown now
  | CRotate => Rotate
  | CSetBacklog n => setBacklog n
  | CConfigure df mk fm wr tmo smax => configure df mk fm wr tmo smax
  | CLog l lv msg args kw => log l lv msg args kw
  | CDebug l msg args kw => debug l msg args kw
  | CInfo l msg args kw => info l msg args kw
  | CWarning l msg args kw => warning l msg args kw
  | CError l msg args kw => error l msg args kw
  | CFatal l msg args kw => fatal l msg args kw
  | CCritical l msg args kw => critical l msg args kw
  | CException l msg args kw => exception l msg args kw
  | CSetLevel l lv => setLevel l lv
  | CStop l now => stop l now
  | CJoin l => join l
  | CShutdownLogger l now => shutdown l now
  | CRotateLogger l => rotate l
  | CThreadStep t => thread_step t
  | CTimerFire t => timer_fire t
  | CTick dt => modify (fun w => {| domains := domains w; loggers := loggers w;
                                    queues := queues w; events := events w; files := files w;
                                    timers := timers w; threads := threads w; cls := cls w;
                                    fsys := fsys w; stdout := stdout w; stderr := stderr w;
                                    sink := sink w; clock := clock w + Z.max 0 dt;
                                    handling := handling w |})
  end.

(** The state after a sequence of calls and steps. *)
Definition run_all (cs : list Call) (w : World) : World :=
  fold_left (fun w c => (run c w).2) cs w.

End Methods.

(** The states a program can be in: those that runs reach from the start. *)
Inductive reachable `{rt : Runtime} : World -> Prop :=
| reachable_start fs now : reachable (world0 fs now)
| reachable_step c w : reachable w -> reachable (run c w).2.

(** ** A runtime and a file system to run on

    Values for the parameters, for the runs below: the levels in steps of
    ten, short symbols, no colours (colorama absent), the time printed as a
    number, [%s] and [%d] substituted in turn. *)

Fixpoint percent_go (fuel : nat) (msg : list ascii) (args : list pyval) : option (list ascii) :=
  match fuel with
  | O => None
  | S n =>
      match msg with
      | [] => match args with [] => Some [] | _ => None end
      | "%"%char :: "%"%char :: r => cons "%"%char <$> percent_go n r args
      | "%"%char :: _ :: r =>
          match args with
          | a :: args' => app (String.list_ascii_of_string (str_of a)) <$> percent_go n r args'
          | [] => None
          end
      | c :: r => cons c <$> percent_go n r args
      end
  end.

Definition sample_percent (msg : string) (args : list pyval) : option string :=
  String.string_of_list_ascii <$>
    percent_go (S (String.length msg)) (String.list_ascii_of_string msg) args.

Definition sample_exc_name (e : exn) : string :=
  match e with
  | ValueError m => "ValueError: " +:+ m
  | RuntimeError m => "RuntimeError: " +:+ m
  | KeyError => "KeyError"
  | TypeError => "TypeError"
  | AttributeError => "AttributeError"
  | OSError => "OSError"
  | ImportError => "ImportError"
  | BadRef => "BadRef"
  end.

Definition sample_rt : Runtime :=
  {| NOLOG := 100; FATAL := 50; ERROR := 40; WARNING := 30; INFO := 20; DEBUG := 10;
     EXCEPTION := 60;
     LOG2SYM := list_to_map [(60, "EXCEPTION"); (50, "FATAL"); (40, "ERROR");
                             (30, "WARNING"); (20, "INFO"); (10, "DEBUG")]%string;
     NORMAL := ""; BRIGHTRED := "";
     LVL2COL := list_to_map [(50, ""); (40, ""); (30, ""); (20, ""); (10, "")]%string;
     strftime := fun _ t => pretty t;
     percent := sample_percent;
     format_exc := fun e => match e with
                            | Some e => sample_exc_name e
                            | None => "NoneType: None"%string
                            end;
     has_console := true; has_network := true |}.

(** A root with the directory [/tmp], the working directory. *)
Definition sample_fs : FileSystem :=
  mkFS (<[ ["tmp"%string] := Dir ]> {[ [] := Dir ]}) ∅ ["tmp"%string].

Definition sample_world : World := world0 sample_fs 1000.

(** What is on disk under a name. *)
Definition disk (w : World) (p : string) : option string := fs_read (fsys w) p.

(** The file object of a logger, when it has one. *)
Definition file_of (w : World) (l : nat) : option FileObj :=
  L ← loggers w !! l; h ← F L; files w !! h.

(** A directory [/tmp] with two backups of [app.log] and, in the place of
    the third, a directory. *)
Definition backups_fs : FileSystem :=
  mkFS (<[ ["tmp"; "app.log.3"]%string := Dir ]>
        (<[ ["tmp"; "app.log.2"]%string := File 1 ]>
         (<[ ["tmp"; "app.log.1"]%string := File 0 ]>
          (<[ ["tmp"%string] := Dir ]> {[ [] := Dir ]}))))
       (<[ 1%nat := "two"%string ]> {[ 0%nat := "one"%string ]}) ["tmp"%string].

Definition backups_world : World := world0 backups_fs 1000.

(** ** Runs

    [LogInit] with a log file in [/tmp], with and without the writer
    thread, and what the examples below do after it. *)
Definition init_call (domain0 : string) (pathName0 : string) (maxSize0 backupCnt0 : Z)
    (useThreads0 : bool) : Call :=
  CLogInit (Some domain0) 10 (Some pathName0) maxSize0 backupCnt0 false false None
           useThreads0 None None None.

(** One message, then a graceful shutdown, without and with the thread. *)
Definition sync_shutdown_run : World :=
  run_all (rt := sample_rt)
    [init_call "root" "/tmp/app.log" 4096 1 false; CInfo 0 "hello" [] ∅;
     CShutdownLogger 0 false] sample_world.

Definition async_shutdown_run : World :=
  run_all (rt := sample_rt)
    [init_call "root" "/tmp/app.log" 4096 1 true; CInfo 0 "hello" [] ∅;
     CShutdownLogger 0 false] sample_world.

(** A domain initialised once, and twice. *)
Definition init_once_run : World :=
  run_all (rt := sample_rt) [init_call "a" "/tmp/app.log" 0 0 true] sample_world.

(** The logger that this leaves. *)
Definition first_logger : Logger :=
  {| domain := "a"; level := 10; common := mkCommon 0 0 1 0 0;
     _lastMsg := mkLast None 1 None; pathName := Some "/tmp/app.log"%string;
     F := Some 0%nat; buf := []; size := 0; pos := 0; __console := false;
     __thrTimer := None; __thrLogger := Some 0%nat; stopped := false;
     server := None; client := None |}.

Definition init_shared_run : World :=
  run_all (rt := sample_rt) [init_call "a" "/tmp/app.log" 0 0 false] sample_world.

Definition init_twice_run : World :=
  run_all (rt := sample_rt)
    [init_call "a" "/tmp/app.log" 0 0 true; init_call "a" "/tmp/app.log" 0 0 true]
    sample_world.

(** [sameMsgCountMax = 3], [sameMsgTimeout = 0.1], and the same message
    three times, a second apart. *)
Definition same_message_run : World :=
  run_all (rt := sample_rt)
    [CConfigure "%y.%m.%d %H:%M:%S" None None None (1 # 10)%Q 3;
     init_call "root" "/tmp/app.log" 0 0 false;
     CInfo 0 "m" [] ∅; CTick 1; CInfo 0 "m" [] ∅; CTick 1; CInfo 0 "m" [] ∅; CTick 1]
    sample_world.

(** ... then silence: the timer fires. *)
Definition three_then_silence : World :=
  run_all (rt := sample_rt) [CTimerFire 0] same_message_run.

(** ... or two more and then silence. *)
Definition five_then_silence : World :=
  run_all (rt := sample_rt)
    [CInfo 0 "m" [] ∅; CTick 1; CInfo 0 "m" [] ∅; CTick 1; CTimerFire 1] same_message_run.

(** A logger with three backups over [backups_fs], a message in its
    buffer. *)
Definition before_rotation : World :=
  run_all (rt := sample_rt)
    [init_call "root" "/tmp/app.log" 100 3 false; CInfo 0 "hello" [] ∅] backups_world.

Definition after_rotation : World :=
  run_all (rt := sample_rt) [CRotateLogger 0] before_rotation.

(** The names that [os.listdir("/tmp")] gives [__rotate] there. *)
Definition backup_names : list string :=
  ["app.log"; "app.log.3"; "app.log.2"; "app.log.1"]%string.

(** Two domains on one file, named in two ways, and in one way. *)
Definition two_names_run : World :=
  run_all (rt := sample_rt)
    [init_call "a" "/tmp/app.log" 0 0 false;
     CGetLogger (Some "b"%string) 10 (Some "/tmp/./app.log"%string) 0 0 false None None]
    sample_world.

Definition one_name_run : World :=
  run_all (rt := sample_rt)
    [init_call "a" "/tmp/app.log" 0 0 false;
     CGetLogger (Some "b"%string) 10 (Some "/tmp/app.log"%string) 0 0 false None None]
    sample_world.

(** A logger that lets nothing through, and one with a writer thread and a
    message in its queue. *)
Definition quiet_run : World :=
  run_all (rt := sample_rt)
    [CLogInit None 100 (Some "/tmp/app.log"%string) 0 0 false false None false None None None]
    sample_world.

Definition queued_run : World :=
  run_all (rt := sample_rt)
    [init_call "root" "/tmp/app.log" 0 0 true; CInfo 0 "hello" [] ∅] sample_world.

Definition nl : string := String "010"%char "".

(** What a file object holds that was written and not flushed. *)
Definition unflushed (w : World) (l : nat) : option string :=
  fo_wbuf <$> file_of w l.

(** * Properties

    What the theorems below are about. *)

(** The exceptions a computation can end with. *)
Definition raises_only {A} (P : exn -> Prop) (m : M A) : Prop :=
  forall w e, (m w).1 = Raise e -> P e.

(** A computation that returns or raises. *)
Definition no_hang {A} (m : M A) : Prop := forall w, (m w).1 <> Hang.

(** A property of the state that a computation keeps, however it ends. *)
Definition preserves {A} (I : World -> Prop) (m : M A) : Prop :=
  forall w, I w -> I (m w).2.

(** The configuration error of [Logger.__init__]. *)
Definition config_error : exn := ValueError "Invalid maxSize or backupCnt".

(** The invalid combinations as the specification lists them: zero
    [maxSize] with nonzero [backupCount], or a negative value. *)
Definition spec_invalid (maxSize0 backupCnt0 : Z) : Prop :=
  (maxSize0 = 0 /\ backupCnt0 <> 0) \/ maxSize0 < 0 \/ backupCnt0 < 0.

(** The invalid combinations of the guard in [Logger.__init__]. *)
Definition code_invalid (maxSize0 backupCnt0 : Z) : Prop :=
  maxSize0 < 0 \/ backupCnt0 < 0 \/ (maxSize0 > 0 /\ backupCnt0 = 0).

(** [msg] after [if args: msg = msg % args]. *)
Definition formatted `{rt : Runtime} (msg : string) (args : list pyval) : option string :=
  match args with
  | [] => Some msg
  | _ => percent msg args
  end.

(** ** Invariants

    An update of a logger is benign when it leaves the path, the shared
    configuration, the domain and the thread of the logger as they are,
    and does not give it a file or a timer. *)
Definition benign (f : Logger -> Logger) : Prop :=
  forall L, pathName (f L) = pathName L /\ common (f L) = common L /\
            domain (f L) = domain L /\ __thrLogger (f L) = __thrLogger L /\
            (F (f L) = F L \/ F (f L) = None) /\
            (__thrTimer (f L) = __thrTimer L \/ __thrTimer (f L) = None).

(** The logger [l] is there and has the property [P]. *)
Definition has_prop (l : nat) (P : Logger -> Prop) (w : World) : Prop :=
  exists L, loggers w !! l = Some L /\ P L.

(** Properties of a logger that benign updates keep. *)
Definition chain_closed (P : Logger -> Prop) : Prop :=
  forall L L', pathName L' = pathName L -> common L' = common L ->
    domain L' = domain L -> __thrLogger L' = __thrLogger L ->
    (F L' = F L \/ F L' = None) ->
    (__thrTimer L' = __thrTimer L \/ __thrTimer L' = None) -> P L -> P L'.

(** Properties of a logger that depend on its path only, and on whether it
    has a file, losing the file keeping them. *)
Definition full_closed (P : Logger -> Prop) : Prop :=
  forall L L', pathName L' = pathName L -> (F L' = F L \/ F L' = None) -> P L -> P L'.

(** On every file object [close()] was called once if it is closed, never
    if it is open. *)
Definition CloseInv (w : World) : Prop :=
  map_Forall (fun _ f => fo_closes f = if fo_closed f then 1%nat else 0%nat) (files w).

(** No file object had [close()] called on it twice. *)
Definition closed_once (w : World) : Prop :=
  map_Forall (fun _ f => (fo_closes f <= 1)%nat) (files w).

(** The registry of [w] registers no logger that [w0] does not. *)
Definition dom_sub (w0 w : World) : Prop :=
  forall d l, dict_get d (domains w) = Some (Some l) -> dict_get d (domains w0) = Some (Some l).

(** What the primitive steps of message processing must keep. *)
Class PrimInv (I : World -> Prop) : Prop := {
  pi_loggers : forall l f w, benign f -> I w -> I (upd_loggers (alter f l) w);
  pi_cls : forall g w, I w -> I (upd_cls g w);
  pi_fsys : forall g w, I w -> I (upd_fsys g w);
  pi_stdout : forall g w, I w -> I (upd_stdout g w);
  pi_stderr : forall g w, I w -> I (upd_stderr g w);
  pi_sink : forall g w, I w -> I (upd_sink g w);
  pi_timers : forall g w, I w -> I (upd_timers g w);
  pi_event_set : forall e w, I w -> I (upd_events (alter (fun _ => true) e) w);
  pi_file_write : forall h d, preserves I (file_write h d);
  pi_flush_close : forall h, preserves I (file_flush h;; file_close h);
  pi_open_append : forall p, preserves I (open_append p) }.

(** ... with rotation, which puts a new file in place of the old one. *)
Class ChainInv `{rt : Runtime} (I : World -> Prop) : Prop := {
  chain_prim :: PrimInv I;
  chain_rotate : forall x, preserves I (__rotate x) }.

(** ... with coalescing, which arms a timer. *)
Class EntryInv `{rt : Runtime} (I : World -> Prop) : Prop := {
  entry_chain :: ChainInv I;
  ei_set_timer : forall l t w, I w -> I (upd_loggers (alter (set___thrTimer (Some t)) l) w) }.

(** ... what the steps of a writer thread and the logging calls must
    keep. *)
Class ThreadInv `{rt : Runtime} (I : World -> Prop) : Prop := {
  thread_entry :: EntryInv I;
  fi_queues : forall g w, I w -> I (upd_queues g w);
  fi_events : forall g w, I w -> I (upd_events g w);
  fi_threads : forall t s w, I w ->
    I (upd_threads (alter (fun th => mkThread (th_logger th) s) t) w) }.

(** ... and what every call and step must keep. *)
Class FullInv `{rt : Runtime} (I : World -> Prop) : Prop := {
  full_thread :: ThreadInv I;
  fi_clear_thread : forall l w, I w -> I (upd_loggers (alter (set___thrLogger None) l) w);
  fi_domains_remove : forall k w, I w -> I (upd_domains (dict_remove k) w);
  fi_clock : forall t w, I w ->
    I {| domains := domains w; loggers := loggers w; queues := queues w;
         events := events w; files := files w; timers := timers w;
         threads := threads w; cls := cls w; fsys := fsys w; stdout := stdout w;
         stderr := stderr w; sink := sink w; clock := t; handling := handling w |} }.

(** The path of a logger never changes, and a logger without a file
    never gets one. *)
Definition same_path (L0 : Logger) (L : Logger) : Prop :=
  pathName L = pathName L0 /\ (F L0 = None -> F L = None).

(** The state [w] after steps from [w0]: no logger was registered, the
    loggers of [w0] are there with their paths, those without a file
    still without. *)
Definition keeps (w0 w : World) : Prop :=
  dom_sub w0 w /\
  forall l L0, loggers w0 !! l = Some L0 -> has_prop l (same_path L0) w.

(** The logger [l], with attributes [L], is in the registry. *)
Definition registered (w : World) (l : nat) (L : Logger) : Prop :=
  (exists d, dict_get d (domains w) = Some (Some l)) /\ loggers w !! l = Some L.

(** Of two loggers in the registry with the same [pathName], one at most
    has a file. *)
Definition one_file_per_path (w : World) : Prop :=
  forall l1 l2 L1 L2, l1 <> l2 -> registered w l1 L1 -> registered w l2 L2 ->
    pathName L1 = pathName L2 -> F L1 <> None -> F L2 <> None -> False.

(** The registry holds references to loggers that exist. *)
Definition registry_sound (w : World) : Prop :=
  forall d l, dict_get d (domains w) = Some (Some l) -> is_Some (loggers w !! l).

(** A computation from a state in [P] returns [a] in a state in [Q a], or
    ends otherwise in a state in [E]. *)
Definition hoare {A} (P : World -> Prop) (m : M A) (Q : A -> World -> Prop)
    (E : World -> Prop) : Prop :=
  forall w, P w -> match (m w).1 with
                   | Ok a => Q a (m w).2
                   | _ => E (m w).2
                   end.

(** The registry and the loggers are these. *)
Definition frame_reg (d0 : list (string * option nat)) (lg0 : gmap nat Logger)
    (w : World) : Prop :=
  domains w = d0 /\ loggers w = lg0.

(** What [Logger.__init__] leaves when it returns the logger [l] for the
    path [pathName0]: a new logger with this path, and, when it has a
    file, no logger of the registry with the same path. *)
Definition init_post (d0 : list (string * option nat)) (lg0 : gmap nat Logger)
    (pathName0 : option string) (l : nat) (w : World) : Prop :=
  domains w = d0 /\ lg0 !! l = None /\
  exists L, loggers w = <[l := L]> lg0 /\ pathName L = pathName0 /\
    (F L <> None -> forall l', Some l' ∈ map snd d0 ->
                    exists L', lg0 !! l' = Some L' /\ pathName L' <> pathName0).

(** A computation that keeps every invariant of the calls and steps. *)
Definition keeper `{rt : Runtime} {A} (m : M A) : Prop :=
  forall I, FullInv I -> preserves I m.

(** The invariant of the registry. *)
Definition Inv (w : World) : Prop := one_file_per_path w /\ registry_sound w.

(** The logger that [__init__] leaves shares the queue and the two
    events of a logger of the registry with the same path, and has no file
    and no thread of its own. *)
Definition shares_post (d0 : list (string * option nat)) (lg0 : gmap nat Logger)
    (fl0 : gmap nat FileObj) (p : string) (l : nat) (w : World) : Prop :=
  files w = fl0 /\
  exists L, loggers w !! l = Some L /\ F L = None /\ __thrLogger L = None /\
    exists l' L', Some l' ∈ map snd d0 /\ lg0 !! l' = Some L' /\ pathName L' = Some p /\
      queue (common L) = queue (common L') /\
      evtQueue (common L) = evtQueue (common L') /\
      evtRotate (common L) = evtRotate (common L').

(** The shift of the backups as the specification words it: a rename that
    fails is skipped for its slot, and the loop goes on with the slots that
    remain. *)
Fixpoint shift_each_slot (dirName logFileName zExt : string) (fileNames : list string)
    (cnts : list Z) : M unit :=
  match cnts with
  | [] => mret tt
  | cnt :: rest =>
      let srcFileName := backup_name logFileName (cnt - 1) zExt in
      (if negb (bool_decide (srcFileName ∈ fileNames)) then mret tt
       else try_except
              (os_replace (path_join dirName srcFileName)
                          (path_join dirName (backup_name logFileName cnt zExt)))
              (fun _ => mret tt));;
      shift_each_slot dirName logFileName zExt fileNames rest
  end.

(** The queues, the threads and the registry are these. *)
Definition still (q0 : gmap nat (list (option Entry))) (th0 : gmap nat ThreadObj)
    (d0 : list (string * option nat)) (w : World) : Prop :=
  queues w = q0 /\ threads w = th0 /\ domains w = d0.

(** The event exists. *)
Definition event_there (e : nat) (w : World) : Prop := is_Some (events w !! e).

(** The end of [stop], after the timer: the queue cleared when [now],
    the [None] appended, the writer woken, the logger marked. *)
Definition stop_tail (self : nat) (L : Logger) (now : bool) (w : World) : World :=
  upd_loggers (alter (set_stopped true) self)
    (upd_events (alter (fun _ => true) (evtQueue (common L)))
       (upd_queues (alter (fun l => l ++ [None]) (queue (common L)))
          (if now then upd_queues (alter (fun _ => []) (queue (common L))) w else w))).

(** The references of the logger lead to objects: its queue, its wake
    event and, when it has one, its thread, which runs it. *)
Definition live (w : World) (self : nat) : Prop :=
  exists L, loggers w !! self = Some L /\
    is_Some (queues w !! queue (common L)) /\
    is_Some (events w !! evtQueue (common L)) /\
    (forall t, __thrLogger L = Some t ->
       exists th, threads w !! t = Some th /\ th_logger th = self).

(** The domain of the logger is in the registry. *)
Definition in_registry (w : World) (self : nat) : Prop :=
  exists L, loggers w !! self = Some L /\ dict_has (domain L) (domains w) = true.

(** The thread [t] runs the logger [self]; it is at [s], and the queue of
    the logger, which its configuration [c] names, holds [ql]. *)
Definition thread_at (t self : nat) (c : CommonConfig) (s : tstate)
    (ql : list (option Entry)) (w : World) : Prop :=
  threads w !! t = Some (mkThread self s) /\
  has_prop self (fun L => common L = c) w /\
  queues w !! queue c = Some ql.

(** The thread [t], of the logger [self], has ended. *)
Definition thread_over (t self : nat) (w : World) : Prop :=
  exists s, threads w !! t = Some (mkThread self s) /\ (s = TDone \/ s = TDied).

(** The thread [t] exists and runs the logger [self]. *)
Definition thread_of (t self : nat) (w : World) : Prop :=
  exists s, threads w !! t = Some (mkThread self s).

(** The values a computation can return. *)
Definition returns_only {A} (Q : A -> Prop) (m : M A) : Prop :=
  forall w a, (m w).1 = Ok a -> Q a.

(** The registry is this. *)
Definition registry_is (d0 : list (string * option nat)) (w : World) : Prop :=
  domains w = d0.

(** ** More of the module

    Every logger of the registry is registered under its own domain. *)
Definition keyed (w : World) : Prop :=
  forall d l, dict_get d (domains w) = Some (Some l) -> has_prop l (fun L => domain L = d) w.

(** What [Logger.__init__] leaves when it returns [l]: the registry as it
    was, and one more logger, with the attributes that were given. *)
Definition fields_post (d0 : list (string * option nat)) (lg0 : gmap nat Logger)
    (domain0 : string) (level0 : Z) (pathName0 : option string) (console0 : bool)
    (l : nat) (w : World) : Prop :=
  domains w = d0 /\ lg0 !! l = None /\
  exists L, loggers w = <[l := L]> lg0 /\ domain L = domain0 /\ level L = level0 /\
    pathName L = pathName0 /\ __console L = console0 /\ stopped L = false /\
    __thrTimer L = None /\ _lastMsg L = mkLast None 1 None /\ buf L = [].

(** The error of a logging call on a logger that was stopped. *)
Definition already_stopped : exn := RuntimeError "Logger already stopped".

(** A call that does nothing, or fails as on a stopped logger, the state
    as it was. *)
Definition refused (m : M unit) (w : World) : Prop :=
  m w = (Ok tt, w) \/ m w = (Raise already_stopped, w).

(** The registry has each key once. *)
Definition nodup_keys (w : World) : Prop := NoDup (map fst (domains w)).

(** The text of an entry without traceback, as the default formatter
    makes it: ["%s: %s: %s" % (sTime, LOG2SYM[level], msg)]. *)
Definition text_of `{rt : Runtime} (dateFmt0 : string) (e : Entry) (sym : string) : string :=
  strftime dateFmt0 (e_time e) +:+ ": " +:+ sym +:+ ": " +:+ e_msg e.

(** The text with its count, as [_logMessage] makes it for a key:
    ["%d times: %s" % (cnt, message)] when [cnt > 0]. *)
Definition prefixed (key0 : option string) (cnt0 : Z) (text : string) : string :=
  match key0 with
  | Some _ => if cnt0 >? 0 then (pretty cnt0 +:+ " times: " +:+ text)%string else text
  | None => text
  end.

(** The part of [_logMessage] that follows the making of the text: the
    file, the console and the client. *)
Definition message_tail `{rt : Runtime} (self : nat) (L : Logger) (e : Entry)
    (message : string) : M unit :=
  returned ← try_except (buffer_message self message)
                        (fun ex => report_error ex;; mret false);
  if returned : bool then mret tt
  else
    (if __console L || truthy (default (VBool false) (e_kwargs e !! "console"%string))
     then console_message (e_level e) (e_kwargs e) message else mret tt);;
    upd_logger self (fun L => match client L with
                              | Some sent => set_client (Some (sent ++ [Some e])) L
                              | None => L
                              end).

(** The logger after a line went into its buffer. *)
Definition buffered (message : string) (L : Logger) : Logger :=
  set_size (size L + (Z.of_nat (String.length message) + 1))
           (set_buf (buf L ++ [(message +:+ nl)%string]) L).

(** Two values of the class that differ in the backlog at most. *)
Definition same_config (c' c : LoggerClass) : Prop :=
  dateFmt c' = dateFmt c /\ cbMessageKey c' = cbMessageKey c /\
  cbFormatter c' = cbFormatter c /\ cbWriter c' = cbWriter c /\
  colors c' = colors c /\ compress c' = compress c /\
  useThreads c' = useThreads c /\ encoding c' = encoding c /\
  sameMsgTimeout c' = sameMsgTimeout c /\ sameMsgCountMax c' = sameMsgCountMax c /\
  thrConsoleLogger c' = thrConsoleLogger c.

(** The logger with one more message of the same key: the count and the
    entry stored. *)
Definition counted (m : LastMessage) (e : Entry) (L : Logger) : Logger :=
  set__lastMsg (mkLast (key m) (cnt m + 1) (Some e)) L.

(** The class attributes that [LogInit] sets. *)
Definition init_cls (colors0 : bool) (compress0 : option ((string -> string) * string))
    (useThreads0 : bool) (encoding0 : option string) (c : LoggerClass) : LoggerClass :=
  set_encoding encoding0 (set_useThreads useThreads0 (set_compress compress0 (set_colors colors0 c))).

(** The file objects, the file system, the threads and the loggers are
    these. *)
Definition frame_io (fl0 : gmap nat FileObj) (fs0 : FileSystem) (th0 : gmap nat ThreadObj)
    (lg0 : gmap nat Logger) (w : World) : Prop :=
  files w = fl0 /\ fsys w = fs0 /\ threads w = th0 /\ loggers w = lg0.

(** The path names no directory that exists: there is no path, or
    [os.path.dirname] of it is not a directory. *)
Definition no_directory (fs : FileSystem) (pathName0 : option string) : Prop :=
  match pathName0 with
  | Some p => fs_isdir fs (dirname p) = false
  | None => True
  end.

(** A name without a slash. *)
Definition no_slash (p : string) : bool :=
  forallb (fun a => negb (is_slash a)) (String.list_ascii_of_string p).

(** The loggers, the file objects and the contents of the files are
    these. *)
Definition frame_rot (lg0 : gmap nat Logger) (fl0 : gmap nat FileObj)
    (ino0 : gmap nat string) (w : World) : Prop :=
  loggers w = lg0 /\ files w = fl0 /\ inodes (fsys w) = ino0.

(** The events [ev'] are the events [ev] with some of them set. *)
Definition more_set (ev ev' : gmap nat bool) : Prop :=
  forall e, ev' !! e = ev !! e \/ (is_Some (ev !! e) /\ ev' !! e = Some true).

(** ** More runs

    The logger and the file object that a state has under a reference,
    and states for the theorems on the registry, the file and the rows of
    messages. *)
Definition logger_at (w : World) (l : nat) : Logger := default first_logger (loggers w !! l).

Definition file_at (w : World) (h : nat) : FileObj := default (mkFO 0 false "" 0) (files w !! h).

(** A logger with a rotation size, nothing logged yet. *)
Definition sized_run : World :=
  run_all (rt := sample_rt) [init_call "root" "/tmp/app.log" 4096 1 false] sample_world.

(** The writer has taken the message of [queued_run] into the buffer, and
    the logger was stopped: [None] is what the queue holds. *)
Definition ended_run : World :=
  run_all (rt := sample_rt) [CThreadStep 0; CStop 0 false] queued_run.

(** [sameMsgCountMax = 3] and one message. *)
Definition one_message_run : World :=
  run_all (rt := sample_rt)
    [CConfigure "%y.%m.%d %H:%M:%S" None None None (1 # 10)%Q 3;
     init_call "root" "/tmp/app.log" 0 0 false; CInfo 0 "m" [] ∅; CTick 1]
    sample_world.

(** [sample_fs] with the empty file [/tmp/app.log]. *)
Definition opened_fs : FileSystem :=
  mkFS (<[ ["tmp"; "app.log"]%string := File 0 ]> (tree sample_fs)) {[ 0%nat := ""%string ]}
       ["tmp"%string].

(** What does not come back.  The backlog that is off in [w0] is off in
    [w]; the loggers that are stopped in [w0] are there, and stopped, in
    [w]. *)
Definition off_after (w0 w : World) : Prop :=
  backlog (cls w0) = None -> backlog (cls w) = None.

Definition stopped_after (w0 w : World) : Prop :=
  forall l L, loggers w0 !! l = Some L -> stopped L = true ->
    exists L', loggers w !! l = Some L' /\ stopped L' = true.

Definition keeps_off (w0 w : World) : Prop := off_after w0 w /\ stopped_after w0 w.

(** The lines of [__rotate] before the [try] block, up to
    [self.pos = 0]: the buffer written, the file flushed and closed.  It
    answers the logger as it is after [__writePending]. *)
Definition rotation_start (self : nat) : M Logger :=
  __writePending self;;
  L ← get_logger self;
  h ← unwrap AttributeError (F L);
  file_flush h;;
  file_close h;;
  upd_logger self (set_pos 0);;
  mret L.

(** The logger of [before_rotation] when its buffer is written. *)
Definition rotating_logger : Logger :=
  {| domain := "root"; level := 10; common := mkCommon 0 0 1 100 3;
     _lastMsg := mkLast None 1 None; pathName := Some "/tmp/app.log"%string;
     F := Some 0%nat; buf := []; size := 0; pos := 18; __console := false;
     __thrTimer := None; __thrLogger := None; stopped := false;
     server := None; client := None |}.

(** A domain initialised twice, and the first of its two loggers shut
    down: the second has lost its key in the registry. *)
Definition lost_key_run : World :=
  run_all (rt := sample_rt)
    [init_call "a" "/tmp/app.log" 0 0 true; init_call "a" "/tmp/app.log" 0 0 true;
     CShutdownLogger 0 false] sample_world.

(** Writer threads, and a second domain on the file of the first: its
    logger shares the queue and has no thread. *)
Definition shared_async_run : World :=
  run_all (rt := sample_rt)
    [init_call "a" "/tmp/app.log" 0 0 true;
     CGetLogger (Some "b"%string) 10 (Some "/tmp/app.log"%string) 0 0 false None None]
    sample_world.

(** * Verification *)

(** ** Reasoning about computations *)

Lemma bind_eq {A B} (m : M A) (f : A -> M B) w :
  (m ≫= f) w = match m w with
               | (Ok a, w') => f a w'
               | (Raise e, w') => (Raise e, w')
               | (Hang, w') => (Hang, w')
               end.
Proof. reflexivity. Qed.

Lemma bind_ok {A B} (m : M A) (f : A -> M B) w a w' :
  m w = (Ok a, w') -> (m ≫= f) w = f a w'.
Proof. intros H. rewrite bind_eq, H. reflexivity. Qed.

Lemma bind_gets {A B} (f : World -> A) (k : A -> M B) w : (gets f ≫= k) w = k (f w) w.
Proof. reflexivity. Qed.

Lemma bind_class_attr {A B} (f : LoggerClass -> A) (k : A -> M B) w :
  (class_attr f ≫= k) w = k (f (cls w)) w.
Proof. reflexivity. Qed.

Lemma bind_modify {B} (f : World -> World) (k : unit -> M B) w :
  (modify f ≫= k) w = k tt (f w).
Proof. reflexivity. Qed.

Lemma bind_assoc_eq {A B C} (m : M A) (f : A -> M B) (g : B -> M C) w :
  ((m ≫= f) ≫= g) w = (m ≫= fun a => f a ≫= g) w.
Proof. rewrite !bind_eq. destruct (m w) as [[a | e |] w1]; reflexivity. Qed.

Lemma get_logger_ok w l L : loggers w !! l = Some L -> get_logger l w = (Ok L, w).
Proof. intros H. unfold get_logger. rewrite H. reflexivity. Qed.

Section Combinators.
Context {A B : Type}.

Lemma raises_only_bind P (m : M A) (f : A -> M B) :
  raises_only P m -> (forall a, raises_only P (f a)) -> raises_only P (m ≫= f).
Proof.
  intros Hm Hf w e. rewrite bind_eq.
  destruct (m w) as [[a| e'|] w'] eqn:E; simpl.
  - apply Hf.
  - intros [= ->]. apply (Hm w). rewrite E. reflexivity.
  - discriminate.
Qed.

Lemma raises_only_ret P (a : A) : raises_only P (mret a).
Proof. intros w e. discriminate. Qed.

Lemma raises_only_raise (P : exn -> Prop) e : P e -> raises_only P (raise e : M A).
Proof. intros H w e' [= <-]. exact H. Qed.

Lemma raises_only_unwrap (P : exn -> Prop) e (o : option A) : P e -> raises_only P (unwrap e o).
Proof. intros H. destruct o; [apply raises_only_ret | apply raises_only_raise, H]. Qed.

Lemma raises_only_gets P (f : World -> A) : raises_only P (gets f).
Proof. intros w e. discriminate. Qed.

Lemma raises_only_try P (m : M A) h :
  (forall e, raises_only P (h e)) -> raises_only P (try_except m h).
Proof.
  intros Hh w e. unfold try_except.
  destruct (m w) as [[a| e'|] w'] eqn:E; simpl; try discriminate. apply Hh.
Qed.

Lemma no_hang_bind (m : M A) (f : A -> M B) :
  no_hang m -> (forall a, no_hang (f a)) -> no_hang (m ≫= f).
Proof.
  intros Hm Hf w. rewrite bind_eq. specialize (Hm w).
  destruct (m w) as [[a| e'|] w'] eqn:E; simpl in *; [apply Hf | discriminate | congruence].
Qed.

Lemma no_hang_ret (a : A) : no_hang (mret a).
Proof. intros w. discriminate. Qed.

Lemma no_hang_raise e : no_hang (raise e : M A).
Proof. intros w. discriminate. Qed.

Lemma no_hang_unwrap e (o : option A) : no_hang (unwrap e o).
Proof. destruct o; [apply no_hang_ret | apply no_hang_raise]. Qed.

Lemma no_hang_gets (f : World -> A) : no_hang (gets f).
Proof. intros w. discriminate. Qed.

Lemma no_hang_try (m : M A) h :
  no_hang m -> (forall e, no_hang (h e)) -> no_hang (try_except m h).
Proof.
  intros Hm Hh w. unfold try_except. specialize (Hm w).
  destruct (m w) as [[a| e'|] w'] eqn:E; simpl in *; [discriminate | apply Hh | congruence].
Qed.

Lemma preserves_bind I (m : M A) (f : A -> M B) :
  preserves I m -> (forall a, preserves I (f a)) -> preserves I (m ≫= f).
Proof.
  intros Hm Hf w Hw. rewrite bind_eq. specialize (Hm w Hw).
  destruct (m w) as [[a| e'|] w'] eqn:E; simpl in *; [apply Hf | |]; assumption.
Qed.

Lemma preserves_ret I (a : A) : preserves I (mret a).
Proof. intros w Hw. exact Hw. Qed.

Lemma preserves_raise I e : preserves I (raise e : M A).
Proof. intros w Hw. exact Hw. Qed.

Lemma preserves_hang I : preserves I (hang : M A).
Proof. intros w Hw. exact Hw. Qed.

Lemma preserves_unwrap I e (o : option A) : preserves I (unwrap e o).
Proof. destruct o; [apply preserves_ret | apply preserves_raise]. Qed.

Lemma preserves_gets I (f : World -> A) : preserves I (gets f).
Proof. intros w Hw. exact Hw. Qed.

Lemma preserves_try I (m : M A) h :
  preserves I m -> (forall e, preserves I (h e)) -> preserves I (try_except m h).
Proof.
  intros Hm Hh w Hw. unfold try_except. specialize (Hm w Hw).
  destruct (m w) as [[a| e'|] w'] eqn:E; simpl in *; [| apply Hh |]; assumption.
Qed.

End Combinators.

Lemma raises_only_modify P f : raises_only P (modify f).
Proof. intros w e. discriminate. Qed.

Lemma no_hang_modify f : no_hang (modify f).
Proof. intros w. discriminate. Qed.

Lemma preserves_modify (I : World -> Prop) f :
  (forall w, I w -> I (f w)) -> preserves I (modify f).
Proof. intros H w Hw. apply H, Hw. Qed.

(** Reading the state keeps everything. *)
Lemma preserves_read {A} I (f : World -> option A) e :
  preserves I (fun w => unwrap e (f w) w).
Proof. intros w Hw. destruct (f w); exact Hw. Qed.

Lemma no_hang_read {A} (f : World -> option A) e : no_hang (fun w => unwrap e (f w) w).
Proof. intros w. destruct (f w); discriminate. Qed.

Lemma raises_only_read {A} (P : exn -> Prop) (f : World -> option A) e :
  P e -> raises_only P (fun w => unwrap e (f w) w).
Proof. intros H w e'. destruct (f w); simpl; [discriminate | intros [= <-]; exact H]. Qed.

Create HintDb mon discriminated.

#[local] Hint Resolve raises_only_ret raises_only_gets raises_only_modify
  no_hang_ret no_hang_raise no_hang_unwrap no_hang_gets no_hang_modify
  preserves_ret preserves_raise preserves_hang preserves_unwrap preserves_gets : mon.

(** One step through the shape of a computation. *)
Ltac mon_step :=
  lazymatch goal with
  | |- preserves _ (mbind _ _) => apply preserves_bind; [ | intros ? ]
  | |- preserves _ (try_except _ _) => apply preserves_try; [ | intros ? ]
  | |- preserves _ (fun w => unwrap _ _ w) => apply preserves_read
  | |- no_hang (mbind _ _) => apply no_hang_bind; [ | intros ? ]
  | |- no_hang (try_except _ _) => apply no_hang_try; [ | intros ? ]
  | |- no_hang (fun w => unwrap _ _ w) => apply no_hang_read
  | |- raises_only _ (mbind _ _) => apply raises_only_bind; [ | intros ? ]
  | |- raises_only _ (try_except _ _) => apply raises_only_try; intros ?
  | |- raises_only _ (raise _) => apply raises_only_raise
  | |- raises_only _ (unwrap _ _) => apply raises_only_unwrap
  | |- raises_only _ (fun w => unwrap _ _ w) => apply raises_only_read
  | |- _ (match ?x with _ => _ end) => destruct x
  | |- _ _ (match ?x with _ => _ end) => destruct x
  end.

Ltac mon := repeat (first [ solve [eauto 3 with mon] | mon_step ]).

Section Verification.
Context `{rt : Runtime}.

(** ** Level gates (C7, C10) *)

(** C7: a call of [debug], [info], [warning], [error], [fatal] or
    [exception] whose level is below the level of the logger returns at
    once and leaves the whole state as it was: nothing is formatted,
    buffered, queued or written. *)
Theorem gated_call_is_noop w self L msg args kwargs :
  loggers w !! self = Some L ->
  (DEBUG < level L -> debug self msg args kwargs w = (Ok tt, w)) /\
  (INFO < level L -> info self msg args kwargs w = (Ok tt, w)) /\
  (WARNING < level L -> warning self msg args kwargs w = (Ok tt, w)) /\
  (ERROR < level L -> error self msg args kwargs w = (Ok tt, w)) /\
  (FATAL < level L -> fatal self msg args kwargs w = (Ok tt, w)) /\
  (EXCEPTION < level L -> exception self msg args kwargs w = (Ok tt, w)).
Proof.
  intros HL.
  repeat split; intros Hlt;
    unfold debug, info, warning, error, fatal, exception;
    rewrite (bind_ok _ _ _ _ _ (get_logger_ok _ _ _ HL));
    match goal with
    | |- (if ?a <=? ?b then _ else _) _ = _ => destruct (Z.leb_spec a b); [lia | reflexivity]
    end.
Qed.

(** C10: [critical] does what [fatal] does, on every logger and for all
    arguments: both pass the gate [level <= FATAL], and both log the entry
    at level [FATAL]. *)
Theorem critical_is_fatal w self L msg args kwargs :
  loggers w !! self = Some L ->
  critical self msg args kwargs w = fatal self msg args kwargs w /\
  (level L <= FATAL ->
     critical self msg args kwargs w = __log self FATAL msg args kwargs w /\
     fatal self msg args kwargs w = __log self FATAL msg args kwargs w) /\
  (FATAL < level L ->
     critical self msg args kwargs w = (Ok tt, w) /\
     fatal self msg args kwargs w = (Ok tt, w)).
Proof.
  intros HL. split; [reflexivity |].
  unfold critical, fatal.
  rewrite (bind_ok _ _ _ _ _ (get_logger_ok _ _ _ HL)).
  destruct (Z.leb_spec (level L) FATAL); split; intros; (lia || (split; reflexivity)).
Qed.

(** What [__log] does once the message is formatted, on a logger that is
    not stopped. *)
Lemma log_unfold w self L level0 msg args kwargs msg' :
  loggers w !! self = Some L ->
  stopped L = false ->
  formatted msg args = Some msg' ->
  __log self level0 msg args kwargs w =
    if negb (useThreads (cls w)) || bool_decide (__thrLogger L = None) then
      if sameMsgCountMax (cls w) >? 0
      then __logEntry self (mkEntry (clock w) (domain L) level0 msg' kwargs) w
      else _logMessage self None (Some (mkEntry (clock w) (domain L) level0 msg' kwargs)) 0 w
    else
      (Ok tt, upd_events (alter (fun _ => true) (evtQueue (common L)))
                (upd_queues (alter (fun q => q ++ [Some (mkEntry (clock w) (domain L) level0 msg' kwargs)])
                                   (queue (common L))) w)).
Proof.
  intros HL Hs Hf. unfold __log.
  rewrite (bind_ok _ _ _ _ _ (get_logger_ok _ _ _ HL)), Hs.
  assert (Hm : (match args with [] => mret msg | _ => unwrap TypeError (percent msg args) end) w
               = (Ok msg', w)).
  { destruct args; simpl in Hf; [by inversion Hf | by rewrite Hf]. }
  rewrite (bind_ok _ _ _ _ _ Hm).
  rewrite bind_class_attr.
  destruct (negb (useThreads (cls w)) || bool_decide (__thrLogger L = None)).
  - unfold time_time. rewrite bind_class_attr, bind_gets.
    destruct (sameMsgCountMax (cls w) >? 0); reflexivity.
  - reflexivity.
Qed.


(** ** Construction (C1) *)

(** A primitive whose definition shows what it raises. *)
Ltac prim_raises :=
  let w := fresh "w" in
  let e := fresh "e" in
  intros w e;
  cbv [new_queue new_event open_append get_file get_logger get_thread thread_start
       timer_start os_replace os_remove write_new console_start network_import
       queue_popleft event_is_set os_listdir read_file unwrap modify raise mret M_ret];
  repeat case_match; simpl; try discriminate;
  intros [= <-]; try done.

Ltac mon_raises := repeat (first [ solve [eauto 3 with mon] | mon_step | solve [prim_raises] ]).

Lemma find_shared_raises (P : exn -> Prop) p values :
  P AttributeError -> P BadRef -> raises_only P (find_shared p values).
Proof.
  intros HA HB. induction values as [| v rest IH]; simpl; mon_raises.
Qed.

Lemma file_tell_raises (P : exn -> Prop) h :
  P BadRef -> P (ValueError "I/O operation on closed file.") -> raises_only P (file_tell h).
Proof. intros HB HV. unfold file_tell. mon_raises. Qed.

(** C1, as the code has it: the constructor fails with the configuration
    error exactly when [maxSize] or [backupCnt] is negative or [maxSize] is
    positive with [backupCnt] zero, and it then leaves the state
    untouched; for every other combination it raises no configuration
    error. *)
Theorem Logger_init_config_error domain0 level0 pathName0 maxSize0 backupCnt0 console0
    server0 connect0 w :
  ((Logger_init domain0 level0 pathName0 maxSize0 backupCnt0 console0 server0 connect0 w).1
     = Raise config_error <-> code_invalid maxSize0 backupCnt0) /\
  (code_invalid maxSize0 backupCnt0 ->
     Logger_init domain0 level0 pathName0 maxSize0 backupCnt0 console0 server0 connect0 w
       = (Raise config_error, w)).
Proof.
  assert (Hg : ((maxSize0 <? 0) || (backupCnt0 <? 0) || (maxSize0 >? 0) && (backupCnt0 =? 0)) = true
               <-> code_invalid maxSize0 backupCnt0).
  { unfold code_invalid. rewrite !orb_true_iff, andb_true_iff.
    rewrite !Z.ltb_lt, Z.gtb_lt, Z.eqb_eq. lia. }
  unfold Logger_init.
  destruct ((maxSize0 <? 0) || (backupCnt0 <? 0) || (maxSize0 >? 0) && (backupCnt0 =? 0)) eqn:G.
  - split; [split; [intros _; apply Hg; reflexivity | reflexivity] | reflexivity].
  - assert (Hn : ~ code_invalid maxSize0 backupCnt0) by (rewrite <- Hg; discriminate).
    split; [split |]; [| tauto | tauto].
    intros Hr. exfalso. revert Hr.
    match goal with |- (?m w).1 = _ -> _ =>
      assert (Hro : raises_only (fun e => e <> config_error) m)
    end.
    { mon_raises.
      - apply find_shared_raises; done.
      - apply file_tell_raises; done. }
    intros Hr. exact (Hro w _ Hr eq_refl).
Qed.

(** ** What message processing keeps *)

(** [flush(); close()] and what follows. *)
Lemma flush_close_then {A} I `{!PrimInv I} h (k : M A) :
  preserves I k -> preserves I (file_flush h;; file_close h;; k).
Proof.
  intros Hk w Hw. pose proof (pi_flush_close h w Hw) as H. revert H. rewrite !bind_eq.
  destruct (file_flush h w) as [[[]| e|] w1]; simpl; try (intros H; exact H).
  rewrite bind_eq. destruct (file_close h w1) as [[[]| e|] w2]; simpl; try (intros H; exact H).
  apply Hk.
Qed.

Ltac benign_tac :=
  let L := fresh "L" in
  intros L; try (destruct (client L)); cbn; repeat split; auto.

Ltac pres_step :=
  lazymatch goal with
  | |- preserves _ (file_flush ?h ≫= λ _, file_close ?h ≫= λ _, _) => apply flush_close_then
  | |- preserves _ (upd_logger _ _) => apply preserves_modify; intros ? ?; apply pi_loggers;
                                        [solve [benign_tac] | assumption]
  | |- _ => mon_step
  end.

Ltac mon_pres := repeat (first [ solve [eauto 6 with mon] | pres_step ]).

Section Primitives.
Context (I : World -> Prop) `{!PrimInv I}.

Lemma backlog_append_pres x : preserves I (backlog_append x).
Proof. apply preserves_modify. intros w Hw. apply pi_cls, Hw. Qed.

Lemma print_out_pres s : preserves I (print_out s).
Proof. apply preserves_modify. intros w Hw. apply pi_stdout, Hw. Qed.

Lemma print_err_pres s : preserves I (print_err s).
Proof. apply preserves_modify. intros w Hw. apply pi_stderr, Hw. Qed.

Lemma set_cls_pres g : preserves I (modify (upd_cls g)).
Proof. apply preserves_modify. intros w Hw. apply pi_cls, Hw. Qed.

Lemma set_sink_pres g : preserves I (modify (upd_sink g)).
Proof. apply preserves_modify. intros w Hw. apply pi_sink, Hw. Qed.

Lemma set_timers_pres g : preserves I (modify (upd_timers g)).
Proof. apply preserves_modify. intros w Hw. apply pi_timers, Hw. Qed.

Lemma event_set_pres e : preserves I (event_set e).
Proof. apply preserves_modify. intros w Hw. apply pi_event_set, Hw. Qed.

Lemma timer_start_pres q self k e c : preserves I (timer_start q self k e c).
Proof. intros w Hw. apply pi_timers, Hw. Qed.

Lemma timer_cancel_pres t : preserves I (timer_cancel t).
Proof. apply set_timers_pres. Qed.

Lemma os_replace_pres a b : preserves I (os_replace a b).
Proof. intros w Hw. unfold os_replace. case_match; [apply pi_fsys|]; exact Hw. Qed.

Lemma os_remove_pres a : preserves I (os_remove a).
Proof. intros w Hw. unfold os_remove. case_match; [apply pi_fsys|]; exact Hw. Qed.

Lemma write_new_pres a d : preserves I (write_new a d).
Proof. intros w Hw. unfold write_new. case_match; [apply pi_fsys|]; exact Hw. Qed.

Lemma os_listdir_pres a : preserves I (os_listdir a).
Proof. apply preserves_read. Qed.

Lemma read_file_pres a : preserves I (read_file a).
Proof. apply preserves_read. Qed.

Lemma get_logger_pres l : preserves I (get_logger l).
Proof. apply preserves_read. Qed.

Lemma get_file_pres h : preserves I (get_file h).
Proof. apply preserves_read. Qed.

Lemma event_is_set_pres e : preserves I (event_is_set e).
Proof. apply preserves_read. Qed.

Lemma get_thread_pres t : preserves I (get_thread t).
Proof. apply preserves_read. Qed.

Lemma class_attr_pres {A} (f : LoggerClass -> A) : preserves I (class_attr f).
Proof. apply preserves_gets. Qed.

Lemma time_time_pres : preserves I time_time.
Proof. apply preserves_gets. Qed.

Hint Resolve backlog_append_pres print_out_pres print_err_pres set_cls_pres set_sink_pres
  set_timers_pres event_set_pres timer_start_pres timer_cancel_pres os_replace_pres
  os_remove_pres write_new_pres os_listdir_pres read_file_pres get_logger_pres
  get_file_pres event_is_set_pres get_thread_pres class_attr_pres time_time_pres
  pi_file_write pi_open_append : mon.

Lemma report_error_pres e : preserves I (report_error e).
Proof. unfold report_error. mon_pres. Qed.

Lemma writePending_pres self : preserves I (__writePending self).
Proof. unfold __writePending. mon_pres. Qed.

Lemma shift_loop_pres d n z names cnts : preserves I (shift_loop d n z names cnts).
Proof. induction cnts as [| c rest IH]; simpl; mon_pres. Qed.

Lemma shift_backups_pres d n z names b : preserves I (shift_backups d n z names b).
Proof. unfold shift_backups. mon_pres. apply shift_loop_pres. Qed.

Hint Resolve report_error_pres writePending_pres shift_backups_pres : mon.

(** Rotation keeps what the change of file keeps. *)
Lemma rotate_generic x :
  (forall h w, I w -> I (upd_loggers (alter (set_F (Some h)) x) w)) ->
  preserves I (__rotate x).
Proof.
  intros HF. unfold __rotate. mon_pres.
  all: apply preserves_modify; intros w Hw; apply HF, Hw.
Qed.

End Primitives.

#[local] Hint Resolve chain_prim entry_chain thread_entry full_thread : mon.

#[local] Hint Resolve backlog_append_pres print_out_pres print_err_pres set_cls_pres
  set_sink_pres set_timers_pres event_set_pres timer_start_pres timer_cancel_pres
  os_replace_pres os_remove_pres write_new_pres os_listdir_pres read_file_pres
  get_logger_pres get_file_pres event_is_set_pres get_thread_pres class_attr_pres
  time_time_pres pi_file_write pi_open_append report_error_pres writePending_pres
  shift_backups_pres chain_rotate : mon.

Section Chain.
Context (I : World -> Prop) `{!ChainInv I}.

Lemma buffer_message_pres self message : preserves I (buffer_message self message).
Proof. unfold buffer_message. mon_pres. Qed.

Lemma console_message_pres lv kw message : preserves I (console_message lv kw message).
Proof. unfold console_message. mon_pres. Qed.

Hint Resolve buffer_message_pres console_message_pres : mon.

Lemma default_format_pres d e : preserves I (default_format d e).
Proof. unfold default_format. mon_pres. Qed.

Hint Resolve default_format_pres : mon.

Lemma logMessage_pres self k e c : preserves I (_logMessage self k e c).
Proof. unfold _logMessage. mon_pres. Qed.

Hint Resolve logMessage_pres : mon.

Lemma timer_fire_pres t : preserves I (timer_fire t).
Proof. unfold timer_fire. mon_pres. Qed.

End Chain.

#[local] Hint Resolve buffer_message_pres console_message_pres default_format_pres
  logMessage_pres timer_fire_pres : mon.

(** ** What every call on a logger and every step keeps *)

Section Entry.
Context (I : World -> Prop) `{!EntryInv I}.

Lemma set_timer_pres l t : preserves I (upd_logger l (set___thrTimer (Some t))).
Proof. apply preserves_modify. intros w Hw. apply ei_set_timer, Hw. Qed.

Hint Resolve set_timer_pres : mon.

Lemma logEntry_pres self e : preserves I (__logEntry self e).
Proof. unfold __logEntry. mon_pres. Qed.

Hint Resolve logEntry_pres : mon.

(** What the writer does with an entry, and what it does when it wakes. *)
Lemma process_entry_pres self e smax :
  preserves I (try_except (if smax >? 0 then __logEntry self e
                           else _logMessage self None (Some e) 0) report_error).
Proof. mon_pres. Qed.

End Entry.

#[local] Hint Resolve set_timer_pres logEntry_pres : mon.

Section Thread.
Context (I : World -> Prop) `{!ThreadInv I}.

Lemma queue_append_pres q x : preserves I (queue_append q x).
Proof. apply preserves_modify. intros w Hw. apply fi_queues, Hw. Qed.

Lemma queue_clear_pres q : preserves I (queue_clear q).
Proof. apply preserves_modify. intros w Hw. apply fi_queues, Hw. Qed.

Lemma queue_popleft_pres q : preserves I (queue_popleft q).
Proof. intros w Hw. unfold queue_popleft. repeat case_match; simpl; try apply fi_queues; exact Hw. Qed.

Lemma event_clear_pres e : preserves I (event_clear e).
Proof. apply preserves_modify. intros w Hw. apply fi_events, Hw. Qed.

Lemma set_thread_state_pres t s : preserves I (set_thread_state t s).
Proof. apply preserves_modify. intros w Hw. apply fi_threads, Hw. Qed.

Hint Resolve queue_append_pres queue_clear_pres queue_popleft_pres event_clear_pres
  set_thread_state_pres : mon.

Lemma log_pres self lv msg args kw : preserves I (__log self lv msg args kw).
Proof. unfold __log. mon_pres. Qed.

Hint Resolve log_pres : mon.

Lemma level_methods_pres self msg args kw :
  preserves I (debug self msg args kw) /\ preserves I (info self msg args kw) /\
  preserves I (warning self msg args kw) /\ preserves I (error self msg args kw) /\
  preserves I (fatal self msg args kw) /\ preserves I (critical self msg args kw) /\
  preserves I (exception self msg args kw).
Proof.
  unfold debug, info, warning, error, fatal, critical, exception. repeat split; mon_pres.
Qed.

Lemma setLevel_pres self lv : preserves I (setLevel self lv).
Proof. unfold setLevel. mon_pres. Qed.

Lemma setBacklog_pres n : preserves I (setBacklog n).
Proof. unfold setBacklog. mon_pres. Qed.

Lemma configure_pres df mk fm wr tmo smax : preserves I (configure df mk fm wr tmo smax).
Proof. unfold configure. mon_pres. Qed.

Lemma rotate_pres self : preserves I (rotate self).
Proof. unfold rotate. mon_pres. Qed.

Lemma stop_pres self now : preserves I (stop self now).
Proof. unfold stop. mon_pres. Qed.

Lemma logThread_pass_pres self : preserves I (logThread_pass self).
Proof. unfold logThread_pass. mon_pres. Qed.

Lemma logThread_wake_pres self : preserves I (logThread_wake self).
Proof. unfold logThread_wake. mon_pres. Qed.

Hint Resolve stop_pres logThread_pass_pres logThread_wake_pres : mon.

Lemma thread_ready_pres t : preserves I (thread_ready t).
Proof. unfold thread_ready. mon_pres. Qed.

Hint Resolve thread_ready_pres : mon.

Lemma thread_step_pres t : preserves I (thread_step t).
Proof. unfold thread_step. mon_pres. Qed.

Lemma thread_ended_pres t : preserves I (thread_ended t).
Proof. unfold thread_ended. mon_pres. Qed.

Hint Resolve thread_step_pres thread_ended_pres : mon.

Lemma thread_run_pres fuel t : preserves I (thread_run fuel t).
Proof. induction fuel as [| n IH]; simpl; mon_pres. Qed.

Hint Resolve thread_run_pres : mon.

Lemma thread_join_pres t : preserves I (thread_join t).
Proof. unfold thread_join. mon_pres. Qed.

Hint Resolve thread_join_pres : mon.

Lemma console_join_pres q : preserves I (console_join q).
Proof. induction q as [| x q IH]; simpl; mon_pres. Qed.

End Thread.

#[local] Hint Resolve queue_append_pres queue_clear_pres queue_popleft_pres event_clear_pres
  set_thread_state_pres log_pres setLevel_pres setBacklog_pres configure_pres stop_pres
  logThread_pass_pres logThread_wake_pres thread_ready_pres thread_step_pres
  thread_ended_pres thread_run_pres thread_join_pres console_join_pres rotate_pres : mon.

Section Full.
Context (I : World -> Prop) `{!FullInv I}.

Lemma level_methods_full self msg args kw :
  preserves I (debug self msg args kw) /\ preserves I (info self msg args kw) /\
  preserves I (warning self msg args kw) /\ preserves I (error self msg args kw) /\
  preserves I (fatal self msg args kw) /\ preserves I (critical self msg args kw) /\
  preserves I (exception self msg args kw).
Proof. apply level_methods_pres. apply full_thread. Qed.

Lemma domains_del_pres k : preserves I (domains_del k).
Proof.
  unfold domains_del. mon_pres. apply preserves_modify. intros w Hw. apply fi_domains_remove, Hw.
Qed.

Lemma clear_thread_pres l : preserves I (upd_logger l (set___thrLogger None)).
Proof. apply preserves_modify. intros w Hw. apply fi_clear_thread, Hw. Qed.

Hint Resolve domains_del_pres clear_thread_pres : mon.

Lemma join_pres self : preserves I (join self).
Proof. unfold join. mon_pres. Qed.

Hint Resolve join_pres : mon.

Lemma shutdown_pres self now : preserves I (shutdown self now).
Proof. unfold shutdown. mon_pres. Qed.

Hint Resolve shutdown_pres : mon.

Lemma for_each_pres {A} (xs : list A) body :
  (forall x, preserves I (body x)) -> preserves I (for_each xs body).
Proof. intros Hb. induction xs as [| x xs IH]; simpl; mon_pres. Qed.

Lemma Shutdown_pres now : preserves I (Shutdown now).
Proof. unfold Shutdown. mon_pres. apply for_each_pres. intros v. mon_pres. Qed.

Lemma Rotate_loop_pres values signaled : preserves I (Rotate_loop values signaled).
Proof. revert signaled. induction values as [| v rest IH]; intros signaled; simpl; mon_pres. Qed.

Lemma Rotate_pres : preserves I Rotate.
Proof. unfold Rotate. mon_pres. apply Rotate_loop_pres. Qed.

End Full.

(** ** The invariants at hand *)

(** An invariant that does not look at the file objects. *)
Lemma PrimInv_no_files (I : World -> Prop) :
  (forall l f w, benign f -> I w -> I (upd_loggers (alter f l) w)) ->
  (forall g w, I w -> I (upd_cls g w)) ->
  (forall g w, I w -> I (upd_fsys g w)) ->
  (forall g w, I w -> I (upd_stdout g w)) ->
  (forall g w, I w -> I (upd_stderr g w)) ->
  (forall g w, I w -> I (upd_sink g w)) ->
  (forall g w, I w -> I (upd_timers g w)) ->
  (forall e w, I w -> I (upd_events (alter (fun _ => true) e) w)) ->
  (forall g w, I w -> I (upd_files g w)) ->
  PrimInv I.
Proof.
  intros Hl Hc Hfs Ho He Hs Ht Hev Hf.
  assert (Hwr : forall h d, preserves I (file_write h d)).
  { intros h d. unfold file_write. mon_step; [apply preserves_read | mon_step; [mon |]].
    apply preserves_modify. intros w Hw. apply Hf, Hw. }
  assert (Hfl : forall h, preserves I (file_flush h)).
  { intros h. unfold file_flush. mon_step; [apply preserves_read | mon_step; [mon |]].
    apply preserves_modify. intros w Hw. apply Hf, Hfs, Hw. }
  assert (Hcl : forall h, preserves I (file_close h)).
  { intros h. unfold file_close. mon_step; [apply preserves_read |].
    apply preserves_modify. intros w Hw. apply Hf. destruct (fo_closed a); [| apply Hfs]; exact Hw. }
  constructor; try assumption.
  - intros h. mon_step; [apply Hfl | apply Hcl].
  - intros p w Hw. unfold open_append. case_match; [case_match; simpl; apply Hf, Hfs |]; exact Hw.
Qed.

(** A property of one logger, kept by benign updates and by a change of
    file. *)
Lemma has_prop_alter l P x f w :
  (forall L, P L -> P (f L)) -> has_prop l P w -> has_prop l P (upd_loggers (alter f x) w).
Proof.
  intros Hf (L & HL & HP). unfold has_prop. simpl.
  destruct (decide (x = l)) as [-> | Hne].
  - exists (f L). rewrite lookup_alter_eq, HL. split; [reflexivity | apply Hf, HP].
  - exists L. rewrite lookup_alter_ne by exact Hne. split; assumption.
Qed.

Lemma has_prop_alter_ne l P x f w :
  x <> l -> has_prop l P w -> has_prop l P (upd_loggers (alter f x) w).
Proof.
  intros Hne (L & HL & HP). exists L. simpl. rewrite lookup_alter_ne by exact Hne.
  split; assumption.
Qed.

Lemma has_prop_PrimInv l P : chain_closed P -> PrimInv (has_prop l P).
Proof.
  intros HP. apply PrimInv_no_files; try (intros; assumption).
  intros x f w Hf. apply has_prop_alter. intros L. destruct (Hf L) as (? & ? & ? & ? & ? & ?).
  apply HP; assumption.
Qed.

Lemma has_prop_ChainInv l P :
  chain_closed P -> (forall L h, P L -> P (set_F (Some h) L)) -> ChainInv (has_prop l P).
Proof.
  intros HP HF. pose proof (has_prop_PrimInv l P HP).
  constructor; [assumption |].
  intros x. apply rotate_generic; [assumption |].
  intros h w. apply has_prop_alter. intros L. apply HF.
Qed.

(** A logger without a file has none after a rotation: its own rotation
    stops at [self.F.flush()]. *)
Lemma rotate_no_file l P x :
  chain_closed P -> (forall L, P L -> F L = None) -> preserves (has_prop l P) (__rotate x).
Proof.
  intros HP HF. pose proof (has_prop_PrimInv l P HP) as HI.
  destruct (decide (x = l)) as [-> | Hne].
  - intros w Hw. unfold __rotate. rewrite bind_eq.
    pose proof (writePending_pres _ l w Hw) as H1.
    destruct (__writePending l w) as [[[]| e|] w1]; simpl in *; try exact H1.
    destruct H1 as (L1 & HL1 & HP1).
    rewrite (bind_ok _ _ _ _ _ (get_logger_ok _ _ _ HL1)).
    rewrite (HF _ HP1). simpl. exists L1. split; assumption.
  - apply rotate_generic; [assumption |].
    intros h w. apply has_prop_alter_ne, Hne.
Qed.

Lemma same_path_closed L0 : full_closed (same_path L0).
Proof.
  intros L L' Hp HF [H1 H2]. split; [congruence |].
  intros H0. destruct HF as [-> | ->]; auto.
Qed.

Lemma full_chain_closed P : full_closed P -> chain_closed P.
Proof. intros H L L' ? ? ? ? ? ? . apply H; assumption. Qed.

Lemma same_path_FullInv l L0 : FullInv (has_prop l (same_path L0)).
Proof.
  pose proof (full_chain_closed _ (same_path_closed L0)) as Hc.
  assert (ChainInv (has_prop l (same_path L0))) as HC.
  { destruct (F L0) eqn:E0.
    - apply has_prop_ChainInv; [exact Hc |].
      intros L h [H1 H2]. split; [exact H1 | rewrite E0; discriminate].
    - constructor; [apply has_prop_PrimInv, Hc |].
      intros x. apply rotate_no_file; [exact Hc |].
      intros L [_ H2]. apply H2, E0. }
  assert (EntryInv (has_prop l (same_path L0))) as HE.
  { constructor; [exact HC |].
    intros x t w. apply has_prop_alter. intros L [H1 H2]. split; assumption. }
  assert (ThreadInv (has_prop l (same_path L0))) as HT.
  { constructor; try exact HE; intros; assumption. }
  constructor; try exact HT; try (intros; assumption).
  intros x w. apply has_prop_alter. intros L [H1 H2]. split; assumption.
Qed.

Lemma dict_get_remove {V} d k (ds : list (string * V)) :
  dict_get d (dict_remove k ds) = if String.eqb d k then None else dict_get d ds.
Proof.
  unfold dict_get, dict_remove. induction ds as [| [k' v] ds IH]; simpl.
  - destruct (String.eqb d k); reflexivity.
  - rewrite filter_cons. simpl.
    destruct (String.eqb_spec k' k) as [-> | Hne]; simpl.
    + rewrite IH.
      destruct (String.eqb_spec d k) as [-> | Hne]; [reflexivity |].
      destruct (String.eqb_spec k d) as [-> | _]; [congruence | reflexivity].
    + destruct (String.eqb_spec k' d) as [-> | Hne'].
      * destruct (String.eqb_spec d k); [congruence | reflexivity].
      * exact IH.
Qed.

Lemma dom_sub_FullInv w0 : FullInv (dom_sub w0).
Proof.
  assert (PrimInv (dom_sub w0)) by (apply PrimInv_no_files; intros; assumption).
  assert (ChainInv (dom_sub w0)).
  { constructor; [assumption |]. intros x. apply rotate_generic; [assumption |].
    intros; assumption. }
  assert (EntryInv (dom_sub w0)) by (constructor; [assumption | intros; assumption]).
  assert (ThreadInv (dom_sub w0)) by (constructor; try assumption; intros; assumption).
  constructor; try assumption; try (intros; assumption).
  intros k w Hw d l. simpl. rewrite dict_get_remove.
  destruct (String.eqb d k); [discriminate | apply Hw].
Qed.

Lemma CloseInv_PrimInv : PrimInv CloseInv.
Proof.
  constructor; try (intros; assumption).
  - intros h d w Hw. unfold file_write, get_file. rewrite bind_eq.
    destruct (files w !! h) as [f |] eqn:E; simpl; [| exact Hw].
    destruct (fo_closed f) eqn:Ec; simpl; [exact Hw |].
    apply map_Forall_insert_2; [| exact Hw]. simpl.
    specialize (Hw h f E). simpl in Hw. rewrite Ec in Hw. exact Hw.
  - intros h w Hw. unfold file_flush at 1, get_file. rewrite !bind_eq.
    destruct (files w !! h) as [f |] eqn:E; simpl; [| exact Hw].
    destruct (fo_closed f) eqn:Ec; simpl; [exact Hw |].
    unfold file_close, get_file. rewrite !bind_eq. simpl.
    rewrite lookup_insert_eq. simpl.
    unfold CloseInv. simpl. rewrite insert_insert_eq.
    apply map_Forall_insert_2; [| exact Hw]. simpl.
    specialize (Hw h f E). simpl in Hw. rewrite Ec in Hw. rewrite Hw. reflexivity.
  - intros p w Hw. unfold open_append. repeat case_match; simpl; [| exact Hw].
    apply map_Forall_insert_2; [reflexivity | exact Hw].
Qed.

Lemma CloseInv_FullInv : FullInv CloseInv.
Proof.
  pose proof CloseInv_PrimInv.
  assert (ChainInv CloseInv).
  { constructor; [assumption |]. intros x. apply rotate_generic; [assumption |].
    intros; assumption. }
  assert (EntryInv CloseInv) by (constructor; [assumption | intros; assumption]).
  assert (ThreadInv CloseInv) by (constructor; try assumption; intros; assumption).
  constructor; try assumption; intros; assumption.
Qed.

Lemma CloseInv_closed_once w : CloseInv w -> closed_once w.
Proof.
  intros H h f Hf. specialize (H h f Hf). simpl in *. destruct (fo_closed f); lia.
Qed.

(** ** Construction and registration (C6) *)

Section Hoare.
Context {A B : Type}.

Lemma hoare_bind P (m : M A) (f : A -> M B) Q R E :
  hoare P m Q E -> (forall a, hoare (Q a) (f a) R E) -> hoare P (m ≫= f) R E.
Proof.
  intros Hm Hf w Hw. specialize (Hm w Hw). rewrite bind_eq.
  destruct (m w) as [[a| e|] w1]; simpl in *; [apply Hf |..]; assumption.
Qed.

Lemma hoare_ret (P : World -> Prop) (a : A) (Q : A -> World -> Prop) E :
  (forall w, P w -> Q a w) -> hoare P (mret a) Q E.
Proof. intros H w Hw. apply H, Hw. Qed.

Lemma hoare_raise (P : World -> Prop) e (Q : A -> World -> Prop) (E : World -> Prop) :
  (forall w, P w -> E w) -> hoare P (raise e) Q E.
Proof. intros H w Hw. apply H, Hw. Qed.

Lemma hoare_frame P (m : M A) : preserves P m -> hoare P m (fun _ => P) P.
Proof. intros H w Hw. specialize (H w Hw). destruct (m w).1; exact H. Qed.

Lemma hoare_pure (phi : Prop) P (m : M A) Q E :
  (phi -> hoare P m Q E) -> hoare (fun w => P w /\ phi) m Q E.
Proof. intros H w [Hw Hphi]. apply H; assumption. Qed.

Lemma hoare_gets_bind P (f : World -> A) c (k : A -> M B) Q E :
  (forall w, P w -> f w = c) -> hoare P (k c) Q E -> hoare P (gets f ≫= k) Q E.
Proof. intros Hf Hk w Hw. rewrite bind_gets, (Hf w Hw). apply Hk, Hw. Qed.

Lemma hoare_post P (m : M A) (Q Q' : A -> World -> Prop) E :
  hoare P m Q E -> (forall a w, Q a w -> Q' a w) -> hoare P m Q' E.
Proof.
  intros H HQ w Hw. specialize (H w Hw). destruct (m w).1; [apply HQ |..]; exact H.
Qed.

End Hoare.

(** Steps that leave the registry and the loggers alone. *)
Ltac frame_prim :=
  let w := fresh "w" in
  let Hw := fresh "Hw" in
  intros w Hw;
  cbv [new_queue new_event open_append get_file thread_start console_start
       network_import unwrap modify raise mret M_ret];
  repeat case_match; simpl; exact Hw.

Lemma file_tell_frame d0 lg0 h : preserves (frame_reg d0 lg0) (file_tell h).
Proof. unfold file_tell. mon. Qed.

(** The loop over the registry reads the state only; it ends without
    [break] when no value has the path, and with the configuration of a
    logger that has it otherwise. *)
Lemma find_shared_result p values w :
  (find_shared p values w).2 = w /\
  match (find_shared p values w).1 with
  | Ok None => forall l, Some l ∈ values ->
                 exists L, loggers w !! l = Some L /\ pathName L <> Some p
  | Ok (Some c) => exists l L, Some l ∈ values /\ loggers w !! l = Some L /\
                     pathName L = Some p /\ queue c = queue (common L) /\
                     evtQueue c = evtQueue (common L) /\ evtRotate c = evtRotate (common L)
  | _ => True
  end.
Proof.
  induction values as [| v rest IH].
  - split; [reflexivity |]. intros l Hl. inversion Hl.
  - destruct v as [l0 |]; simpl; [| split; reflexivity].
    rewrite bind_eq. cbn [mret M_ret]. rewrite bind_eq. unfold get_logger.
    destruct (loggers w !! l0) as [L |] eqn:E0; simpl; [| split; reflexivity].
    case_bool_decide as Hp; simpl.
    + split; [reflexivity |]. exists l0, L. repeat split; auto. apply list_elem_of_here.
    + destruct IH as [IH1 IH2]. split; [exact IH1 |].
      destruct (find_shared p rest w).1 as [[c |] | e |]; try exact I.
      * destruct IH2 as (l & L' & Hin & H). exists l, L'. split; [| exact H].
        apply list_elem_of_further, Hin.
      * intros l Hin. apply elem_of_cons in Hin as [[= ->] | Hin].
        -- exists L. split; [exact E0 | congruence].
        -- apply IH2, Hin.
Qed.

Lemma find_shared_spec d0 lg0 p values :
  hoare (frame_reg d0 lg0) (find_shared p values)
        (fun r w => frame_reg d0 lg0 w /\
                    (r = None -> forall l, Some l ∈ values ->
                                 exists L, lg0 !! l = Some L /\ pathName L <> Some p))
        (frame_reg d0 lg0).
Proof.
  intros w Hw. destruct (find_shared_result p values w) as [H1 H2]. rewrite H1.
  destruct (find_shared p values w).1 as [[c |] | e |]; try exact Hw.
  - split; [exact Hw | discriminate].
  - split; [exact Hw |]. intros _. destruct Hw as [_ <-]. exact H2.
Qed.

Ltac frame_step :=
  eapply hoare_bind; [apply hoare_frame; first [solve [frame_prim] | solve [mon]] | intros ?].

Lemma Logger_init_spec d0 lg0 domain0 level0 pathName0 maxSize0 backupCnt0 console0
    server0 connect0 :
  hoare (frame_reg d0 lg0)
        (Logger_init domain0 level0 pathName0 maxSize0 backupCnt0 console0 server0 connect0)
        (init_post d0 lg0 pathName0) (frame_reg d0 lg0).
Proof.
  unfold Logger_init.
  destruct ((maxSize0 <? 0) || (backupCnt0 <? 0) || (maxSize0 >? 0) && (backupCnt0 =? 0)).
  { apply hoare_raise. auto. }
  eapply hoare_gets_bind with (c := fresh (dom lg0)).
  { intros w [_ ->]. reflexivity. }
  do 3 frame_step. cbv zeta.
  eapply hoare_bind; [apply hoare_frame; destruct pathName0; mon | intros isd].
  eapply hoare_bind; [apply hoare_frame; mon | intros ut].
  match goal with |- hoare _ (mbind _ ?m) _ _ =>
    eapply hoare_bind with
      (Q := fun L1 w => frame_reg d0 lg0 w /\
              (pathName L1 = pathName0 /\
               (F L1 <> None -> forall l', Some l' ∈ map snd d0 ->
                                exists L', lg0 !! l' = Some L' /\ pathName L' <> pathName0)))
  end.
  { destruct isd; [destruct pathName0 as [p |] |].
    - eapply hoare_gets_bind with (c := map snd d0).
      { intros w [Hd _]. rewrite Hd. reflexivity. }
      eapply hoare_bind; [apply find_shared_spec | intros shared].
      apply hoare_pure. intros Hsh. destruct shared as [c |].
      + apply hoare_ret. intros w Hw. split; [exact Hw |]. split; [reflexivity |].
        intros HF. exfalso. apply HF. reflexivity.
      + frame_step. frame_step.
        eapply hoare_bind; [apply hoare_frame, file_tell_frame | intros pos0].
        eapply hoare_bind; [apply hoare_frame; destruct ut; [| mon] | intros thr].
        { mon_step; [frame_prim | mon]. }
        apply hoare_ret. intros w Hw. split; [exact Hw |]. split; [reflexivity |].
        intros _. apply Hsh. reflexivity.
    - apply hoare_ret. intros w Hw. split; [exact Hw |]. split; [reflexivity |].
      intros HF. exfalso. apply HF. reflexivity.
    - apply hoare_ret. intros w Hw. split; [exact Hw |]. split; [reflexivity |].
      intros HF. exfalso. apply HF. reflexivity. }
  intros L1. apply hoare_pure. intros [Hp HF].
  eapply hoare_bind; [apply hoare_frame; mon | intros con].
  eapply hoare_bind;
    [apply hoare_frame; destruct ut; [destruct con |]; first [solve [frame_prim] | mon]
    | intros ?].
  eapply hoare_bind; [apply hoare_frame; destruct server0; [| mon] | intros srv].
  { mon_step; [frame_prim | mon]. }
  eapply hoare_bind; [apply hoare_frame; destruct connect0; [| mon] | intros cli].
  { mon_step; [frame_prim | mon]. }
  intros w [Hd Hl]. simpl. split; [exact Hd |]. split.
  { apply not_elem_of_dom, is_fresh. }
  eexists. split; [simpl; rewrite Hl; reflexivity |]. simpl. split; [exact Hp | exact HF].
Qed.

Lemma keeps_refl w : keeps w w.
Proof.
  split; [intros d l H; exact H |].
  intros l L0 HL. exists L0. split; [exact HL |]. split; auto.
Qed.

Lemma keeper_keeps {A} (m : M A) w : keeper m -> keeps w (m w).2.
Proof.
  intros Hk. split.
  - apply (Hk _ (dom_sub_FullInv w)). intros d l H. exact H.
  - intros l L0 HL. apply (Hk _ (same_path_FullInv l L0)).
    exists L0. split; [exact HL |]. split; auto.
Qed.

Lemma keeps_Inv w0 w : Inv w0 -> keeps w0 w -> Inv w.
Proof.
  intros [Hone Hsound] [Hsub Hlog]. split.
  - intros l1 l2 L1 L2 Hne [[d1 Hd1] HL1] [[d2 Hd2] HL2] Hp HF1 HF2.
    apply Hsub in Hd1, Hd2.
    destruct (Hsound _ _ Hd1) as [K1 HK1]. destruct (Hsound _ _ Hd2) as [K2 HK2].
    destruct (Hlog _ _ HK1) as (L1' & HL1' & Hp1 & HN1).
    destruct (Hlog _ _ HK2) as (L2' & HL2' & Hp2 & HN2).
    rewrite HL1 in HL1'. rewrite HL2 in HL2'. simplify_eq.
    apply (Hone l1 l2 K1 K2 Hne); try (split; [eexists |]; eassumption); try congruence.
    + intros H0. apply HF1, HN1, H0.
    + intros H0. apply HF2, HN2, H0.
  - intros d l Hd. apply Hsub in Hd. destruct (Hsound _ _ Hd) as [K HK].
    destruct (Hlog _ _ HK) as (L' & HL' & _). eexists. exact HL'.
Qed.

Lemma keeper_Inv {A} (m : M A) : keeper m -> preserves Inv m.
Proof. intros Hk w Hw. apply (keeps_Inv w); [exact Hw | apply keeper_keeps, Hk]. Qed.

Lemma Inv_frame w w' : frame_reg (domains w) (loggers w) w' -> Inv w -> Inv w'.
Proof.
  intros [Hd Hl] [Hone Hsound]. unfold Inv, one_file_per_path, registry_sound, registered.
  rewrite Hd, Hl. split; assumption.
Qed.

Lemma dict_has_get {V} k (ds : list (string * V)) :
  dict_has k ds = true <-> is_Some (dict_get k ds).
Proof.
  unfold dict_has, dict_get. induction ds as [| [k' v] ds IH]; simpl.
  - split; [discriminate | intros [x Hx]; discriminate].
  - destruct (String.eqb k' k); simpl; [| exact IH].
    split; [intros _; eexists; reflexivity | reflexivity].
Qed.

Lemma dict_get_replace {V} d k (v : V) (ds : list (string * V)) :
  dict_get d (map (fun kv => if String.eqb kv.1 k then (k, v) else kv) ds) =
  if String.eqb d k then (if dict_has k ds then Some v else None) else dict_get d ds.
Proof.
  unfold dict_get, dict_has. induction ds as [| [k' v'] ds IH]; simpl.
  - destruct (String.eqb d k); reflexivity.
  - destruct (String.eqb_spec k' k) as [-> | Hne]; simpl.
    + destruct (String.eqb_spec k d) as [-> | Hne]; simpl.
      * rewrite String.eqb_refl. reflexivity.
      * rewrite IH. destruct (String.eqb_spec d k); [congruence | reflexivity].
    + destruct (String.eqb_spec k' d) as [-> | Hne']; simpl.
      * destruct (String.eqb_spec d k); [congruence | reflexivity].
      * exact IH.
Qed.

Lemma dict_get_app {V} d (ds1 ds2 : list (string * V)) :
  dict_get d (ds1 ++ ds2) = match dict_get d ds1 with
                            | Some x => Some x
                            | None => dict_get d ds2
                            end.
Proof.
  unfold dict_get. induction ds1 as [| [k' v'] ds1 IH]; simpl; [reflexivity |].
  destruct (String.eqb k' d); simpl; [reflexivity | exact IH].
Qed.

Lemma dict_get_set {V} d k (v : V) (ds : list (string * V)) :
  dict_get d (dict_set k v ds) = if String.eqb d k then Some v else dict_get d ds.
Proof.
  unfold dict_set. destruct (dict_has k ds) eqn:Hh.
  - rewrite dict_get_replace, Hh. reflexivity.
  - rewrite dict_get_app.
    assert (Hn : dict_get k ds = None).
    { destruct (dict_get k ds) eqn:E; [| reflexivity].
      assert (dict_has k ds = true) by (apply dict_has_get; eauto). congruence. }
    destruct (String.eqb_spec d k) as [-> | Hne].
    + rewrite Hn. unfold dict_get. simpl. rewrite String.eqb_refl. reflexivity.
    + destruct (dict_get d ds); [reflexivity |]. unfold dict_get. simpl.
      destruct (String.eqb_spec k d); [congruence | reflexivity].
Qed.

Lemma dict_get_values {V} d (v : V) (ds : list (string * V)) :
  dict_get d ds = Some v -> v ∈ map snd ds.
Proof.
  unfold dict_get. induction ds as [| [k' v'] ds IH]; simpl; [discriminate |].
  destruct (String.eqb k' d); simpl.
  - intros [= ->]. apply list_elem_of_here.
  - intros H. apply list_elem_of_further, IH, H.
Qed.

(** Registering a new logger keeps the invariant. *)
Lemma Inv_register w1 w2 p l d :
  Inv w1 -> init_post (domains w1) (loggers w1) p l w2 ->
  Inv (upd_domains (dict_set d (Some l)) w2).
Proof.
  intros [Hone Hsound] (Hd & Hfresh & L & HL & Hp & HF).
  assert (Hreg : forall d' l', dict_get d' (dict_set d (Some l) (domains w2)) = Some (Some l') ->
                   l' = l \/ (l' <> l /\ dict_get d' (domains w1) = Some (Some l'))).
  { intros d' l'. rewrite dict_get_set, Hd. destruct (String.eqb d' d).
    - intros [= ->]. left. reflexivity.
    - intros H. destruct (decide (l' = l)) as [-> | Hne]; [left; reflexivity |].
      right. split; assumption. }
  assert (Hnew : forall l2 L2, l2 <> l -> registered w1 l2 L2 -> pathName L = pathName L2 ->
                   F L <> None -> False).
  { intros l2 L2 Hne [[d2 Hd2] HL2] Hpp HFL.
    destruct (HF HFL l2) as (L2' & HL2' & Hp2); [eapply dict_get_values, Hd2 |].
    congruence. }
  split.
  - intros l1 l2 L1 L2 Hne [[d1 Hd1] HL1] [[d2 Hd2] HL2] Hpp HF1 HF2. simpl in *.
    rewrite HL in HL1, HL2.
    destruct (Hreg _ _ Hd1) as [-> | [Hn1 Hd1']], (Hreg _ _ Hd2) as [-> | [Hn2 Hd2']].
    + congruence.
    + rewrite lookup_insert_eq in HL1. rewrite lookup_insert_ne in HL2 by congruence.
      simplify_eq. eapply (Hnew l2 L2); eauto. split; [eexists |]; eassumption.
    + rewrite lookup_insert_eq in HL2. rewrite lookup_insert_ne in HL1 by congruence.
      simplify_eq. eapply (Hnew l1 L1); eauto. split; [eexists |]; eassumption.
    + rewrite lookup_insert_ne in HL1, HL2 by congruence.
      apply (Hone l1 l2 L1 L2 Hne); try (split; [eexists |]; eassumption); assumption.
  - intros d' l' Hd'. simpl in *. rewrite HL.
    destruct (Hreg _ _ Hd') as [-> | [Hn Hd1]].
    + rewrite lookup_insert_eq. eexists. reflexivity.
    + rewrite lookup_insert_ne by congruence. eapply Hsound, Hd1.
Qed.

#[local] Hint Resolve domains_del_pres clear_thread_pres join_pres shutdown_pres
  Shutdown_pres Rotate_pres : mon.

Lemma GetLogger_Inv domain0 level0 pathName0 maxSize0 backupCnt0 console0 server0 connect0 :
  preserves Inv
    (GetLogger domain0 level0 pathName0 maxSize0 backupCnt0 console0 server0 connect0).
Proof.
  intros w Hw. unfold GetLogger. rewrite bind_gets.
  destruct (domains w) as [| kv ds] eqn:Ed; [exact Hw |].
  rewrite bind_eq.
  match goal with |- context [match ?a w with _ => _ end] =>
    assert (HA : preserves Inv a)
  end.
  { apply keeper_Inv. intros I HI. mon_pres. }
  specialize (HA w Hw).
  match type of HA with Inv (?a w).2 => destruct (a w) as [[[]| e|] w1] end;
    simpl in HA |- *; try exact HA.
  rewrite bind_eq.
  pose proof (Logger_init_spec (domains w1) (loggers w1) (default "root"%string domain0) level0
                pathName0 maxSize0 backupCnt0 console0 server0 connect0 w1
                (conj eq_refl eq_refl)) as HS.
  destruct (Logger_init _ _ _ _ _ _ _ _ w1) as [[l| e|] w2]; simpl in HS |- *.
  - eapply Inv_register; eassumption.
  - eapply Inv_frame; eassumption.
  - eapply Inv_frame; eassumption.
Qed.

Lemma Inv_unregister w d g : Inv w -> Inv (upd_domains (dict_set d None) (upd_cls g w)).
Proof.
  intros Hw. apply (keeps_Inv w); [exact Hw |]. split.
  - intros d' l. simpl. rewrite dict_get_set. destruct (String.eqb d' d); [discriminate | auto].
  - intros l L0 HL. exists L0. split; [exact HL |]. split; auto.
Qed.

Lemma LogInit_Inv domain0 level0 pathName0 maxSize0 backupCnt0 console0 colors0 compress0
    useThreads0 encoding0 server0 connect0 :
  preserves Inv
    (LogInit domain0 level0 pathName0 maxSize0 backupCnt0 console0 colors0 compress0
             useThreads0 encoding0 server0 connect0).
Proof.
  intros w Hw. unfold LogInit. rewrite !bind_modify.
  match goal with |- Inv ((_ ≫= _) ?w').2 => assert (Hw' : Inv w') by apply Inv_unregister, Hw;
    generalize dependent w' end.
  intros w' Hw'. rewrite bind_eq.
  pose proof (GetLogger_Inv (Some (default "root"%string domain0)) level0 pathName0 maxSize0
                backupCnt0 console0 server0 connect0 w' Hw') as HG.
  destruct (GetLogger _ _ _ _ _ _ _ _ w') as [[l| e|] w1]; simpl in HG |- *; try exact HG.
  rewrite bind_eq.
  match goal with |- context [match ?a w1 with _ => _ end] =>
    assert (HA : preserves Inv a)
  end.
  { apply keeper_Inv. intros I HI. destruct (colors0 && String.eqb NORMAL ""); [| mon].
    apply level_methods_full. exact HI. }
  specialize (HA w1 HG).
  match type of HA with Inv (?a w1).2 => destruct (a w1) as [[[]| e|] w2] end;
    simpl in HA |- *; exact HA.
Qed.

Lemma run_Inv c : preserves Inv (run c).
Proof.
  destruct c; simpl.
  1: { mon_step; [apply LogInit_Inv | mon]. }
  1: { mon_step; [apply GetLogger_Inv | mon]. }
  all: apply keeper_Inv; intros I HI; try solve [mon_pres];
    try solve [apply level_methods_full; exact HI].
  apply preserves_modify. intros w Hw. apply fi_clock, Hw.
Qed.

Lemma Inv_start fs now : Inv (world0 fs now).
Proof.
  split.
  - intros l1 l2 L1 L2 _ [_ H]. simpl in H. rewrite lookup_empty in H. discriminate.
  - intros d l H. discriminate.
Qed.

Lemma reachable_Inv w : reachable w -> Inv w.
Proof. induction 1 as [fs now | c w _ IH]; [apply Inv_start | apply run_Inv, IH]. Qed.

Lemma reachable_run_all cs w : reachable w -> reachable (run_all cs w).
Proof.
  revert w. induction cs as [| c cs IH]; intros w Hw; simpl; [exact Hw |].
  apply IH, reachable_step, Hw.
Qed.

(** A logger made for the path of a logger of the registry shares with a
    logger of the registry and opens nothing. *)
Lemma Logger_init_shares d0 lg0 fs0 fl0 p domain0 level0 maxSize0 backupCnt0 console0
    server0 connect0 :
  fs_isdir fs0 (dirname p) = true ->
  (exists l' L', Some l' ∈ map snd d0 /\ lg0 !! l' = Some L' /\ pathName L' = Some p) ->
  hoare (fun w => frame_reg d0 lg0 w /\ fsys w = fs0 /\ files w = fl0)
        (Logger_init domain0 level0 (Some p) maxSize0 backupCnt0 console0 server0 connect0)
        (shares_post d0 lg0 fl0 p)
        (fun w => frame_reg d0 lg0 w /\ fsys w = fs0 /\ files w = fl0).
Proof.
  intros Hdir (l' & L' & Hin & HL' & Hp').
  unfold Logger_init.
  destruct ((maxSize0 <? 0) || (backupCnt0 <? 0) || (maxSize0 >? 0) && (backupCnt0 =? 0)).
  { apply hoare_raise. auto. }
  eapply hoare_gets_bind with (c := fresh (dom lg0)).
  { intros w [[_ ->] _]. reflexivity. }
  do 3 (eapply hoare_bind; [apply hoare_frame; frame_prim | intros ?; cbv beta]).
  cbv zeta.
  eapply hoare_gets_bind with (c := true).
  { intros w (_ & -> & _). exact Hdir. }
  eapply hoare_bind; [apply hoare_frame; mon | intros ut; cbv beta].
  match goal with |- hoare ?P (mbind _ ?m) _ _ =>
    eapply hoare_bind with
      (Q := fun L1 w => P w /\
              (F L1 = None /\ __thrLogger L1 = None /\
               exists l' L', Some l' ∈ map snd d0 /\ lg0 !! l' = Some L' /\
                 pathName L' = Some p /\ queue (common L1) = queue (common L') /\
                 evtQueue (common L1) = evtQueue (common L') /\
                 evtRotate (common L1) = evtRotate (common L')))
  end.
  { eapply hoare_gets_bind with (c := map snd d0).
    { intros w [[Hd _] _]. rewrite Hd. reflexivity. }
    intros w Hw. rewrite bind_eq.
    destruct (find_shared_result p (map snd d0) w) as [H1 H2].
    destruct (find_shared p (map snd d0) w) as [[[c |] | e |] w1]; simpl in *; subst w1;
      try exact Hw.
    - split; [exact Hw |]. destruct Hw as [[_ <-] _]. auto.
    - exfalso. destruct Hw as [[_ <-] _].
      destruct (H2 l' Hin) as (L2 & HL2 & Hne). congruence. }
  intros L1. apply hoare_pure. intros (HF & HT & Hsh).
  eapply hoare_bind; [apply hoare_frame; mon | intros con; cbv beta].
  eapply hoare_bind;
    [apply hoare_frame; destruct ut; [destruct con |]; first [solve [frame_prim] | mon]
    | intros ?; cbv beta].
  eapply hoare_bind; [apply hoare_frame; destruct server0; [| mon] | intros srv; cbv beta].
  { mon_step; [frame_prim | mon]. }
  eapply hoare_bind; [apply hoare_frame; destruct connect0; [| mon] | intros cli; cbv beta].
  { mon_step; [frame_prim | mon]. }
  intros w ([Hd Hl] & Hfs & Hfl). simpl. split; [exact Hfl |].
  eexists. split; [apply lookup_insert_eq |]. simpl. auto.
Qed.

(** ** Rotation (C5) *)

Lemma os_replace_no_hang a b : no_hang (os_replace a b).
Proof. intros w. unfold os_replace. case_match; discriminate. Qed.

Lemma shift_loop_no_hang d n z names cnts : no_hang (shift_loop d n z names cnts).
Proof.
  induction cnts as [| c rest IH]; simpl; [apply no_hang_ret |].
  case_match; [exact IH |]. apply no_hang_bind; [apply os_replace_no_hang | intros _; exact IH].
Qed.

Lemma shift_backups_returns d n z names b w : (shift_backups d n z names b w).1 = Ok tt.
Proof.
  unfold shift_backups, try_except.
  pose proof (shift_loop_no_hang d n z names (range_down b) w) as Hh.
  destruct (shift_loop d n z names (range_down b) w) as [[[]| e|] w1]; simpl in *;
    [reflexivity | reflexivity | congruence].
Qed.

Lemma shift_loop_app d n z names pre post w w1 :
  shift_loop d n z names pre w = (Ok tt, w1) ->
  shift_loop d n z names (pre ++ post) w = shift_loop d n z names post w1.
Proof.
  revert w. induction pre as [| c pre IH]; intros w; simpl.
  - intros [= ->]. reflexivity.
  - case_match; [apply IH |].
    rewrite !bind_eq. destruct (os_replace _ _ w) as [[[]| e|] w2]; try discriminate.
    apply IH.
Qed.

(** [__rotate] after its first lines. *)
Lemma rotate_from_start self w L w0 :
  rotation_start self w = (Ok L, w0) ->
  __rotate self w =
    (pathName0 ← unwrap TypeError (pathName L);
     let '(dirName, logFileName) := path_split pathName0 in
     comp ← class_attr compress;
     let zExt := match comp with None => ""%string | Some c => c.2 end in
     names ← os_listdir dirName;
     let fileNames := filter (fun fileName => startswith fileName logFileName) names in
     shift_backups dirName logFileName zExt fileNames (backupCnt (common L));;
     let dstFileName := (logFileName +:+ ".1" +:+ zExt)%string in
     match comp with
     | None => os_replace pathName0 (path_join dirName dstFileName)
     | Some c =>
         write_new (path_join dirName dstFileName) "";;
         data ← read_file pathName0;
         write_new (path_join dirName dstFileName) (c.1 data);;
         os_remove pathName0
     end;;
     enc ← class_attr encoding;
     h' ← open_append pathName0;
     upd_logger self (set_F (Some h'))) w0.
Proof.
  unfold rotation_start, __rotate. rewrite !(bind_eq (__writePending self)).
  destruct (__writePending self w) as [[[] | e |] wa]; try discriminate.
  rewrite !(bind_eq (get_logger self)).
  destruct (get_logger self wa) as [[La | e |] wb]; try discriminate.
  rewrite !(bind_eq (unwrap AttributeError (F La))).
  destruct (unwrap AttributeError (F La) wb) as [[h | e |] wc]; try discriminate.
  rewrite !(bind_eq (file_flush h)).
  destruct (file_flush h wc) as [[[] | e |] wd]; try discriminate.
  rewrite !(bind_eq (file_close h)).
  destruct (file_close h wd) as [[[] | e |] we]; try discriminate.
  rewrite !(bind_eq (upd_logger self (set_pos 0))). cbn [upd_logger modify mret M_ret].
  intros [= <- <-]. reflexivity.
Qed.

(** C5, as the code has it: a rename of the shift that fails ends the
    shift, the slots still to come staying as they are; the failure is
    swallowed, and the rotation goes on, from the state that the renames
    before it have left, with the move of the active file to [name.1], or
    its compression, and the opening of the new file; it returns when
    these succeed. *)
Theorem shift_failure_ends_shift self w L p d n names pre cnt post :
  let w0 := (rotation_start self w).2 in
  let comp := compress (cls w0) in
  let zExt := match comp with None => ""%string | Some c => c.2 end in
  let fileNames := filter (fun fileName => startswith fileName n) names in
  let w1 := (shift_loop d n zExt fileNames pre w0).2 in
  let dst := path_join d (n +:+ ".1" +:+ zExt) in
  (rotation_start self w).1 = Ok L ->
  pathName L = Some p -> path_split p = (d, n) ->
  fs_listdir (fsys w0) d = Some names ->
  range_down (backupCnt (common L)) = pre ++ cnt :: post ->
  (shift_loop d n zExt fileNames pre w0).1 = Ok tt ->
  backup_name n (cnt - 1) zExt ∈ fileNames ->
  fs_replace (fsys w1) (path_join d (backup_name n (cnt - 1) zExt))
             (path_join d (backup_name n cnt zExt)) = None ->
  shift_backups d n zExt fileNames (backupCnt (common L)) w0 = (Ok tt, w1) /\
  __rotate self w =
    ((match comp with
      | None => os_replace p dst
      | Some c =>
          write_new dst "";;
          data ← read_file p;
          write_new dst (c.1 data);;
          os_remove p
      end);;
     enc ← class_attr encoding;
     h' ← open_append p;
     upd_logger self (set_F (Some h'))) w1 /\
  (forall fs2 fs3 i, comp = None ->
     fs_replace (fsys w1) p dst = Some fs2 -> fs_open_append fs2 p = Some (fs3, i) ->
     (__rotate self w).1 = Ok tt /\ fsys (__rotate self w).2 = fs3).
Proof.
  intros w0 comp zExt fileNames w1 dst Hstart Hp Hsplit Hls Hr Hpre Hin Hfail.
  assert (Hshift : shift_backups d n zExt fileNames (backupCnt (common L)) w0 = (Ok tt, w1)).
  { unfold shift_backups, try_except.
    assert (Hpre' : shift_loop d n zExt fileNames pre w0 = (Ok tt, w1)).
    { unfold w1. destruct (shift_loop d n zExt fileNames pre w0) as [[[] | e |] wx];
        simpl in *; try discriminate. reflexivity. }
    rewrite Hr, (shift_loop_app _ _ _ _ _ _ _ _ Hpre'). simpl.
    rewrite bool_decide_eq_true_2 by exact Hin. simpl.
    rewrite bind_eq. unfold os_replace. rewrite Hfail. reflexivity. }
  assert (Hs : rotation_start self w = (Ok L, w0)).
  { unfold w0. destruct (rotation_start self w) as [[L0 | e |] wx]; simpl in *; congruence. }
  assert (Hrot : __rotate self w =
    ((match comp with
      | None => os_replace p dst
      | Some c =>
          write_new dst "";;
          data ← read_file p;
          write_new dst (c.1 data);;
          os_remove p
      end);;
     enc ← class_attr encoding;
     h' ← open_append p;
     upd_logger self (set_F (Some h'))) w1).
  { rewrite (rotate_from_start _ _ _ _ Hs), Hp. cbn [unwrap]. rewrite bind_eq. cbn [mret M_ret].
    rewrite Hsplit. rewrite bind_class_attr. fold comp. fold zExt.
    rewrite bind_eq. unfold os_listdir. rewrite Hls. cbn [unwrap mret M_ret].
    fold fileNames. rewrite (bind_ok _ _ _ _ _ Hshift). reflexivity. }
  split; [exact Hshift |]. split; [exact Hrot |].
  intros fs2 fs3 i Hc Hmv Hopen. rewrite Hrot, Hc. rewrite bind_eq.
  unfold os_replace. rewrite Hmv. rewrite bind_class_attr, bind_eq.
  unfold open_append. cbn [fsys upd_fsys]. rewrite Hopen. split; reflexivity.
Qed.

(** ** Stopping (C8) *)

(** Nothing in the processing of a message waits. *)
Ltac prim_no_hang :=
  let w := fresh "w" in
  intros w;
  cbv [new_queue new_event open_append get_file get_logger get_thread thread_start
       timer_start os_replace os_remove write_new console_start network_import
       queue_popleft event_is_set os_listdir read_file unwrap modify raise mret M_ret
       upd_logger event_set event_clear print_out print_err backlog_append class_attr
       time_time gets timer_cancel queue_append queue_clear set_thread_state];
  repeat case_match; simpl; discriminate.

Ltac mon_no_hang := repeat (first [ solve [eauto 3 with mon] | mon_step | solve [prim_no_hang] ]).

Lemma file_write_no_hang h d : no_hang (file_write h d).
Proof. unfold file_write. mon_no_hang. Qed.

Lemma file_flush_no_hang h : no_hang (file_flush h).
Proof. unfold file_flush. mon_no_hang. Qed.

Lemma file_close_no_hang h : no_hang (file_close h).
Proof. unfold file_close. mon_no_hang. Qed.

Lemma report_error_no_hang e : no_hang (report_error e).
Proof. unfold report_error. mon_no_hang. Qed.

#[local] Hint Resolve file_write_no_hang file_flush_no_hang file_close_no_hang
  report_error_no_hang shift_loop_no_hang : mon.

Lemma writePending_no_hang self : no_hang (__writePending self).
Proof. unfold __writePending. mon_no_hang. Qed.

#[local] Hint Resolve writePending_no_hang : mon.

Lemma rotate_no_hang self : no_hang (__rotate self).
Proof. unfold __rotate, shift_backups. mon_no_hang. Qed.

#[local] Hint Resolve rotate_no_hang : mon.

Lemma buffer_message_no_hang self message : no_hang (buffer_message self message).
Proof. unfold buffer_message. mon_no_hang. Qed.

Lemma console_message_no_hang lv kw message : no_hang (console_message lv kw message).
Proof. unfold console_message. mon_no_hang. Qed.

Lemma default_format_no_hang d e : no_hang (default_format d e).
Proof. unfold default_format. mon_no_hang. Qed.

#[local] Hint Resolve buffer_message_no_hang console_message_no_hang
  default_format_no_hang : mon.

Lemma logMessage_no_hang self k e c : no_hang (_logMessage self k e c).
Proof. unfold _logMessage. mon_no_hang. Qed.

#[local] Hint Resolve logMessage_no_hang : mon.

Lemma logEntry_no_hang self e : no_hang (__logEntry self e).
Proof. unfold __logEntry. mon_no_hang. Qed.

#[local] Hint Resolve logEntry_no_hang : mon.

Lemma logThread_pass_no_hang self : no_hang (logThread_pass self).
Proof. unfold logThread_pass. mon_no_hang. Qed.

Lemma logThread_wake_no_hang self : no_hang (logThread_wake self).
Proof. unfold logThread_wake. mon_no_hang. Qed.

Lemma console_join_returns q w : (console_join q w).1 = Ok tt.
Proof.
  revert w. induction q as [| [[lv m] |] q IH]; intros w; simpl; try reflexivity.
  rewrite bind_eq. destruct (lv <? ERROR); simpl; apply IH.
Qed.

Lemma preserves_and {A} (I1 I2 : World -> Prop) (m : M A) :
  preserves I1 m -> preserves I2 m -> preserves (fun w => I1 w /\ I2 w) m.
Proof. intros H1 H2 w [Hw1 Hw2]. split; [apply H1 | apply H2]; assumption. Qed.

Lemma PrimInv_and I1 I2 : PrimInv I1 -> PrimInv I2 -> PrimInv (fun w => I1 w /\ I2 w).
Proof.
  intros H1 H2. constructor.
  - intros l f w Hf [? ?]. split; apply pi_loggers; assumption.
  - intros g w [? ?]. split; apply pi_cls; assumption.
  - intros g w [? ?]. split; apply pi_fsys; assumption.
  - intros g w [? ?]. split; apply pi_stdout; assumption.
  - intros g w [? ?]. split; apply pi_stderr; assumption.
  - intros g w [? ?]. split; apply pi_sink; assumption.
  - intros g w [? ?]. split; apply pi_timers; assumption.
  - intros e w [? ?]. split; apply pi_event_set; assumption.
  - intros h d. apply preserves_and; apply pi_file_write.
  - intros h. apply preserves_and; apply pi_flush_close.
  - intros p. apply preserves_and; apply pi_open_append.
Qed.

Lemma ChainInv_and I1 I2 : ChainInv I1 -> ChainInv I2 -> ChainInv (fun w => I1 w /\ I2 w).
Proof.
  intros H1 H2. constructor.
  - apply PrimInv_and; apply chain_prim.
  - intros x. apply preserves_and; apply chain_rotate.
Qed.

Lemma EntryInv_and I1 I2 : EntryInv I1 -> EntryInv I2 -> EntryInv (fun w => I1 w /\ I2 w).
Proof.
  intros H1 H2. constructor.
  - apply ChainInv_and; apply entry_chain.
  - intros l t w [? ?]. split; apply ei_set_timer; assumption.
Qed.

Lemma still_EntryInv q0 th0 d0 : EntryInv (still q0 th0 d0).
Proof.
  assert (PrimInv (still q0 th0 d0)) by (apply PrimInv_no_files; intros; assumption).
  constructor; [| intros; assumption].
  constructor; [assumption |]. intros x. apply rotate_generic; [assumption |].
  intros; assumption.
Qed.

Lemma event_there_EntryInv e : EntryInv (event_there e).
Proof.
  assert (PrimInv (event_there e)).
  { apply PrimInv_no_files; try (intros; assumption).
    intros e' w Hw. unfold event_there in *. simpl.
    destruct (decide (e' = e)) as [-> | Hne].
    - rewrite lookup_alter_eq. destruct Hw as [b ->]. eexists. reflexivity.
    - rewrite lookup_alter_ne by exact Hne. exact Hw. }
  constructor; [| intros; assumption].
  constructor; [assumption |]. intros x. apply rotate_generic; [assumption |].
  intros; assumption.
Qed.

Lemma has_prop_EntryInv l P :
  chain_closed P -> (forall L h, P L -> P (set_F (Some h) L)) ->
  (forall L t, P L -> P (set___thrTimer (Some t) L)) -> EntryInv (has_prop l P).
Proof.
  intros HP HF HT. constructor; [apply has_prop_ChainInv; assumption |].
  intros x t w. apply has_prop_alter. intros L. apply HT.
Qed.

Lemma CloseInv_EntryInv : EntryInv CloseInv.
Proof. exact (@thread_entry _ _ (@full_thread _ _ CloseInv_FullInv)). Qed.

Lemma stop_no_timer w self now L :
  loggers w !! self = Some L -> __thrTimer L = None ->
  stop self now w = (Ok tt, stop_tail self L now w).
Proof.
  intros HL HT. unfold stop. rewrite (bind_ok _ _ _ _ _ (get_logger_ok _ _ _ HL)), HT.
  destruct now; reflexivity.
Qed.

(** What a [stop()] that returned has left: the end of [stop] applied to
    a state in which the logger has no timer. *)
Lemma stop_result w self now L :
  loggers w !! self = Some L -> (stop self now w).1 = Ok tt -> CloseInv w ->
  exists wb Lb, (stop self now w).2 = stop_tail self L now wb /\
    loggers wb !! self = Some Lb /\
    (__thrTimer Lb = None /\ common Lb = common L /\ domain Lb = domain L /\
     __thrLogger Lb = __thrLogger L) /\
    still (queues w) (threads w) (domains w) wb /\
    (forall e, event_there e w -> event_there e wb) /\ CloseInv wb.
Proof.
  intros HL Hok HC.
  destruct (__thrTimer L) as [t |] eqn:HT.
  - revert Hok. unfold stop.
    rewrite (bind_ok _ _ _ _ _ (get_logger_ok _ _ _ HL)), HT.
    cbv [timer_cancel upd_logger modify mbind M_bind].
    match goal with |- context [_logMessage _ _ _ _ ?x] => set (wa := x) end.
    set (P := fun Lb => __thrTimer Lb = None /\ common Lb = common L /\
                        domain Lb = domain L /\ __thrLogger Lb = __thrLogger L).
    assert (HcP : ChainInv (has_prop self P)).
    { apply has_prop_ChainInv.
      - intros L1 L2 ? ? ? ? ? Ht (? & ? & ? & ?). unfold P.
        repeat split; try congruence. destruct Ht; congruence.
      - intros L1 h H. exact H. }
    pose proof (@logMessage_pres _ HcP self (key (_lastMsg L)) (entry (_lastMsg L))
                  (cnt (_lastMsg L)) wa) as H1.
    pose proof (@logMessage_pres _ (@entry_chain _ _ (still_EntryInv (queues w) (threads w) (domains w)))
                  self (key (_lastMsg L)) (entry (_lastMsg L)) (cnt (_lastMsg L)) wa) as H2.
    pose proof (@logMessage_pres _ (@entry_chain _ _ CloseInv_EntryInv)
                  self (key (_lastMsg L)) (entry (_lastMsg L)) (cnt (_lastMsg L)) wa) as H3.
    assert (H4 : forall e, event_there e wa -> event_there e
                   (_logMessage self (key (_lastMsg L)) (entry (_lastMsg L)) (cnt (_lastMsg L)) wa).2).
    { intros e. apply (@logMessage_pres _ (@entry_chain _ _ (event_there_EntryInv e))). }
    destruct (_logMessage self (key (_lastMsg L)) (entry (_lastMsg L)) (cnt (_lastMsg L)) wa)
      as [[[]| e|] wb]; simpl in *; try discriminate.
    intros _.
    destruct H1 as (Lb & HLb & HPb).
    { exists (set___thrTimer None L). split.
      - unfold wa. simpl. rewrite lookup_alter_eq, HL. reflexivity.
      - unfold P. simpl. auto. }
    exists wb, Lb. split.
    { destruct now; reflexivity. }
    split; [exact HLb |]. split; [exact HPb |].
    split; [apply H2; repeat split |]. split; [| apply H3, HC].
    intros e He. apply H4. exact He.
  - rewrite (stop_no_timer _ _ _ _ HL HT). exists w, L. simpl.
    split; [reflexivity |]. split; [exact HL |]. split; [auto |].
    split; [repeat split |]. split; [auto | exact HC].
Qed.

(** *** The writer thread runs to its end *)

Lemma thread_ready_reads t w : (thread_ready t w).2 = w.
Proof.
  unfold thread_ready, get_thread, get_logger, event_is_set. rewrite bind_eq.
  destruct (threads w !! t) as [th |]; simpl; [| reflexivity].
  destruct (th_state th); try reflexivity.
  rewrite bind_eq. destruct (loggers w !! th_logger th) as [L |]; simpl; [| reflexivity].
  destruct (events w !! evtQueue (common L)); reflexivity.
Qed.

(** A step of a thread that is ready is a pass or a wake-up, and the new
    place of the thread. *)
Lemma thread_step_eq t w th :
  threads w !! t = Some th -> (thread_ready t w).1 = Ok true ->
  thread_step t w =
    match (match th_state th with
           | TWait => logThread_wake (th_logger th)
           | _ => logThread_pass (th_logger th)
           end) w with
    | (Ok s, w1) => (Ok tt, upd_threads (alter (fun th => mkThread (th_logger th) s) t) w1)
    | (Raise e, w1) =>
        (Ok tt, upd_threads (alter (fun th => mkThread (th_logger th) TDied) t)
                  (upd_stderr (fun l => l ++ [format_exc (Some e)]) w1))
    | (Hang, w1) => (Hang, w1)
    end.
Proof.
  intros Ht Hr. unfold thread_step.
  assert (Hg : get_thread t w = (Ok th, w)) by (unfold get_thread; rewrite Ht; reflexivity).
  rewrite (bind_ok _ _ _ _ _ Hg). rewrite bind_eq.
  pose proof (thread_ready_reads t w) as Hro.
  destruct (thread_ready t w) as [[b | e |] w0]; simpl in *; try discriminate.
  injection Hr as ->. subst w0.
  unfold try_except. rewrite bind_eq.
  destruct ((match th_state th with
             | TWait => logThread_wake (th_logger th)
             | _ => logThread_pass (th_logger th)
             end) w) as [[s | e |] w1]; reflexivity.
Qed.

(** What the writer does with an entry always returns. *)
Lemma process_entry_returns self e smax w :
  (try_except (if smax >? 0 then __logEntry self e else _logMessage self None (Some e) 0)
              report_error w).1 = Ok tt.
Proof.
  unfold try_except.
  assert (Hh : no_hang (if smax >? 0 then __logEntry self e
                        else _logMessage self None (Some e) 0)).
  { destruct (smax >? 0); [apply logEntry_no_hang | apply logMessage_no_hang]. }
  specialize (Hh w).
  destruct ((if smax >? 0 then __logEntry self e else _logMessage self None (Some e) 0) w)
    as [[[] | ex |] w1]; simpl in *; [reflexivity | reflexivity | congruence].
Qed.

Lemma common_EntryInv self c : EntryInv (has_prop self (fun L => common L = c)).
Proof.
  apply has_prop_EntryInv.
  - intros L L' ? Hc ? ? ? ? H. congruence.
  - intros L h H. exact H.
  - intros L t H. exact H.
Qed.

Lemma thread_ready_run t self w :
  threads w !! t = Some (mkThread self TRun) -> (thread_ready t w).1 = Ok true.
Proof. intros Ht. unfold thread_ready, get_thread. rewrite bind_eq, Ht. reflexivity. Qed.

(** A pass that takes an entry leaves the thread at the top of its loop,
    with the rest of the queue. *)
Lemma pass_entry t self c e r w :
  thread_at t self c TRun (Some e :: r) w ->
  exists w', thread_step t w = (Ok tt, w') /\ thread_at t self c TRun r w'.
Proof.
  intros (Ht & (L & HL & Hc) & Hq).
  rewrite (thread_step_eq _ _ _ Ht (thread_ready_run _ _ _ Ht)). simpl.
  unfold logThread_pass. rewrite (bind_ok _ _ _ _ _ (get_logger_ok _ _ _ HL)).
  rewrite bind_eq. unfold queue_popleft. rewrite Hc, Hq. simpl.
  rewrite bind_class_attr, bind_eq.
  set (wp := upd_queues (insert (queue c) r) w).
  pose proof (process_entry_returns self e (sameMsgCountMax (cls wp)) wp) as Hok.
  pose proof (process_entry_pres _ (EntryInv0 := EntryInv_and _ _
                (still_EntryInv (queues wp) (threads wp) (domains wp))
                (common_EntryInv self c)) self e (sameMsgCountMax (cls wp)) wp) as HK.
  destruct (try_except _ _ wp) as [[[] | ex |] w2]; simpl in Hok; try discriminate.
  simpl in HK. destruct HK as [(Hq2 & Ht2 & _) Hc2].
  { split; [repeat split |]. exists L. split; [exact HL | exact Hc]. }
  eexists. split; [reflexivity |]. split; [| split].
  - simpl. rewrite Ht2. simpl. rewrite lookup_alter_eq, Ht. reflexivity.
  - exact Hc2.
  - simpl. rewrite Hq2. simpl. apply lookup_insert_eq.
Qed.

Lemma returns_only_bind {A B} (Q : B -> Prop) (m : M A) (f : A -> M B) :
  (forall a, returns_only Q (f a)) -> returns_only Q (m ≫= f).
Proof.
  intros Hf w b. rewrite bind_eq. destruct (m w) as [[a | e |] w1]; simpl; try discriminate.
  apply Hf.
Qed.

Lemma returns_only_ret {A} (Q : A -> Prop) a : Q a -> returns_only Q (mret a).
Proof. intros H w b [= <-]. exact H. Qed.

Lemma wake_returns self : returns_only (fun s => s = TRun) (logThread_wake self).
Proof.
  unfold logThread_wake. repeat (apply returns_only_bind; intros ?).
  apply returns_only_ret. reflexivity.
Qed.

Lemma thread_of_ThreadInv t self : ThreadInv (thread_of t self).
Proof.
  assert (PrimInv (thread_of t self)) by (apply PrimInv_no_files; intros; assumption).
  assert (ChainInv (thread_of t self)).
  { constructor; [assumption |]. intros x. apply rotate_generic; [assumption |].
    intros; assumption. }
  assert (EntryInv (thread_of t self)) by (constructor; [assumption | intros; assumption]).
  constructor; try assumption; try (intros; assumption).
  intros t' s w [s0 Hs]. unfold thread_of. simpl.
  destruct (decide (t' = t)) as [-> | Hne].
  - rewrite lookup_alter_eq, Hs. simpl. eexists. reflexivity.
  - rewrite lookup_alter_ne by exact Hne. eexists. exact Hs.
Qed.

(** A pass that takes the [None] ends the thread. *)
Lemma pass_sentinel t self c r w :
  thread_at t self c TRun (None :: r) w ->
  exists w', thread_step t w = (Ok tt, w') /\ thread_over t self w'.
Proof.
  intros (Ht & (L & HL & Hc) & Hq).
  rewrite (thread_step_eq _ _ _ Ht (thread_ready_run _ _ _ Ht)). simpl.
  pose proof (logThread_pass_no_hang self w) as Hh.
  pose proof (logThread_pass_pres _ (ThreadInv0 := thread_of_ThreadInv t self) self w) as Hth.
  assert (Hres : forall s, (logThread_pass self w).1 = Ok s -> s = TDone).
  { unfold logThread_pass. rewrite (bind_ok _ _ _ _ _ (get_logger_ok _ _ _ HL)).
    rewrite bind_eq. unfold queue_popleft. rewrite Hc, Hq. simpl.
    intros s. rewrite bind_eq.
    match goal with |- context [match ?m ?x with _ => _ end] => destruct (m x) as [[[]| ex|] w2] end;
      simpl; congruence. }
  destruct (logThread_pass self w) as [[s | ex |] w2]; simpl in *; try congruence.
  - destruct Hth as [s0 Hs0]; [eexists; exact Ht |].
    eexists. split; [reflexivity |]. exists s. simpl.
    rewrite lookup_alter_eq, Hs0. simpl. split; [reflexivity |]. left. apply Hres. reflexivity.
  - destruct Hth as [s0 Hs0]; [eexists; exact Ht |].
    eexists. split; [reflexivity |]. exists TDied. simpl.
    rewrite lookup_alter_eq, Hs0. simpl. split; [reflexivity | right; reflexivity].
Qed.

Lemma wake_pres_entry I `{!EntryInv I} self :
  (forall g w, I w -> I (upd_events g w)) -> preserves I (logThread_wake self).
Proof.
  intros He. unfold logThread_wake. mon_pres.
  all: apply preserves_modify; intros w Hw; apply He, Hw.
Qed.

(** A thread that is woken goes back to the top of its loop, the queue as
    it was, or ends by an exception in the rotation. *)
Lemma wake_step t self c ql w :
  thread_at t self c TWait ql w -> events w !! evtQueue c = Some true ->
  exists w', thread_step t w = (Ok tt, w') /\
             (thread_at t self c TRun ql w' \/ thread_over t self w').
Proof.
  intros (Ht & (L & HL & Hc) & Hq) Hev.
  assert (Hr : (thread_ready t w).1 = Ok true).
  { unfold thread_ready, get_thread. rewrite bind_eq, Ht. simpl.
    rewrite (bind_ok _ _ _ _ _ (get_logger_ok _ _ _ HL)). unfold event_is_set.
    rewrite Hc, Hev. reflexivity. }
  rewrite (thread_step_eq _ _ _ Ht Hr). simpl.
  pose proof (logThread_wake_no_hang self w) as Hh.
  pose proof (wake_returns self w) as Hres.
  pose proof (wake_pres_entry _ (EntryInv0 := EntryInv_and _ _
                (still_EntryInv (queues w) (threads w) (domains w))
                (common_EntryInv self c)) self) as HK.
  specialize (HK ltac:(intros; assumption) w).
  destruct (logThread_wake self w) as [[s | ex |] w2]; simpl in *; try congruence.
  - destruct HK as [(Hq2 & Ht2 & _) Hc2].
    { split; [repeat split |]. exists L. split; [exact HL | exact Hc]. }
    eexists. split; [reflexivity |]. left. rewrite (Hres s eq_refl).
    split; [| split].
    + simpl. rewrite Ht2, lookup_alter_eq, Ht. reflexivity.
    + exact Hc2.
    + simpl. rewrite Hq2. exact Hq.
  - destruct HK as [(Hq2 & Ht2 & _) Hc2].
    { split; [repeat split |]. exists L. split; [exact HL | exact Hc]. }
    eexists. split; [reflexivity |]. right. exists TDied. simpl.
    rewrite Ht2, lookup_alter_eq, Ht. simpl. split; [reflexivity | right; reflexivity].
Qed.

Lemma registry_is_ThreadInv d0 : ThreadInv (registry_is d0).
Proof.
  assert (PrimInv (registry_is d0)) by (apply PrimInv_no_files; intros; assumption).
  assert (ChainInv (registry_is d0)).
  { constructor; [assumption |]. intros x. apply rotate_generic; [assumption |].
    intros; assumption. }
  assert (EntryInv (registry_is d0)) by (constructor; [assumption | intros; assumption]).
  constructor; try assumption; intros; assumption.
Qed.

Lemma thread_ended_eq t self s w :
  threads w !! t = Some (mkThread self s) ->
  thread_ended t w = (Ok (match s with TDone | TDied => true | _ => false end), w).
Proof. intros Ht. unfold thread_ended, get_thread. rewrite bind_eq, Ht. reflexivity. Qed.

Lemma thread_run_over fuel t self w :
  thread_over t self w -> (thread_run fuel t w).1 = Ok true.
Proof.
  intros (s & Ht & Hs). destruct fuel; simpl;
    rewrite (bind_ok _ _ _ _ _ (thread_ended_eq _ _ _ _ Ht)); destruct Hs as [-> | ->];
    reflexivity.
Qed.

Lemma thread_run_step n t self s w w' :
  threads w !! t = Some (mkThread self s) -> (s = TRun \/ s = TWait) ->
  (thread_ready t w).1 = Ok true -> thread_step t w = (Ok tt, w') ->
  thread_run (S n) t w = thread_run n t w'.
Proof.
  intros Ht Hs Hr Hstep. simpl.
  rewrite (bind_ok _ _ _ _ _ (thread_ended_eq _ _ _ _ Ht)).
  assert (Hready : thread_ready t w = (Ok true, w)).
  { pose proof (thread_ready_reads t w). destruct (thread_ready t w); simpl in *; congruence. }
  destruct Hs as [-> | ->]; rewrite (bind_ok _ _ _ _ _ Hready), (bind_ok _ _ _ _ _ Hstep);
    reflexivity.
Qed.

(** From the top of its loop the thread reaches the [None] in the queue. *)
Lemma thread_run_from_top fuel t self c : forall i ql w,
  thread_at t self c TRun ql w -> ql !! i = Some None -> (i < fuel)%nat ->
  (thread_run fuel t w).1 = Ok true.
Proof.
  induction fuel as [| n IH]; intros i ql w Hat Hi Hlt; [lia |].
  pose proof Hat as (Ht & _ & _).
  destruct ql as [| [e |] r]; [discriminate | |].
  - destruct (pass_entry _ _ _ _ _ _ Hat) as (w' & Hstep & Hat').
    rewrite (thread_run_step n _ _ _ _ _ Ht (or_introl eq_refl)
               (thread_ready_run _ _ _ Ht) Hstep).
    destruct i as [| i']; [discriminate |].
    apply (IH i' r w' Hat'); [exact Hi | lia].
  - destruct (pass_sentinel _ _ _ _ _ Hat) as (w' & Hstep & Hover).
    rewrite (thread_run_step n _ _ _ _ _ Ht (or_introl eq_refl)
               (thread_ready_run _ _ _ Ht) Hstep).
    eapply thread_run_over, Hover.
Qed.

(** ... and so it does when it waits and the event is set. *)
Lemma thread_run_from_wait fuel t self c i ql w :
  thread_at t self c TWait ql w -> events w !! evtQueue c = Some true ->
  ql !! i = Some None -> (i + 1 < fuel)%nat ->
  (thread_run fuel t w).1 = Ok true.
Proof.
  intros Hat Hev Hi Hlt. destruct fuel as [| n]; [lia |].
  pose proof Hat as (Ht & (L & HL & Hc) & _).
  destruct (wake_step _ _ _ _ _ Hat Hev) as (w' & Hstep & Hnext).
  assert (Hr : (thread_ready t w).1 = Ok true).
  { unfold thread_ready, get_thread. rewrite bind_eq, Ht. simpl.
    rewrite (bind_ok _ _ _ _ _ (get_logger_ok _ _ _ HL)). unfold event_is_set.
    rewrite Hc, Hev. reflexivity. }
  rewrite (thread_run_step n _ _ _ _ _ Ht (or_intror eq_refl) Hr Hstep).
  destruct Hnext as [Hat' | Hover].
  - apply (thread_run_from_top n t self c i ql w' Hat' Hi). lia.
  - eapply thread_run_over, Hover.
Qed.

(** [join()] on a thread whose queue holds a [None], the event set,
    returns. *)
Lemma thread_join_returns t self c s ql w :
  thread_at t self c s ql w -> None ∈ ql -> events w !! evtQueue c = Some true ->
  (thread_join t w).1 = Ok tt.
Proof.
  intros Hat Hin Hev. pose proof Hat as (Ht & (L & HL & Hc) & Hq).
  apply list_elem_of_lookup in Hin as [i Hi].
  pose proof (lookup_lt_Some _ _ _ Hi) as Hlen.
  unfold thread_join.
  assert (Hg : get_thread t w = (Ok (mkThread self s), w))
    by (unfold get_thread; rewrite Ht; reflexivity).
  rewrite (bind_ok _ _ _ _ _ Hg). simpl.
  rewrite (bind_ok _ _ _ _ _ (get_logger_ok _ _ _ HL)).
  rewrite bind_eq, Hc, Hq. simpl. rewrite bind_eq.
  assert (Hrun : (thread_run (length ql + 4) t w).1 = Ok true).
  { destruct s.
    - apply (thread_run_from_top _ t self c i ql w Hat Hi). lia.
    - apply (thread_run_from_wait _ t self c i ql w Hat Hev Hi). lia.
    - eapply thread_run_over. exists TDone. split; [exact Ht | left; reflexivity].
    - eapply thread_run_over. exists TDied. split; [exact Ht | right; reflexivity]. }
  destruct (thread_run (length ql + 4) t w) as [[b | e |] w']; simpl in *; try discriminate.
  injection Hrun as ->. reflexivity.
Qed.

(** [join()] returns when the domain is in the registry and the thread,
    if there is one, finds a [None] in the queue. *)
Lemma join_returns w self L :
  loggers w !! self = Some L ->
  dict_has (domain L) (domains w) = true ->
  (forall t, __thrLogger L = Some t ->
     exists s ql, thread_at t self (common L) s ql w /\ None ∈ ql /\
                  events w !! evtQueue (common L) = Some true) ->
  (join self w).1 = Ok tt.
Proof.
  intros HL Hreg Hthr. unfold join.
  rewrite (bind_ok _ _ _ _ _ (get_logger_ok _ _ _ HL)). rewrite bind_eq.
  match goal with |- context [match ?m w with _ => _ end] =>
    assert (HA : (m w).1 = Ok tt /\ domains (m w).2 = domains w)
  end.
  { destruct (__thrLogger L) as [t |] eqn:Et; [| split; reflexivity].
    destruct (Hthr t eq_refl) as (s & ql & Hat & Hin & Hev).
    pose proof (thread_join_returns _ _ _ _ _ _ Hat Hin Hev) as Hj.
    pose proof (thread_join_pres _ (ThreadInv0 := registry_is_ThreadInv (domains w)) t w eq_refl)
      as Hd.
    rewrite bind_eq. destruct (thread_join t w) as [[[] | e |] w']; simpl in *;
      try discriminate.
    split; [reflexivity | exact Hd]. }
  destruct HA as [HA1 HA2].
  match goal with |- context [match ?m w with _ => _ end] =>
    destruct (m w) as [[[] | e |] wA]
  end; simpl in HA1, HA2; try discriminate.
  assert (Hdel : domains_del (domain L) wA
                 = (Ok tt, upd_domains (dict_remove (domain L)) wA)).
  { unfold domains_del. rewrite bind_gets, HA2, Hreg. reflexivity. }
  rewrite (bind_ok _ _ _ _ _ Hdel), bind_gets, bind_class_attr.
  match goal with |- context [domains ?x] => destruct (domains x) end; try reflexivity.
  match goal with |- context [thrConsoleLogger ?x] => destruct (thrConsoleLogger x) end;
    try reflexivity.
  rewrite bind_eq.
  match goal with |- context [console_join ?q ?x] =>
    pose proof (console_join_returns q x) as Hc; destruct (console_join q x) as [[[] | e |] w3]
  end; simpl in *; try discriminate.
  reflexivity.
Qed.

Lemma stop_tail_queue self L now w ql :
  queues w !! queue (common L) = Some ql ->
  exists ql', queues (stop_tail self L now w) !! queue (common L) = Some (ql' ++ [None]).
Proof.
  intros Hq. unfold stop_tail. simpl. rewrite lookup_alter_eq.
  destruct now; simpl.
  - rewrite lookup_alter_eq, Hq. simpl. exists []. reflexivity.
  - rewrite Hq. simpl. exists ql. reflexivity.
Qed.

Lemma stop_tail_event self L now w :
  event_there (evtQueue (common L)) w ->
  events (stop_tail self L now w) !! evtQueue (common L) = Some true.
Proof.
  intros [b Hb]. unfold stop_tail. simpl. rewrite lookup_alter_eq.
  destruct now; simpl; rewrite Hb; reflexivity.
Qed.

Lemma stop_tail_frame self L now w :
  files (stop_tail self L now w) = files w /\
  threads (stop_tail self L now w) = threads w /\
  domains (stop_tail self L now w) = domains w.
Proof. destruct now; repeat split. Qed.

Lemma stop_tail_logger self L now w Lx :
  loggers w !! self = Some Lx ->
  loggers (stop_tail self L now w) !! self = Some (set_stopped true Lx).
Proof.
  intros H. unfold stop_tail. simpl. rewrite lookup_alter_eq.
  destruct now; simpl; rewrite H; reflexivity.
Qed.

Lemma stop_tail_CloseInv self L now w : CloseInv w -> CloseInv (stop_tail self L now w).
Proof.
  unfold CloseInv. destruct (stop_tail_frame self L now w) as (-> & _ & _). auto.
Qed.

(** [join()] raises [KeyError] when the domain is not in the registry,
    after the thread, if there is one, has ended. *)
Lemma join_lost_key w self L :
  loggers w !! self = Some L ->
  dict_has (domain L) (domains w) = false ->
  (forall t, __thrLogger L = Some t ->
     exists s ql, thread_at t self (common L) s ql w /\ None ∈ ql /\
                  events w !! evtQueue (common L) = Some true) ->
  (join self w).1 = Raise KeyError.
Proof.
  intros HL Hreg Hthr. unfold join.
  rewrite (bind_ok _ _ _ _ _ (get_logger_ok _ _ _ HL)). rewrite bind_eq.
  match goal with |- context [match ?m w with _ => _ end] =>
    assert (HA : (m w).1 = Ok tt /\ domains (m w).2 = domains w)
  end.
  { destruct (__thrLogger L) as [t |] eqn:Et; [| split; reflexivity].
    destruct (Hthr t eq_refl) as (s & ql & Hat & Hin & Hev).
    pose proof (thread_join_returns _ _ _ _ _ _ Hat Hin Hev) as Hj.
    pose proof (thread_join_pres _ (ThreadInv0 := registry_is_ThreadInv (domains w)) t w eq_refl)
      as Hd.
    rewrite bind_eq. destruct (thread_join t w) as [[[] | e |] w']; simpl in *;
      try discriminate.
    split; [reflexivity | exact Hd]. }
  destruct HA as [HA1 HA2].
  match goal with |- context [match ?m w with _ => _ end] =>
    destruct (m w) as [[[] | e |] wA]
  end; simpl in HA1, HA2; try discriminate.
  rewrite bind_eq. unfold domains_del. rewrite bind_gets, HA2, Hreg. reflexivity.
Qed.


(** ** One file for each path of the registry (C6) *)

(** C6, as the code has it: in every state that runs reach, of two loggers
    of the registry with the same [pathName] string one at most has a
    file; and a logger made for the [pathName] of a logger of the registry,
    in a directory that exists, shares the queue and the two events of a
    logger of the registry with this path, and opens no file and starts no
    thread of its own. *)
Theorem one_file_per_registered_path :
  (forall w, reachable w -> one_file_per_path w) /\
  (forall w l' L' p domain0 level0 maxSize0 backupCnt0 console0 server0 connect0 l,
     registered w l' L' -> pathName L' = Some p ->
     fs_isdir (fsys w) (dirname p) = true ->
     (Logger_init domain0 level0 (Some p) maxSize0 backupCnt0 console0 server0 connect0 w).1
       = Ok l ->
     shares_post (domains w) (loggers w) (files w) p l
       (Logger_init domain0 level0 (Some p) maxSize0 backupCnt0 console0 server0 connect0 w).2).
Proof.
  split.
  - intros w Hw. apply reachable_Inv, Hw.
  - intros w l' L' p domain0 level0 maxSize0 backupCnt0 console0 server0 connect0 l
      [[d Hd] HL'] Hp Hdir Hok.
    pose proof (Logger_init_shares (domains w) (loggers w) (fsys w) (files w) p domain0 level0
                  maxSize0 backupCnt0 console0 server0 connect0 Hdir) as HS.
    specialize (HS ltac:(exists l', L'; split; [eapply dict_get_values, Hd | split; assumption])).
    specialize (HS w ltac:(repeat split)). rewrite Hok in HS. exact HS.
Qed.

(** ** The registry and the domains of the loggers *)

Lemma has_prop_FullInv l P :
  chain_closed P -> (forall L h, P L -> P (set_F (Some h) L)) ->
  (forall L t, P L -> P (set___thrTimer (Some t) L)) ->
  (forall L, P L -> P (set___thrLogger None L)) -> FullInv (has_prop l P).
Proof.
  intros HP HF HT HN.
  pose proof (has_prop_EntryInv l P HP HF HT) as HE.
  assert (ThreadInv (has_prop l P)) as HTh.
  { constructor; try exact HE; intros; assumption. }
  constructor; try exact HTh; try (intros; assumption).
  intros x w. apply has_prop_alter. exact HN.
Qed.

(** The domain of a logger never changes. *)
Lemma domain_FullInv l d : FullInv (has_prop l (fun L => domain L = d)).
Proof.
  apply has_prop_FullInv.
  - intros L L' ? ? Hd ? ? ? H. congruence.
  - intros L h H. exact H.
  - intros L t H. exact H.
  - intros L H. exact H.
Qed.

Lemma find_shared_frame (I : World -> Prop) p values : preserves I (find_shared p values).
Proof. intros w Hw. rewrite (proj1 (find_shared_result p values w)). exact Hw. Qed.

Lemma Logger_init_fields d0 lg0 domain0 level0 pathName0 maxSize0 backupCnt0 console0
    server0 connect0 :
  hoare (frame_reg d0 lg0)
        (Logger_init domain0 level0 pathName0 maxSize0 backupCnt0 console0 server0 connect0)
        (fields_post d0 lg0 domain0 level0 pathName0 console0) (frame_reg d0 lg0).
Proof.
  unfold Logger_init.
  destruct ((maxSize0 <? 0) || (backupCnt0 <? 0) || (maxSize0 >? 0) && (backupCnt0 =? 0)).
  { apply hoare_raise. auto. }
  eapply hoare_gets_bind with (c := fresh (dom lg0)).
  { intros w [_ ->]. reflexivity. }
  do 3 frame_step. cbv zeta.
  eapply hoare_bind; [apply hoare_frame; destruct pathName0; mon | intros isd].
  eapply hoare_bind; [apply hoare_frame; mon | intros ut].
  match goal with |- hoare _ (mbind _ ?m) _ _ =>
    eapply hoare_bind with
      (Q := fun L1 w => frame_reg d0 lg0 w /\
              (domain L1 = domain0 /\ level L1 = level0 /\ pathName L1 = pathName0 /\
               __console L1 = console0 /\ stopped L1 = false /\ __thrTimer L1 = None /\
               _lastMsg L1 = mkLast None 1 None /\ buf L1 = []))
  end.
  { destruct isd; [destruct pathName0 as [p |] |].
    - eapply hoare_gets_bind with (c := map snd d0).
      { intros w [Hd _]. rewrite Hd. reflexivity. }
      eapply hoare_bind; [apply hoare_frame, find_shared_frame | intros shared].
      destruct shared as [c |].
      + apply hoare_ret. intros w Hw. split; [exact Hw |]. repeat split.
      + frame_step. frame_step.
        eapply hoare_bind; [apply hoare_frame, file_tell_frame | intros pos0].
        eapply hoare_bind; [apply hoare_frame; destruct ut; [| mon] | intros thr].
        { mon_step; [frame_prim | mon]. }
        apply hoare_ret. intros w Hw. split; [exact Hw |]. repeat split.
    - apply hoare_ret. intros w Hw. split; [exact Hw |]. repeat split.
    - apply hoare_ret. intros w Hw. split; [exact Hw |]. repeat split. }
  intros L1. apply hoare_pure. intros (H1 & H2 & H3 & H4 & H5 & H6 & H7 & H8).
  eapply hoare_bind; [apply hoare_frame; mon | intros con].
  eapply hoare_bind;
    [apply hoare_frame; destruct ut; [destruct con |]; first [solve [frame_prim] | mon]
    | intros ?].
  eapply hoare_bind; [apply hoare_frame; destruct server0; [| mon] | intros srv].
  { mon_step; [frame_prim | mon]. }
  eapply hoare_bind; [apply hoare_frame; destruct connect0; [| mon] | intros cli].
  { mon_step; [frame_prim | mon]. }
  intros w [Hd Hl]. simpl. split; [exact Hd |]. split.
  { apply not_elem_of_dom, is_fresh. }
  eexists. split; [simpl; rewrite Hl; reflexivity |]. simpl. auto 10.
Qed.

Lemma keeper_keyed {A} (m : M A) : keeper m -> preserves keyed m.
Proof.
  intros Hk w Hw d l Hd.
  apply (Hk _ (domain_FullInv l d)). apply Hw.
  revert d l Hd. apply (Hk _ (dom_sub_FullInv w)). intros d l H. exact H.
Qed.

Lemma keyed_frame w w' : frame_reg (domains w) (loggers w) w' -> keyed w -> keyed w'.
Proof. intros [Hd Hl] Hw. unfold keyed, has_prop. rewrite Hd, Hl. exact Hw. Qed.

Lemma keyed_register w1 w2 lv p con l d :
  keyed w1 -> fields_post (domains w1) (loggers w1) d lv p con l w2 ->
  keyed (upd_domains (dict_set d (Some l)) w2).
Proof.
  intros Hw (Hd & Hfresh & L & HL & Hdom & _) d' l'. simpl.
  rewrite dict_get_set, Hd. unfold has_prop. simpl. rewrite HL.
  destruct (String.eqb_spec d' d) as [-> | Hne].
  - intros [= <-]. exists L. rewrite lookup_insert_eq. auto.
  - intros H. destruct (Hw _ _ H) as (L' & HL' & HD').
    exists L'. rewrite lookup_insert_ne by congruence. auto.
Qed.

Lemma GetLogger_keyed domain0 level0 pathName0 maxSize0 backupCnt0 console0 server0 connect0 :
  preserves keyed
    (GetLogger domain0 level0 pathName0 maxSize0 backupCnt0 console0 server0 connect0).
Proof.
  intros w Hw. unfold GetLogger. rewrite bind_gets.
  destruct (domains w) as [| kv ds] eqn:Ed; [exact Hw |].
  rewrite bind_eq.
  match goal with |- context [match ?a w with _ => _ end] =>
    assert (HA : preserves keyed a)
  end.
  { apply keeper_keyed. intros I HI. mon_pres. }
  specialize (HA w Hw).
  match type of HA with keyed (?a w).2 => destruct (a w) as [[[]| e|] w1] end;
    simpl in HA |- *; try exact HA.
  rewrite bind_eq.
  pose proof (Logger_init_fields (domains w1) (loggers w1) (default "root"%string domain0) level0
                pathName0 maxSize0 backupCnt0 console0 server0 connect0 w1
                (conj eq_refl eq_refl)) as HS.
  destruct (Logger_init _ _ _ _ _ _ _ _ w1) as [[l| e|] w2]; simpl in HS |- *.
  - eapply keyed_register; eassumption.
  - eapply keyed_frame; eassumption.
  - eapply keyed_frame; eassumption.
Qed.

Lemma keyed_unregister w d g : keyed w -> keyed (upd_domains (dict_set d None) (upd_cls g w)).
Proof.
  intros Hw d' l. simpl. rewrite dict_get_set.
  destruct (String.eqb d' d); [discriminate | apply Hw].
Qed.

Lemma LogInit_keyed domain0 level0 pathName0 maxSize0 backupCnt0 console0 colors0 compress0
    useThreads0 encoding0 server0 connect0 :
  preserves keyed
    (LogInit domain0 level0 pathName0 maxSize0 backupCnt0 console0 colors0 compress0
             useThreads0 encoding0 server0 connect0).
Proof.
  intros w Hw. unfold LogInit. rewrite !bind_modify.
  match goal with |- keyed ((_ ≫= _) ?w').2 =>
    assert (Hw' : keyed w') by apply keyed_unregister, Hw; generalize dependent w' end.
  intros w' Hw'. rewrite bind_eq.
  pose proof (GetLogger_keyed (Some (default "root"%string domain0)) level0 pathName0 maxSize0
                backupCnt0 console0 server0 connect0 w' Hw') as HG.
  destruct (GetLogger _ _ _ _ _ _ _ _ w') as [[l| e|] w1]; simpl in HG |- *; try exact HG.
  rewrite bind_eq.
  match goal with |- context [match ?a w1 with _ => _ end] =>
    assert (HA : preserves keyed a)
  end.
  { apply keeper_keyed. intros I HI. destruct (colors0 && String.eqb NORMAL ""); [| mon].
    apply level_methods_full. exact HI. }
  specialize (HA w1 HG).
  match type of HA with keyed (?a w1).2 => destruct (a w1) as [[[]| e|] w2] end;
    simpl in HA |- *; exact HA.
Qed.

Lemma run_keyed c : preserves keyed (run c).
Proof.
  destruct c; simpl.
  1: { mon_step; [apply LogInit_keyed | mon]. }
  1: { mon_step; [apply GetLogger_keyed | mon]. }
  all: apply keeper_keyed; intros I HI; try solve [mon_pres];
    try solve [apply level_methods_full; exact HI].
  apply preserves_modify. intros w Hw. apply fi_clock, Hw.
Qed.

Lemma reachable_keyed w : reachable w -> keyed w.
Proof.
  induction 1 as [fs now | c w _ IH]; [| apply run_keyed, IH].
  intros d l H. discriminate.
Qed.

(** X1: in every state that runs reach, a logger of the registry is
    registered under its own domain: the key of the registry is the
    [domain] attribute of the logger, which [join] deletes. *)
Theorem registry_keys_are_domains w d l :
  reachable w -> dict_get d (domains w) = Some (Some l) ->
  exists L, loggers w !! l = Some L /\ domain L = d.
Proof. intros Hw Hd. exact (reachable_keyed w Hw d l Hd). Qed.

(** ** Stopping and joining *)

(** What a [stop()] that returned has left. *)
Lemma stop_shape w self now L :
  loggers w !! self = Some L -> (stop self now w).1 = Ok tt ->
  exists wb Lb, (stop self now w).2 = stop_tail self L now wb /\
    loggers wb !! self = Some Lb /\
    (__thrTimer Lb = None /\ common Lb = common L /\ domain Lb = domain L /\
     __thrLogger Lb = __thrLogger L) /\
    still (queues w) (threads w) (domains w) wb /\
    (forall e, event_there e w -> event_there e wb).
Proof.
  intros HL Hok.
  destruct (__thrTimer L) as [t |] eqn:HT.
  - revert Hok. unfold stop.
    rewrite (bind_ok _ _ _ _ _ (get_logger_ok _ _ _ HL)), HT.
    cbv [timer_cancel upd_logger modify mbind M_bind].
    match goal with |- context [_logMessage _ _ _ _ ?x] => set (wa := x) end.
    set (P := fun Lb => __thrTimer Lb = None /\ common Lb = common L /\
                        domain Lb = domain L /\ __thrLogger Lb = __thrLogger L).
    assert (HcP : ChainInv (has_prop self P)).
    { apply has_prop_ChainInv.
      - intros L1 L2 ? ? ? ? ? Ht (? & ? & ? & ?). unfold P.
        repeat split; try congruence. destruct Ht; congruence.
      - intros L1 h H. exact H. }
    pose proof (@logMessage_pres _ HcP self (key (_lastMsg L)) (entry (_lastMsg L))
                  (cnt (_lastMsg L)) wa) as H1.
    pose proof (@logMessage_pres _ (@entry_chain _ _ (still_EntryInv (queues w) (threads w) (domains w)))
                  self (key (_lastMsg L)) (entry (_lastMsg L)) (cnt (_lastMsg L)) wa) as H2.
    assert (H4 : forall e, event_there e wa -> event_there e
                   (_logMessage self (key (_lastMsg L)) (entry (_lastMsg L)) (cnt (_lastMsg L)) wa).2).
    { intros e. apply (@logMessage_pres _ (@entry_chain _ _ (event_there_EntryInv e))). }
    destruct (_logMessage self (key (_lastMsg L)) (entry (_lastMsg L)) (cnt (_lastMsg L)) wa)
      as [[[]| e|] wb]; simpl in *; try discriminate.
    intros _.
    destruct H1 as (Lb & HLb & HPb).
    { exists (set___thrTimer None L). split.
      - unfold wa. simpl. rewrite lookup_alter_eq, HL. reflexivity.
      - unfold P. simpl. auto. }
    exists wb, Lb. split.
    { destruct now; reflexivity. }
    split; [exact HLb |]. split; [exact HPb |].
    split; [apply H2; repeat split |].
    intros e He. apply H4. exact He.
  - rewrite (stop_no_timer _ _ _ _ HL HT). exists w, L. simpl.
    split; [reflexivity |]. split; [exact HL |]. split; [auto |].
    split; [repeat split | auto].
Qed.

Lemma stop_needs_logger w self now :
  (stop self now w).1 = Ok tt -> is_Some (loggers w !! self).
Proof.
  unfold stop, get_logger. rewrite bind_eq.
  destruct (loggers w !! self) as [L |]; simpl; [eauto | discriminate].
Qed.

(** The logger after a [stop()] that returned. *)
Lemma stop_logger w self now L :
  loggers w !! self = Some L -> (stop self now w).1 = Ok tt ->
  domains (stop self now w).2 = domains w /\
  exists L1, loggers (stop self now w).2 !! self = Some L1 /\ stopped L1 = true /\
             domain L1 = domain L /\ common L1 = common L /\ __thrTimer L1 = None /\
             __thrLogger L1 = __thrLogger L.
Proof.
  intros HL Hok.
  destruct (stop_shape _ _ _ _ HL Hok) as (wb & Lb & -> & HLb & (HT & Hc & Hd & Hth) & (_ & _ & Hds) & _).
  split.
  - destruct (stop_tail_frame self L now wb) as (_ & _ & ->). exact Hds.
  - exists (set_stopped true Lb). split; [apply stop_tail_logger, HLb |]. simpl. auto.
Qed.

(** X2: after a [stop()] that returned, [log] raises [RuntimeError]
    (["Logger already stopped"]) for every level and message, and leaves the
    state as it is; each of the named logging calls does nothing, or fails
    in the same way: nothing is logged on a stopped logger. *)
Theorem stopped_logger_refuses w self now level0 msg args kwargs :
  (stop self now w).1 = Ok tt ->
  log self level0 msg args kwargs (stop self now w).2
    = (Raise already_stopped, (stop self now w).2) /\
  refused (debug self msg args kwargs) (stop self now w).2 /\
  refused (info self msg args kwargs) (stop self now w).2 /\
  refused (warning self msg args kwargs) (stop self now w).2 /\
  refused (error self msg args kwargs) (stop self now w).2 /\
  refused (fatal self msg args kwargs) (stop self now w).2 /\
  refused (critical self msg args kwargs) (stop self now w).2 /\
  refused (exception self msg args kwargs) (stop self now w).2.
Proof.
  intros Hok. destruct (stop_needs_logger _ _ _ Hok) as [L HL].
  destruct (stop_logger _ _ _ _ HL Hok) as (_ & L1 & HL1 & Hs & _).
  set (w1 := (stop self now w).2) in *.
  assert (Hlog : forall lv m a k, __log self lv m a k w1 = (Raise already_stopped, w1)).
  { intros lv m a k. unfold __log.
    rewrite (bind_ok _ _ _ _ _ (get_logger_ok _ _ _ HL1)), Hs. reflexivity. }
  split; [apply Hlog |].
  unfold refused, debug, info, warning, error, fatal, critical, exception.
  rewrite !(bind_ok _ _ _ _ _ (get_logger_ok _ _ _ HL1)).
  repeat split;
    match goal with |- context [if ?c then _ else _] => destruct c end;
    try (left; reflexivity); right; apply Hlog.
Qed.

(** X3: a [stop()] that returned has put the [None] that ends the writer
    at the end of the queue of the logger, after the entries that were
    waiting, or alone when [now] is set, the entries that waited being
    dropped; it has set the wake event and has left the other queues, the
    registry and the threads as they were. *)
Theorem stop_queues_sentinel w self now L ql :
  loggers w !! self = Some L -> queues w !! queue (common L) = Some ql ->
  (stop self now w).1 = Ok tt ->
  queues (stop self now w).2 !! queue (common L) = Some ((if now then [] else ql) ++ [None]) /\
  (forall q, q <> queue (common L) -> queues (stop self now w).2 !! q = queues w !! q) /\
  (is_Some (events w !! evtQueue (common L)) ->
     events (stop self now w).2 !! evtQueue (common L) = Some true) /\
  domains (stop self now w).2 = domains w /\ threads (stop self now w).2 = threads w.
Proof.
  intros HL Hq Hok.
  destruct (stop_shape _ _ _ _ HL Hok)
    as (wb & Lb & -> & HLb & _ & (Hqs & Hths & Hds) & Hev).
  split; [| split; [| split]].
  - unfold stop_tail. simpl. rewrite lookup_alter_eq.
    destruct now; simpl.
    + rewrite lookup_alter_eq, Hqs, Hq. reflexivity.
    + rewrite Hqs, Hq. reflexivity.
  - intros q Hne. unfold stop_tail. simpl. rewrite lookup_alter_ne by congruence.
    destruct now; simpl; [rewrite lookup_alter_ne by congruence |]; rewrite Hqs; reflexivity.
  - intros He. apply stop_tail_event, Hev, He.
  - destruct (stop_tail_frame self L now wb) as (_ & -> & ->). split; assumption.
Qed.

Lemma console_join_frame q w :
  domains (console_join q w).2 = domains w /\ loggers (console_join q w).2 = loggers w.
Proof.
  revert w. induction q as [| [[lv m] |] q IH]; intros w; simpl; try (split; reflexivity).
  rewrite bind_eq.
  destruct (lv <? ERROR); simpl; [exact (IH (upd_stdout _ w)) | exact (IH (upd_stderr _ w))].
Qed.

Lemma dict_has_remove {V} k k' (ds : list (string * V)) :
  dict_has k (dict_remove k' ds) = negb (String.eqb k k') && dict_has k ds.
Proof.
  unfold dict_has, dict_remove. induction ds as [| [k0 v] ds IH]; simpl.
  - rewrite andb_false_r. reflexivity.
  - rewrite filter_cons. simpl.
    destruct (String.eqb_spec k0 k') as [-> | Hne]; simpl.
    + rewrite IH. destruct (String.eqb_spec k' k) as [-> | Hne'].
      * rewrite String.eqb_refl. reflexivity.
      * reflexivity.
    + rewrite IH. destruct (String.eqb_spec k0 k) as [-> | Hne']; simpl; [| reflexivity].
      destruct (String.eqb_spec k k'); [congruence | reflexivity].
Qed.

(** What a [join()] that returned has left. *)
Lemma join_shape w self L :
  loggers w !! self = Some L -> (join self w).1 = Ok tt ->
  dict_has (domain L) (domains w) = true /\
  domains (join self w).2 = dict_remove (domain L) (domains w) /\
  has_prop self (fun L' => domain L' = domain L /\ __thrLogger L' = None) (join self w).2.
Proof.
  intros HL Hok. destruct (join self w) as [r wf] eqn:E. simpl in Hok |- *. subst r.
  revert E. unfold join.
  rewrite (bind_ok _ _ _ _ _ (get_logger_ok _ _ _ HL)). rewrite bind_eq.
  match goal with |- context [match ?m w with _ => _ end] =>
    assert (HA : (m w).1 = Ok tt ->
                 domains (m w).2 = domains w /\
                 has_prop self (fun L' => domain L' = domain L /\ __thrLogger L' = None) (m w).2)
  end.
  { destruct (__thrLogger L) as [t |] eqn:Et.
    - rewrite bind_eq.
      pose proof (thread_join_pres _ (ThreadInv0 := registry_is_ThreadInv (domains w)) t w eq_refl)
        as Hd.
      pose proof (thread_join_pres _ (ThreadInv0 := @full_thread _ _ (domain_FullInv self (domain L)))
                    t w) as Hp.
      destruct (thread_join t w) as [[[] | e |] w']; simpl in *; try discriminate.
      intros _. split; [exact Hd |].
      destruct Hp as (L' & HL' & HD'); [exists L; auto |].
      exists (set___thrLogger None L'). split; [| simpl; auto].
      cbn. rewrite lookup_alter_eq, HL'. reflexivity.
    - intros _. simpl. split; [reflexivity |]. exists L. auto. }
  match goal with |- context [match ?m w with _ => _ end] =>
    destruct (m w) as [[[] | e |] wA]
  end; simpl in HA |- *; try discriminate.
  destruct (HA eq_refl) as [HdA HpA]. clear HA.
  rewrite bind_eq. unfold domains_del. rewrite bind_gets, HdA.
  destruct (dict_has (domain L) (domains w)) eqn:Hh; simpl; [| discriminate].
  rewrite bind_gets, bind_class_attr. simpl. rewrite HdA.
  assert (Hend : forall wz, domains wz = dict_remove (domain L) (domains w) ->
                   loggers wz = loggers wA ->
                   true = true /\ domains wz = dict_remove (domain L) (domains w) /\
                   has_prop self (fun L' => domain L' = domain L /\ __thrLogger L' = None) wz).
  { intros wz H1 H2. split; [reflexivity |]. split; [exact H1 |].
    unfold has_prop. rewrite H2. exact HpA. }
  destruct (dict_remove (domain L) (domains w)) eqn:Hrem;
    [destruct (thrConsoleLogger (cls wA)) as [q |] |]; simpl;
    try (intros [= <-]; apply Hend; simpl; congruence).
  rewrite bind_eq.
  match goal with |- context [console_join ?q ?x] =>
    pose proof (console_join_frame q x) as [Hc1 Hc2];
    destruct (console_join q x) as [[[] | e |] w3]
  end; simpl in *; try discriminate.
  intros [= <-]. apply Hend; simpl; congruence.
Qed.

Lemma shutdown_shape w self now L :
  loggers w !! self = Some L -> (shutdown self now w).1 = Ok tt ->
  dict_has (domain L) (domains w) = true /\
  domains (shutdown self now w).2 = dict_remove (domain L) (domains w).
Proof.
  intros HL. unfold shutdown. rewrite bind_eq.
  pose proof (stop_logger w self now L HL) as HS.
  destruct (stop self now w) as [[[] | e |] w1]; simpl in *; try discriminate.
  destruct (HS eq_refl) as (Hd & L1 & HL1 & _ & Hdom & _).
  intros Hj. destruct (join_shape _ _ _ HL1 Hj) as (H1 & H2 & _).
  rewrite Hdom, Hd in H1, H2. split; assumption.
Qed.

(** X4: a [shutdown()] that returned has found the domain of the logger in
    the registry and has deleted this key, and no other: the other domains
    are registered as before. *)
Theorem shutdown_unregisters w self now L :
  loggers w !! self = Some L -> (shutdown self now w).1 = Ok tt ->
  dict_has (domain L) (domains w) = true /\
  domains (shutdown self now w).2 = dict_remove (domain L) (domains w) /\
  dict_get (domain L) (domains (shutdown self now w).2) = None /\
  (forall d, d <> domain L ->
     dict_get d (domains (shutdown self now w).2) = dict_get d (domains w)).
Proof.
  intros HL Hok. destruct (shutdown_shape _ _ _ _ HL Hok) as [H1 H2].
  split; [exact H1 |]. split; [exact H2 |]. rewrite H2. split.
  - rewrite dict_get_remove, String.eqb_refl. reflexivity.
  - intros d Hne. rewrite dict_get_remove.
    destruct (String.eqb_spec d (domain L)); [congruence | reflexivity].
Qed.

Lemma join_needs_logger w self : (join self w).1 = Ok tt -> is_Some (loggers w !! self).
Proof.
  unfold join, get_logger. rewrite bind_eq.
  destruct (loggers w !! self) as [L |]; simpl; [eauto | discriminate].
Qed.

Lemma join_unregistered w self L :
  loggers w !! self = Some L -> __thrLogger L = None ->
  dict_has (domain L) (domains w) = false -> join self w = (Raise KeyError, w).
Proof.
  intros HL HT Hh. unfold join.
  rewrite (bind_ok _ _ _ _ _ (get_logger_ok _ _ _ HL)), HT. simpl.
  rewrite bind_eq. cbn [mret M_ret]. rewrite bind_eq.
  unfold domains_del. rewrite bind_gets, Hh. reflexivity.
Qed.

(** X5: [join()] cannot be called twice: after a [join()] that returned,
    the domain is no longer in the registry and the thread is forgotten, so
    that a second [join()] raises [KeyError] at [del domains[self.domain]]
    and changes nothing. *)
Theorem join_twice_raises w self :
  (join self w).1 = Ok tt -> join self (join self w).2 = (Raise KeyError, (join self w).2).
Proof.
  intros Hok. destruct (join_needs_logger _ _ Hok) as [L HL].
  destruct (join_shape _ _ _ HL Hok) as (_ & Hd & L2 & HL2 & Hdom & HT).
  apply (join_unregistered _ _ _ HL2 HT).
  rewrite Hd, Hdom, dict_has_remove, String.eqb_refl. reflexivity.
Qed.

Lemma GetLogger_on_logger w domain0 l level0 pathName0 maxSize0 backupCnt0 console0
    server0 connect0 :
  keyed w -> dict_get (default "root"%string domain0) (domains w) = Some (Some l) ->
  (forall r, (GetLogger domain0 level0 pathName0 maxSize0 backupCnt0 console0 server0 connect0
                w).1 <> Ok r) /\
  ((shutdown l false w).1 = Ok tt ->
   GetLogger domain0 level0 pathName0 maxSize0 backupCnt0 console0 server0 connect0 w
     = (Raise KeyError, (shutdown l false w).2)).
Proof.
  intros Hw Hd. destruct (Hw _ _ Hd) as (L & HL & Hdom).
  unfold GetLogger. rewrite bind_gets.
  destruct (domains w) as [| kv ds] eqn:Ed; [discriminate |]. rewrite <- Ed in *.
  rewrite Hd. fold (shutdown l false). rewrite !bind_eq.
  pose proof (shutdown_shape w l false L HL) as HS.
  destruct (shutdown l false w) as [[[] | e |] w2]; simpl in *.
  - destruct (HS eq_refl) as [_ H2].
    unfold domains_del. rewrite bind_gets, H2, Hdom, dict_has_remove, String.eqb_refl. simpl.
    split; [intros r; discriminate | reflexivity].
  - split; [intros r; discriminate | discriminate].
  - split; [intros r; discriminate | discriminate].
Qed.

(** X6: [GetLogger] does not replace a logger: for a domain that holds a
    logger in the registry it never returns one.  When [stop()] and
    [join()] of that logger return, [join()] has deleted the domain, and
    the [del domains[domain]] that follows raises [KeyError]. *)
Theorem GetLogger_never_replaces w domain0 l level0 pathName0 maxSize0 backupCnt0 console0
    server0 connect0 :
  reachable w -> dict_get (default "root"%string domain0) (domains w) = Some (Some l) ->
  (forall r, (GetLogger domain0 level0 pathName0 maxSize0 backupCnt0 console0 server0 connect0
                w).1 <> Ok r) /\
  ((shutdown l false w).1 = Ok tt ->
   GetLogger domain0 level0 pathName0 maxSize0 backupCnt0 console0 server0 connect0 w
     = (Raise KeyError, (shutdown l false w).2)).
Proof. intros Hw. apply GetLogger_on_logger, reachable_keyed, Hw. Qed.

Lemma dict_remove_absent {V} k (ds : list (string * V)) :
  dict_has k ds = false -> dict_remove k ds = ds.
Proof.
  unfold dict_has, dict_remove. induction ds as [| [k0 v] ds IH]; simpl; [reflexivity |].
  rewrite filter_cons. simpl. destruct (String.eqb k0 k); simpl; [discriminate |].
  intros H. rewrite IH by exact H. reflexivity.
Qed.

Lemma dict_set_after_remove {V} k (v : V) (ds : list (string * V)) :
  dict_set k v (dict_remove k ds) = dict_remove k ds ++ [(k, v)].
Proof. unfold dict_set. rewrite dict_has_remove, String.eqb_refl. reflexivity. Qed.

(** What [GetLogger] has done when it returns a logger. *)
Lemma GetLogger_result w domain0 level0 pathName0 maxSize0 backupCnt0 console0
    server0 connect0 l :
  keyed w ->
  (GetLogger domain0 level0 pathName0 maxSize0 backupCnt0 console0 server0 connect0 w).1
    = Ok l ->
  domains (GetLogger domain0 level0 pathName0 maxSize0 backupCnt0 console0 server0 connect0
             w).2
    = dict_remove (default "root"%string domain0) (domains w)
        ++ [(default "root"%string domain0, Some l)] /\
  loggers w !! l = None /\
  exists L,
    loggers (GetLogger domain0 level0 pathName0 maxSize0 backupCnt0 console0 server0 connect0
               w).2 = <[l := L]> (loggers w) /\
    domain L = default "root"%string domain0 /\ level L = level0 /\
    pathName L = pathName0 /\ __console L = console0 /\ stopped L = false.
Proof.
  intros Hw Hok.
  set (d := default "root"%string domain0) in *.
  destruct (dict_get d (domains w)) as [[l0 |] |] eqn:Hget.
  { exfalso. exact (proj1 (GetLogger_on_logger w domain0 l0 level0 pathName0 maxSize0 backupCnt0
                             console0 server0 connect0 Hw Hget) l Hok). }
  all: destruct (GetLogger domain0 level0 pathName0 maxSize0 backupCnt0 console0 server0
                   connect0 w) as [r wf] eqn:E; simpl in Hok |- *; subst r; revert E;
    unfold GetLogger; rewrite bind_gets; destruct (domains w) as [| kv ds] eqn:Ed;
    try discriminate; rewrite <- Ed in *; fold d; rewrite Hget; rewrite bind_eq.
  - (* the domain holds [None] *)
    cbn [mret M_ret]. rewrite !bind_eq. cbn [mret M_ret].
    unfold domains_del. rewrite bind_gets.
    assert (Hh : dict_has d (domains w) = true) by (apply dict_has_get; rewrite Hget; eauto).
    rewrite Hh. cbn [modify]. rewrite bind_eq.
    set (w1 := upd_domains (dict_remove d) w).
    pose proof (Logger_init_fields (domains w1) (loggers w1) d level0 pathName0 maxSize0
                  backupCnt0 console0 server0 connect0 w1 (conj eq_refl eq_refl)) as HS.
    destruct (Logger_init _ _ _ _ _ _ _ _ w1) as [[l1 | e |] w2]; simpl in HS |- *;
      try discriminate.
    intros [= <- <-]. destruct HS as (Hd2 & Hfresh & L & HL & H1 & H2 & H3 & H4 & H5 & _).
    simpl. rewrite Hd2. simpl. rewrite dict_set_after_remove.
    split; [reflexivity |]. split; [exact Hfresh |]. exists L. auto 10.
  - (* the domain is not in the registry *)
    cbn [mret M_ret]. rewrite bind_eq.
    pose proof (Logger_init_fields (domains w) (loggers w) d level0 pathName0 maxSize0
                  backupCnt0 console0 server0 connect0 w (conj eq_refl eq_refl)) as HS.
    destruct (Logger_init _ _ _ _ _ _ _ _ w) as [[l1 | e |] w2]; simpl in HS |- *;
      try discriminate.
    intros [= <- <-]. destruct HS as (Hd2 & Hfresh & L & HL & H1 & H2 & H3 & H4 & H5 & _).
    simpl. rewrite Hd2.
    assert (Hh : dict_has d (domains w) = false).
    { destruct (dict_has d (domains w)) eqn:Hh; [| reflexivity].
      apply dict_has_get in Hh as [x Hx]. congruence. }
    rewrite (dict_remove_absent _ _ Hh). unfold dict_set. rewrite Hh.
    split; [reflexivity |]. split; [exact Hfresh |]. exists L. auto 10.
Qed.

(** X7: [GetLogger] before any [LogInit], the registry empty, raises
    [ValueError] (["Call LogInit first"]) and changes nothing.  When it
    returns a logger, from a state that runs reach, this logger is a new
    object with the domain (["root"] by default), level, path and console
    flag that were given, not stopped; it is the last entry of the registry,
    under its domain, and the other entries and loggers are as they were. *)
Theorem GetLogger_registers w domain0 level0 pathName0 maxSize0 backupCnt0 console0
    server0 connect0 :
  (domains w = [] ->
   GetLogger domain0 level0 pathName0 maxSize0 backupCnt0 console0 server0 connect0 w
     = (Raise (ValueError "Call LogInit first"), w)) /\
  (forall l, reachable w ->
     (GetLogger domain0 level0 pathName0 maxSize0 backupCnt0 console0 server0 connect0 w).1
       = Ok l ->
     domains (GetLogger domain0 level0 pathName0 maxSize0 backupCnt0 console0 server0 connect0
                w).2
       = dict_remove (default "root"%string domain0) (domains w)
           ++ [(default "root"%string domain0, Some l)] /\
     loggers w !! l = None /\
     exists L,
       loggers (GetLogger domain0 level0 pathName0 maxSize0 backupCnt0 console0 server0 connect0
                  w).2 = <[l := L]> (loggers w) /\
       domain L = default "root"%string domain0 /\ level L = level0 /\
       pathName L = pathName0 /\ __console L = console0 /\ stopped L = false).
Proof.
  split.
  { intros Hd. unfold GetLogger. rewrite bind_gets, Hd. reflexivity. }
  intros l Hw. apply GetLogger_result, reachable_keyed, Hw.
Qed.

(** ** The module's [Shutdown] *)

Lemma dict_set_nodup {V} k (v : V) (ds : list (string * V)) :
  NoDup (map fst ds) -> NoDup (map fst (dict_set k v ds)).
Proof.
  intros Hn. unfold dict_set. destruct (dict_has k ds) eqn:Hh.
  - assert (Hm : map fst (map (fun kv : string * V => if String.eqb kv.1 k then (k, v) else kv) ds)
                 = map fst ds).
    { rewrite map_map. apply map_ext. intros [k0 v0]. simpl.
      destruct (String.eqb_spec k0 k) as [-> | _]; reflexivity. }
    rewrite Hm. exact Hn.
  - rewrite map_app. simpl. apply NoDup_app. split; [exact Hn |].
    split; [| apply NoDup_singleton].
    intros x Hx Hk. apply list_elem_of_singleton in Hk as ->.
    apply list_elem_of_fmap in Hx as ([k0 v0] & Hk0 & Hin). simpl in Hk0. subst k0.
    assert (dict_has k ds = true); [| congruence].
    unfold dict_has. apply existsb_exists. exists (k, v0).
    split; [apply list_elem_of_In, Hin | apply String.eqb_refl].
Qed.

Lemma dict_remove_nodup {V} k (ds : list (string * V)) :
  NoDup (map fst ds) -> NoDup (map fst (dict_remove k ds)).
Proof.
  unfold dict_remove. induction ds as [| [k0 v0] ds IH]; simpl; [auto |].
  intros Hn. apply NoDup_cons in Hn as [Hin Hn]. rewrite filter_cons. simpl.
  destruct (negb (String.eqb k0 k)); simpl; [| apply IH, Hn].
  apply NoDup_cons. split; [| apply IH, Hn].
  intros Hx. apply Hin. apply list_elem_of_fmap in Hx as (kv & Hk & Hx).
  apply list_elem_of_fmap. exists kv. split; [exact Hk |].
  apply list_elem_of_filter in Hx as [_ Hx]. exact Hx.
Qed.

Lemma nodup_FullInv : FullInv nodup_keys.
Proof.
  assert (PrimInv nodup_keys) by (apply PrimInv_no_files; intros; assumption).
  assert (ChainInv nodup_keys).
  { constructor; [assumption |]. intros x. apply rotate_generic; [assumption |].
    intros; assumption. }
  assert (EntryInv nodup_keys) by (constructor; [assumption | intros; assumption]).
  assert (ThreadInv nodup_keys) by (constructor; try assumption; intros; assumption).
  constructor; try assumption; try (intros; assumption).
  intros k w Hw. apply dict_remove_nodup, Hw.
Qed.

Lemma Logger_init_domains domain0 level0 pathName0 maxSize0 backupCnt0 console0 server0
    connect0 w :
  domains (Logger_init domain0 level0 pathName0 maxSize0 backupCnt0 console0 server0 connect0
             w).2 = domains w.
Proof.
  pose proof (Logger_init_fields (domains w) (loggers w) domain0 level0 pathName0 maxSize0
                backupCnt0 console0 server0 connect0 w (conj eq_refl eq_refl)) as HS.
  destruct (Logger_init _ _ _ _ _ _ _ _ w) as [[l | e |] w2]; simpl in *;
    [destruct HS as [H _] | destruct HS as [H _] ..]; exact H.
Qed.

Lemma GetLogger_nodup domain0 level0 pathName0 maxSize0 backupCnt0 console0 server0 connect0 :
  preserves nodup_keys
    (GetLogger domain0 level0 pathName0 maxSize0 backupCnt0 console0 server0 connect0).
Proof.
  intros w Hw. unfold GetLogger. rewrite bind_gets.
  destruct (domains w) as [| kv ds] eqn:Ed; [exact Hw |].
  rewrite bind_eq.
  match goal with |- context [match ?a w with _ => _ end] =>
    assert (HA : preserves nodup_keys a)
  end.
  { pose proof nodup_FullInv. mon_pres. }
  specialize (HA w Hw).
  match type of HA with nodup_keys (?a w).2 => destruct (a w) as [[[]| e|] w1] end;
    simpl in HA |- *; try exact HA.
  rewrite bind_eq.
  pose proof (Logger_init_domains (default "root"%string domain0) level0 pathName0 maxSize0
                backupCnt0 console0 server0 connect0 w1) as HS.
  destruct (Logger_init _ _ _ _ _ _ _ _ w1) as [[l| e|] w2]; simpl in HS |- *;
    unfold nodup_keys in *; simpl; rewrite HS; [apply dict_set_nodup |..]; exact HA.
Qed.

Lemma LogInit_nodup domain0 level0 pathName0 maxSize0 backupCnt0 console0 colors0 compress0
    useThreads0 encoding0 server0 connect0 :
  preserves nodup_keys
    (LogInit domain0 level0 pathName0 maxSize0 backupCnt0 console0 colors0 compress0
             useThreads0 encoding0 server0 connect0).
Proof.
  intros w Hw. unfold LogInit. rewrite !bind_modify.
  match goal with |- nodup_keys ((_ ≫= _) ?w').2 =>
    assert (Hw' : nodup_keys w') by (apply dict_set_nodup, Hw); generalize dependent w' end.
  intros w' Hw'. rewrite bind_eq.
  pose proof (GetLogger_nodup (Some (default "root"%string domain0)) level0 pathName0 maxSize0
                backupCnt0 console0 server0 connect0 w' Hw') as HG.
  destruct (GetLogger _ _ _ _ _ _ _ _ w') as [[l| e|] w1]; simpl in HG |- *; try exact HG.
  rewrite bind_eq.
  match goal with |- context [match ?a w1 with _ => _ end] =>
    assert (HA : preserves nodup_keys a)
  end.
  { pose proof nodup_FullInv as HI. destruct (colors0 && String.eqb NORMAL ""); [| mon].
    apply level_methods_full. exact HI. }
  specialize (HA w1 HG).
  match type of HA with nodup_keys (?a w1).2 => destruct (a w1) as [[[]| e|] w2] end;
    simpl in HA |- *; exact HA.
Qed.

Lemma run_nodup c : preserves nodup_keys (run c).
Proof.
  pose proof nodup_FullInv as HI.
  destruct c; simpl.
  1: { mon_step; [apply LogInit_nodup | mon]. }
  1: { mon_step; [apply GetLogger_nodup | mon]. }
  all: try solve [mon_pres]; try solve [apply level_methods_full; exact HI].
Qed.

Lemma reachable_nodup w : reachable w -> nodup_keys w.
Proof.
  induction 1 as [fs now | c w _ IH]; [apply NoDup_nil_2 | apply run_nodup, IH].
Qed.

Lemma dict_get_elem {V} k (v : V) (ds : list (string * V)) :
  NoDup (map fst ds) -> (k, v) ∈ ds -> dict_get k ds = Some v.
Proof.
  unfold dict_get. induction ds as [| [k0 v0] ds IH]; simpl; intros Hn Hin.
  - inversion Hin.
  - apply NoDup_cons in Hn as [Hni Hn].
    apply elem_of_cons in Hin as [[= <- <-] | Hin].
    + rewrite String.eqb_refl. reflexivity.
    + destruct (String.eqb_spec k0 k) as [-> | Hne]; [| apply IH; assumption].
      exfalso. apply Hni. apply list_elem_of_fmap. exists (k, v). auto.
Qed.

Lemma dict_has_keys {V} k (ds : list (string * V)) :
  dict_has k ds = true -> k ∈ map fst ds.
Proof.
  unfold dict_has. intros H. apply existsb_exists in H as ([k0 v0] & Hin & Hk).
  simpl in Hk. apply String.eqb_eq in Hk as ->.
  apply list_elem_of_fmap. exists (k, v0). split; [reflexivity | apply list_elem_of_In, Hin].
Qed.

(** The loop of [Shutdown] over the entries that the registry had at the
    start of it. *)
Lemma shutdown_all now rest : forall w,
  (forall k, dict_has k (domains w) = true -> k ∈ map fst rest) ->
  (forall k l, (k, Some l) ∈ rest -> has_prop l (fun L => domain L = k) w) ->
  forall wf, for_each (map snd rest) (fun v => l ← unwrap AttributeError v; shutdown l now) w
             = (Ok tt, wf) ->
  domains wf = [].
Proof.
  induction rest as [| [k v] rest IH]; intros w Hkeys Hdom wf; simpl.
  - intros [= <-]. destruct (domains w) as [| [k v] ds] eqn:Ed; [reflexivity |].
    specialize (Hkeys k). simpl in Hkeys.
    rewrite String.eqb_refl in Hkeys. specialize (Hkeys eq_refl). inversion Hkeys.
  - rewrite bind_eq. destruct v as [l |]; simpl; [| discriminate].
    destruct (Hdom k l (list_elem_of_here _ _)) as (L & HL & HD).
    pose proof (shutdown_shape w l now L HL) as HS.
    assert (HP : forall k' l', (k', Some l') ∈ rest ->
              has_prop l' (fun L => domain L = k') (shutdown l now w).2).
    { intros k' l' Hin. apply (shutdown_pres _ (FullInv0 := domain_FullInv l' k')).
      apply Hdom. apply list_elem_of_further, Hin. }
    rewrite bind_eq. cbn [mret M_ret].
    destruct (shutdown l now w) as [[[] | e |] w1]; simpl in HS, HP |- *; try discriminate.
    destruct (HS eq_refl) as [_ H2].
    apply IH; [| exact HP].
    intros k' Hh. rewrite H2, dict_has_remove in Hh.
    apply andb_true_iff in Hh as [Hne Hh]. apply Hkeys in Hh.
    simpl in Hh. apply elem_of_cons in Hh as [-> | Hh]; [| exact Hh].
    rewrite HD, String.eqb_refl in Hne. discriminate.
Qed.

(** X8: when the module's [Shutdown] returns, from a state that runs
    reach, the registry is empty: every logger that was registered has been
    shut down and has deleted its own domain. *)
Theorem Shutdown_empties_registry w now :
  reachable w -> (Shutdown now w).1 = Ok tt -> domains (Shutdown now w).2 = [].
Proof.
  intros Hw Hok. destruct (Shutdown now w) as [r wf] eqn:E. simpl in *. subst r.
  revert E. unfold Shutdown. rewrite bind_gets. apply shutdown_all.
  - intros k. apply dict_has_keys.
  - intros k l Hin. apply (reachable_keyed w Hw).
    apply dict_get_elem; [apply reachable_nodup, Hw | exact Hin].
Qed.

(** ** What a message does *)

(** A computation that always returns. *)
Lemma returns_of {A} (m : M A) :
  raises_only (fun _ => False) m -> no_hang m -> forall w, exists a, (m w).1 = Ok a.
Proof.
  intros Hr Hh w. specialize (Hr w). specialize (Hh w).
  destruct (m w).1 as [a | e |]; [eauto | destruct (Hr e eq_refl) | congruence].
Qed.

Lemma report_error_returns e w : (report_error e w).1 = Ok tt.
Proof. reflexivity. Qed.

Lemma console_message_returns lv kw message w : (console_message lv kw message w).1 = Ok tt.
Proof.
  unfold console_message. rewrite !bind_class_attr.
  destruct (thrConsoleLogger (cls w)); [reflexivity |].
  destruct (lv <? ERROR); reflexivity.
Qed.

(** The part of [_logMessage] after the text is made. *)
Lemma logMessage_tail_returns self L e message w :
  ((returned ← try_except (buffer_message self message)
                          (fun ex => report_error ex;; mret false);
    if returned : bool then mret tt
    else
      (if __console L || truthy (default (VBool false) (e_kwargs e !! "console"%string))
       then console_message (e_level e) (e_kwargs e) message else mret tt);;
      upd_logger self (fun L => match client L with
                                | Some sent => set_client (Some (sent ++ [Some e])) L
                                | None => L
                                end)) w).1 = Ok tt.
Proof.
  rewrite bind_eq. unfold try_except.
  pose proof (buffer_message_no_hang self message w) as Hh.
  destruct (buffer_message self message w) as [[b | ex |] w1]; simpl in Hh; [| | congruence].
  - destruct b; [reflexivity |]. rewrite bind_eq.
    destruct (__console L || _).
    + pose proof (console_message_returns (e_level e) (e_kwargs e) message w1) as Hc.
      destruct (console_message _ _ _ w1) as [[[] | ex |] w2]; simpl in Hc; try discriminate.
      reflexivity.
    + reflexivity.
  - rewrite bind_eq. pose proof (report_error_returns ex w1) as Hr.
    destruct (report_error ex w1) as [[[] | ex' |] w2]; simpl in Hr; try discriminate.
    cbn [mret M_ret]. rewrite bind_eq.
    destruct (__console L || _).
    + pose proof (console_message_returns (e_level e) (e_kwargs e) message w2) as Hc.
      destruct (console_message _ _ _ w2) as [[[] | ex' |] w3]; simpl in Hc; try discriminate.
      reflexivity.
    + reflexivity.
Qed.

(** X9: a message is never lost to an exception of the file: with the
    default formatter and a level that has a symbol, [_logMessage] returns
    for every logger and entry, whatever state the file object, the buffer
    and the file system are in; what [write], [flush], [close], the rotation
    or a writer hook raise is caught in the method. *)
Theorem logMessage_survives_file_errors w self L key0 e cnt0 :
  loggers w !! self = Some L -> cbFormatter (cls w) = None ->
  is_Some (LOG2SYM !! e_level e) ->
  (_logMessage self key0 (Some e) cnt0 w).1 = Ok tt.
Proof.
  intros HL Hfmt [sym Hsym]. unfold _logMessage.
  rewrite bind_eq. unfold backlog_append at 1. cbn [modify unwrap].
  rewrite bind_eq. cbn [mret M_ret].
  set (w1 := upd_cls _ w).
  assert (HL1 : loggers w1 !! self = Some L) by exact HL.
  assert (Hfmt1 : cbFormatter (cls w1) = None).
  { unfold w1. simpl. destruct (backlog (cls w)); exact Hfmt. }
  rewrite (bind_ok _ _ _ _ _ (get_logger_ok _ _ _ HL1)).
  rewrite bind_class_attr, Hfmt1. rewrite bind_eq, bind_class_attr.
  unfold default_format. rewrite Hsym. cbn [unwrap]. rewrite bind_eq. cbn [mret M_ret].
  destruct (e_kwargs e !! "exc_info"%string) as [x |]; cbn [mret M_ret];
    destruct key0 as [k |]; rewrite ?bind_eq; cbn [upd_logger modify mret M_ret];
    apply logMessage_tail_returns.
Qed.

(** The class after [Logger.backlog.append]: the backlog apart, as it
    was. *)
Lemma backlog_append_cls x w :
  exists c', backlog_append x w = (Ok tt, upd_cls (fun _ => c') w) /\ same_config c' (cls w).
Proof.
  unfold backlog_append, modify, upd_cls, same_config.
  destruct (backlog (cls w)) eqn:E; eexists; (split; [reflexivity |]);
    simpl; repeat split.
Qed.

(** [__writePending] with the default writer: the buffer goes to the file
    object in one [write], and is emptied. *)
Lemma writePending_default w self L h f :
  loggers w !! self = Some L -> buf L <> [] -> cbWriter (cls w) = None ->
  F L = Some h -> files w !! h = Some f -> fo_closed f = false ->
  __writePending self w =
    (Ok tt, upd_files (insert h (mkFO (fo_ino f) false
                                      (fo_wbuf f +:+ String.concat "" (buf L)) (fo_closes f)))
              (upd_loggers (alter (fun L => set_size 0 (set_buf [] L)) self) w)).
Proof.
  intros HL Hb Hw HF Hf Hc. unfold __writePending.
  rewrite (bind_ok _ _ _ _ _ (get_logger_ok _ _ _ HL)).
  destruct (buf L) as [| b0 bs] eqn:Eb; [congruence |].
  rewrite bind_class_attr, Hw. rewrite bind_eq. cbn [upd_logger modify]. rewrite HF.
  cbn [unwrap]. rewrite bind_eq. cbn [mret M_ret].
  unfold file_write, get_file. rewrite bind_eq. cbn [files upd_loggers]. rewrite Hf.
  cbn [unwrap mret M_ret]. rewrite Hc. reflexivity.
Qed.

(** [_logMessage] with the default formatter, up to the text. *)
Lemma logMessage_default w self L key0 e cnt0 sym :
  loggers w !! self = Some L -> cbFormatter (cls w) = None ->
  LOG2SYM !! e_level e = Some sym -> e_kwargs e !! "exc_info"%string = None ->
  exists c1, same_config c1 (cls w) /\
    _logMessage self key0 (Some e) cnt0 w =
      message_tail self L e (prefixed key0 cnt0 (text_of (dateFmt (cls w)) e sym))
        (match key0 with
         | Some _ => upd_loggers (alter (set__lastMsg (mkLast key0 1 (Some e))) self)
                       (upd_cls (fun _ => c1) w)
         | None => upd_cls (fun _ => c1) w
         end).
Proof.
  intros HL Hfmt Hsym Hexc. unfold _logMessage.
  destruct (backlog_append_cls (BEntry (Some e)) w) as (c1 & Hb & Hsame).
  exists c1. split; [exact Hsame |].
  destruct Hsame as (Hdf1 & _ & Hfmt1 & _).
  rewrite (bind_ok _ _ _ _ _ Hb). cbn [unwrap]. rewrite bind_eq. cbn [mret M_ret].
  set (w1 := upd_cls _ w).
  assert (HL1 : loggers w1 !! self = Some L) by exact HL.
  rewrite (bind_ok _ _ _ _ _ (get_logger_ok _ _ _ HL1)).
  rewrite bind_class_attr. cbn [cls upd_cls w1]. rewrite Hfmt1, Hfmt.
  rewrite bind_eq, bind_class_attr. cbn [cls upd_cls w1]. rewrite Hdf1.
  unfold default_format. rewrite Hsym, Hexc. cbn [unwrap]. rewrite bind_eq. cbn [mret M_ret].
  fold (text_of (dateFmt (cls w)) e sym).
  destruct key0 as [k |]; rewrite ?bind_eq; cbn [upd_logger modify mret M_ret]; reflexivity.
Qed.

Lemma buffer_message_through w self L h f message :
  loggers w !! self = Some L -> F L = Some h -> files w !! h = Some f ->
  fo_closed f = false -> maxSize (common L) = 0 -> useThreads (cls w) = false ->
  cbWriter (cls w) = None ->
  buffer_message self message w =
    (Ok true,
     upd_files (insert h (mkFO (fo_ino f) false
                               (fo_wbuf f +:+ String.concat "" (buf L ++ [(message +:+ nl)%string]))
                               (fo_closes f)))
       (upd_loggers (alter (fun L => set_size 0 (set_buf [] L)) self)
          (upd_loggers (alter (buffered message) self) w))).
Proof.
  intros HL HF Hf Hc Hm Hut Hwr. unfold buffer_message.
  rewrite (bind_ok _ _ _ _ _ (get_logger_ok _ _ _ HL)), HF.
  rewrite bind_eq. cbn [upd_logger modify]. rewrite bind_class_attr. cbn [cls upd_loggers].
  rewrite Hut, Hm. cbn [Z.eqb negb]. rewrite orb_true_r. rewrite bind_eq.
  fold (buffered message).
  set (wA := upd_loggers (alter (buffered message) self) w).
  assert (HLA : loggers wA !! self = Some (buffered message L)).
  { unfold wA. cbn. rewrite lookup_alter_eq, HL. reflexivity. }
  match goal with |- context [__writePending self ?x] => change x with wA end.
  rewrite (writePending_default wA self _ h f HLA); try assumption.
  - reflexivity.
  - cbn. destruct (buf L); discriminate.
Qed.

Lemma buffer_message_kept w self L h message :
  loggers w !! self = Some L -> F L = Some h -> maxSize (common L) <> 0 ->
  pos L + (Z.of_nat (String.length message) + 1) < maxSize (common L) ->
  buffer_message self message w =
    (Ok false,
     upd_loggers (alter (fun L => set_pos (pos L + (Z.of_nat (String.length message) + 1)) L) self)
       (upd_loggers (alter (buffered message) self) w)).
Proof.
  intros HL HF Hm Hlt. unfold buffer_message.
  rewrite (bind_ok _ _ _ _ _ (get_logger_ok _ _ _ HL)), HF.
  rewrite bind_eq. cbn [upd_logger modify]. rewrite bind_class_attr.
  destruct (Z.eqb_spec (maxSize (common L)) 0) as [? | _]; [congruence |].
  rewrite bind_eq. cbn [modify].
  destruct (Z.geb_spec (pos L + (Z.of_nat (String.length message) + 1)) (maxSize (common L)));
    [lia |].
  reflexivity.
Qed.

(** [__log] without the writer thread and without coalescing. *)
Lemma log_direct w self L level0 msg args kwargs msg' :
  loggers w !! self = Some L -> stopped L = false -> formatted msg args = Some msg' ->
  useThreads (cls w) = false -> sameMsgCountMax (cls w) <= 0 ->
  log self level0 msg args kwargs w =
    _logMessage self None (Some (mkEntry (clock w) (domain L) level0 msg' kwargs)) 0 w.
Proof.
  intros HL Hs Hf Hut Hsm. unfold log. rewrite (log_unfold _ _ _ _ _ _ _ _ HL Hs Hf), Hut.
  cbn [negb orb]. destruct (Z.gtb_spec (sameMsgCountMax (cls w)) 0); [lia | reflexivity].
Qed.

(** X10: without the writer thread and with [maxSize = 0], a logging call
    on a logger with a file hands the line to the file object at once: the
    text of the default formatter and a newline, after what the buffer
    held, in one [write]; the buffer is left empty.  The method returns
    from inside its [try] block: nothing goes to the console, whatever
    the [console] flag of the logger, and nothing to the standard error. *)
Theorem sync_log_writes_through w self L h f level0 msg args kwargs msg' sym :
  loggers w !! self = Some L -> stopped L = false -> F L = Some h ->
  files w !! h = Some f -> fo_closed f = false -> maxSize (common L) = 0 ->
  useThreads (cls w) = false -> sameMsgCountMax (cls w) <= 0 ->
  cbFormatter (cls w) = None -> cbWriter (cls w) = None ->
  formatted msg args = Some msg' -> LOG2SYM !! level0 = Some sym ->
  kwargs !! "exc_info"%string = None ->
  exists w',
    log self level0 msg args kwargs w = (Ok tt, w') /\
    files w' =
      <[h := mkFO (fo_ino f) false
               (fo_wbuf f +:+
                String.concat ""
                  (buf L ++ [(text_of (dateFmt (cls w))
                                (mkEntry (clock w) (domain L) level0 msg' kwargs) sym
                              +:+ nl)%string]))
               (fo_closes f)]> (files w) /\
    (exists L', loggers w' !! self = Some L' /\ buf L' = [] /\ size L' = 0 /\
                F L' = Some h /\ pos L' = pos L) /\
    (forall l, l <> self -> loggers w' !! l = loggers w !! l) /\
    stdout w' = stdout w /\ stderr w' = stderr w /\ fsys w' = fsys w /\
    queues w' = queues w.
Proof.
  intros HL Hs HF Hf Hc Hm Hut Hsm Hfmt Hwr Hform Hsym Hexc.
  rewrite (log_direct _ _ _ _ _ _ _ _ HL Hs Hform Hut Hsm).
  set (e := mkEntry (clock w) (domain L) level0 msg' kwargs).
  destruct (logMessage_default w self L None e 0 sym HL Hfmt Hsym Hexc)
    as (c1 & Hsame & ->).
  destruct Hsame as (_ & _ & _ & Hwr1 & _ & _ & Hut1 & _).
  unfold message_tail. rewrite bind_eq. unfold try_except. cbn [prefixed].
  set (w1 := upd_cls (fun _ => c1) w).
  assert (HL1 : loggers w1 !! self = Some L) by exact HL.
  assert (Hf1 : files w1 !! h = Some f) by exact Hf.
  rewrite (buffer_message_through w1 self L h f _ HL1 HF Hf1 Hc Hm);
    [| cbn; congruence | cbn; congruence].
  eexists. split; [reflexivity |]. cbn.
  split; [reflexivity |]. split; [| split; [| auto]].
  - eexists. rewrite !lookup_alter_eq, HL. cbn. split; [reflexivity |]. auto.
  - intros l Hne. rewrite !lookup_alter_ne by congruence. reflexivity.
Qed.

(** X11: with [maxSize > 0] a line that does not reach the size is kept
    in the buffer of the logger: the file object and the file system are
    not touched, [size] and [pos] go up by the length of the line.  The
    method goes on to the console: a logger with the [console] flag prints
    the text to the standard output when the level is below [ERROR], to
    the standard error otherwise. *)
Theorem sized_log_is_buffered w self L h level0 msg args kwargs msg' sym :
  loggers w !! self = Some L -> stopped L = false -> F L = Some h ->
  maxSize (common L) <> 0 ->
  useThreads (cls w) = false -> sameMsgCountMax (cls w) <= 0 ->
  cbFormatter (cls w) = None -> colors (cls w) = false -> thrConsoleLogger (cls w) = None ->
  formatted msg args = Some msg' -> LOG2SYM !! level0 = Some sym ->
  kwargs !! "exc_info"%string = None -> kwargs !! "console"%string = None ->
  let text := text_of (dateFmt (cls w)) (mkEntry (clock w) (domain L) level0 msg' kwargs) sym in
  pos L + (Z.of_nat (String.length text) + 1) < maxSize (common L) ->
  exists w',
    log self level0 msg args kwargs w = (Ok tt, w') /\
    files w' = files w /\ fsys w' = fsys w /\
    (exists L', loggers w' !! self = Some L' /\ buf L' = buf L ++ [(text +:+ nl)%string] /\
                size L' = size L + (Z.of_nat (String.length text) + 1) /\
                pos L' = pos L + (Z.of_nat (String.length text) + 1) /\ F L' = Some h) /\
    stdout w' = (if __console L && (level0 <? ERROR) then stdout w ++ [text] else stdout w) /\
    stderr w' = (if __console L && negb (level0 <? ERROR) then stderr w ++ [text]
                 else stderr w).
Proof.
  intros HL Hs HF Hm Hut Hsm Hfmt Hcol Hcon Hform Hsym Hexc Hkw text Hlt.
  rewrite (log_direct _ _ _ _ _ _ _ _ HL Hs Hform Hut Hsm).
  set (e := mkEntry (clock w) (domain L) level0 msg' kwargs) in *.
  destruct (logMessage_default w self L None e 0 sym HL Hfmt Hsym Hexc)
    as (c1 & Hsame & ->).
  destruct Hsame as (_ & _ & _ & _ & Hcol1 & _ & _ & _ & _ & _ & Hcon1).
  unfold message_tail. rewrite bind_eq. unfold try_except. cbn [prefixed]. fold text.
  set (w1 := upd_cls (fun _ => c1) w).
  assert (HL1 : loggers w1 !! self = Some L) by exact HL.
  rewrite (buffer_message_kept w1 self L h _ HL1 HF Hm Hlt).
  rewrite bind_eq. cbn [e_kwargs e]. rewrite Hkw. cbn [default truthy]. rewrite orb_false_r.
  destruct (__console L) eqn:Econ.
  - unfold console_message. rewrite !bind_class_attr. cbn [cls upd_loggers upd_cls].
    change (cls w1) with c1. rewrite Hcol1, Hcol, Hcon1, Hcon. cbn [e_level e andb].
    destruct (level0 <? ERROR); cbn [negb];
      (eexists; split; [reflexivity |]; cbn;
       split; [reflexivity |]; split; [reflexivity |]; split; [| auto];
       eexists; rewrite !lookup_alter_eq, HL; cbn; split; [reflexivity |];
       destruct (client L); cbn; auto).
  - cbn [andb]. eexists. split; [reflexivity |]. cbn.
    split; [reflexivity |]. split; [reflexivity |]. split; [| auto].
    eexists. rewrite !lookup_alter_eq, HL. cbn. split; [reflexivity |].
    destruct (client L); cbn; auto.
Qed.

(** ** The end of the writer thread *)

Lemma append_nil_r (s : string) : (s +:+ "")%string = s.
Proof.
  induction s as [| a s IH]; [reflexivity |].
  change (String a (s +:+ "")%string = String a s). rewrite IH. reflexivity.
Qed.

Lemma append_assoc (a b c : string) : ((a +:+ b) +:+ c)%string = (a +:+ (b +:+ c))%string.
Proof.
  induction a as [| x a IH]; [reflexivity |].
  change (String x ((a +:+ b) +:+ c)%string = String x (a +:+ (b +:+ c))%string).
  rewrite IH. reflexivity.
Qed.

(** [flush()] and [close()] on an open file object. *)
Lemma flush_close_eq w h f :
  files w !! h = Some f -> fo_closed f = false ->
  (file_flush h;; file_close h) w =
    (Ok tt,
     upd_files (insert h (mkFO (fo_ino f) true "" (S (fo_closes f))))
       (upd_fsys (fun fs => fs_append fs (fo_ino f) "")
          (upd_files (insert h (mkFO (fo_ino f) false "" (fo_closes f)))
             (upd_fsys (fun fs => fs_append fs (fo_ino f) (fo_wbuf f)) w)))).
Proof.
  intros Hf Hc. rewrite bind_eq. unfold file_flush, get_file. rewrite bind_eq, Hf.
  cbn [unwrap mret M_ret]. rewrite Hc. cbn [modify].
  unfold file_close, get_file. rewrite bind_eq. cbn [files upd_files upd_fsys].
  rewrite lookup_insert_eq. reflexivity.
Qed.

Lemma fs_append_twice fs i d :
  inodes (fs_append (fs_append fs i d) i "") !! i
    = Some (default ""%string (inodes fs !! i) +:+ d)%string /\
  tree (fs_append (fs_append fs i d) i "") = tree fs /\
  (forall j, j <> i -> inodes (fs_append (fs_append fs i d) i "") !! j = inodes fs !! j).
Proof.
  unfold fs_append. cbn. split; [| split; [reflexivity |]].
  - rewrite lookup_insert_eq, lookup_insert_eq. cbn. rewrite append_nil_r. reflexivity.
  - intros j Hne. rewrite !lookup_insert_ne by congruence. reflexivity.
Qed.

(** X12: the pass of the writer thread that takes the [None] from the
    queue ends the thread and leaves the file complete: with the default
    writer, what the file object held and what the buffer of the logger
    held are on disk, in this order, after what the file had; the file
    object is closed, by one [close()]; the logger has no file and an empty
    buffer. *)
Theorem writer_flushes_and_closes w self L h f r :
  loggers w !! self = Some L -> queues w !! queue (common L) = Some (None :: r) ->
  F L = Some h -> files w !! h = Some f -> fo_closed f = false ->
  cbWriter (cls w) = None ->
  exists w',
    logThread_pass self w = (Ok TDone, w') /\
    queues w' = <[queue (common L) := r]> (queues w) /\
    files w' = <[h := mkFO (fo_ino f) true "" (S (fo_closes f))]> (files w) /\
    inodes (fsys w') !! fo_ino f
      = Some (default ""%string (inodes (fsys w) !! fo_ino f)
              +:+ (fo_wbuf f +:+ String.concat "" (buf L)))%string /\
    tree (fsys w') = tree (fsys w) /\
    (forall j, j <> fo_ino f -> inodes (fsys w') !! j = inodes (fsys w) !! j) /\
    exists L', loggers w' !! self = Some L' /\ F L' = None /\ buf L' = [].
Proof.
  intros HL Hq HF Hf Hc Hwr. unfold logThread_pass.
  rewrite (bind_ok _ _ _ _ _ (get_logger_ok _ _ _ HL)).
  rewrite bind_eq. unfold queue_popleft. rewrite Hq, HF.
  set (wq := upd_queues (insert (queue (common L)) r) w).
  assert (HLq : loggers wq !! self = Some L) by exact HL.
  assert (Hfq : files wq !! h = Some f) by exact Hf.
  rewrite bind_eq. rewrite bind_eq.
  destruct (buf L) as [| b0 bs] eqn:Eb.
  - cbn [mret M_ret].
    rewrite <- (bind_assoc_eq (file_flush h) (fun _ => file_close h)).
    rewrite bind_eq, (flush_close_eq wq h f Hfq Hc). cbn [upd_logger modify mret M_ret].
    destruct (fs_append_twice (fsys w) (fo_ino f) (fo_wbuf f)) as (H1 & H2 & H3).
    eexists. split; [reflexivity |]. cbn -[fs_append].
    split; [reflexivity |]. split; [apply insert_insert_eq |].
    split; [rewrite append_nil_r; exact H1 |]. split; [exact H2 |]. split; [exact H3 |].
    eexists. rewrite lookup_alter_eq, HL. cbn. split; [reflexivity |]. auto.
  - rewrite (writePending_default wq self L h f HLq); try assumption;
      [| rewrite Eb; discriminate].
    rewrite Eb.
    set (f1 := mkFO (fo_ino f) false (fo_wbuf f +:+ String.concat "" (b0 :: bs)) (fo_closes f)).
    set (w1 := upd_files (insert h f1) _).
    assert (Hf1 : files w1 !! h = Some f1) by (unfold w1; cbn; apply lookup_insert_eq).
    rewrite <- (bind_assoc_eq (file_flush h) (fun _ => file_close h)).
    rewrite bind_eq, (flush_close_eq w1 h f1 Hf1 eq_refl). cbn [upd_logger modify mret M_ret].
    destruct (fs_append_twice (fsys w) (fo_ino f) (fo_wbuf f1)) as (H1 & H2 & H3).
    eexists. split; [reflexivity |]. cbn -[fs_append].
    split; [reflexivity |]. split; [rewrite !insert_insert_eq; reflexivity |].
    split; [exact H1 |]. split; [exact H2 |]. split; [exact H3 |].
    eexists. rewrite !lookup_alter_eq, HL. cbn. split; [reflexivity |]. auto.
Qed.

(** ** Messages in a row *)

(** X13: with [sameMsgCountMax > 0] and without the writer thread, a
    message whose text is the key of the last message, the count below the
    maximum, is counted and not written: the logger stores the entry and
    the count, one higher, and, when it has no timer, arms one, bound to
    this entry and the count [0]; files, buffer and streams are left alone.
    The level plays no part: the key is the text of the message. *)
Theorem repeated_message_is_counted w self L level0 msg args kwargs msg' :
  loggers w !! self = Some L -> stopped L = false -> formatted msg args = Some msg' ->
  useThreads (cls w) = false \/ __thrLogger L = None ->
  sameMsgCountMax (cls w) > 0 -> cbMessageKey (cls w) = None ->
  key (_lastMsg L) = Some msg' -> cnt (_lastMsg L) < sameMsgCountMax (cls w) ->
  let e := mkEntry (clock w) (domain L) level0 msg' kwargs in
  log self level0 msg args kwargs w =
    (Ok tt,
     match __thrTimer L with
     | Some _ => upd_loggers (alter (counted (_lastMsg L) e) self) w
     | None =>
         upd_loggers (alter (set___thrTimer (Some (fresh (dom (timers w))))) self)
           (upd_timers (insert (fresh (dom (timers w)))
                               (mkTimer (sameMsgTimeout (cls w)) self (Some msg') (Some e) 0 Armed))
              (upd_loggers (alter (counted (_lastMsg L) e) self) w))
     end).
Proof.
  intros HL Hs Hform Hmode Hsm Hmk Hkey Hcnt e. unfold log.
  rewrite (log_unfold _ _ _ _ _ _ _ _ HL Hs Hform). fold e.
  assert (Hc : negb (useThreads (cls w)) || bool_decide (__thrLogger L = None) = true).
  { destruct Hmode as [-> | ->]; [reflexivity | apply orb_true_r]. }
  rewrite Hc. destruct (Z.gtb_spec (sameMsgCountMax (cls w)) 0) as [_ | ?]; [| lia].
  unfold __logEntry. rewrite (bind_ok _ _ _ _ _ (get_logger_ok _ _ _ HL)).
  rewrite bind_class_attr, Hmk. rewrite bind_eq. cbn [mret M_ret]. rewrite bind_class_attr.
  cbn [e_msg e]. rewrite <- Hkey. rewrite bool_decide_eq_true_2 by reflexivity.
  destruct (Z.ltb_spec (cnt (_lastMsg L)) (sameMsgCountMax (cls w))) as [_ | ?]; [| lia].
  cbn [andb]. rewrite bind_eq. cbn [upd_logger modify].
  destruct (__thrTimer L) as [t |]; [reflexivity |].
  rewrite bind_class_attr. reflexivity.
Qed.

(** ** [LogInit] *)

Lemma code_invalid_guard maxSize0 backupCnt0 :
  code_invalid maxSize0 backupCnt0 ->
  (maxSize0 <? 0) || (backupCnt0 <? 0) || (maxSize0 >? 0) && (backupCnt0 =? 0) = true.
Proof.
  unfold code_invalid. rewrite !orb_true_iff, andb_true_iff.
  rewrite !Z.ltb_lt, Z.gtb_lt, Z.eqb_eq. lia.
Qed.

(** X14: [LogInit] with an invalid [maxSize] and [backupCnt] raises the
    configuration error after it has assigned the four class attributes
    and has taken the domain out of the registry: what was registered
    under this domain is no longer, the other domains and all the loggers,
    files and threads are as they were. *)
Theorem LogInit_failure_unregisters w domain0 level0 pathName0 maxSize0 backupCnt0 console0
    colors0 compress0 useThreads0 encoding0 server0 connect0 :
  code_invalid maxSize0 backupCnt0 ->
  LogInit domain0 level0 pathName0 maxSize0 backupCnt0 console0 colors0 compress0
          useThreads0 encoding0 server0 connect0 w
    = (Raise config_error,
       upd_domains (fun ds => dict_remove (default "root"%string domain0)
                                (dict_set (default "root"%string domain0) None ds))
         (upd_cls (init_cls colors0 compress0 useThreads0 encoding0) w)) /\
  dict_get (default "root"%string domain0)
    (dict_remove (default "root"%string domain0)
       (dict_set (default "root"%string domain0) None (domains w))) = None /\
  (forall d, d <> default "root"%string domain0 ->
     dict_get d (dict_remove (default "root"%string domain0)
                   (dict_set (default "root"%string domain0) None (domains w)))
       = dict_get d (domains w)).
Proof.
  intros Hbad. set (d := default "root"%string domain0). split; [| split].
  - unfold LogInit. rewrite !bind_modify. fold d. rewrite bind_eq.
    match goal with |- context [GetLogger _ _ _ _ _ _ _ _ ?x] => set (w0 := x) end.
    change (default "root"%string (Some d)) with d.
    assert (Hg : dict_get d (domains w0) = Some None).
    { change (dict_get d (dict_set d None (domains w)) = Some None).
      rewrite dict_get_set, String.eqb_refl. reflexivity. }
    assert (Hh : dict_has d (domains w0) = true).
    { apply dict_has_get. rewrite Hg. eauto. }
    unfold GetLogger. rewrite bind_gets.
    change (default "root"%string (Some d)) with d.
    destruct (domains w0) as [| kv ds] eqn:Ed; [discriminate |].
    rewrite <- Ed in Hg, Hh |- *. rewrite Hg. rewrite !bind_eq. cbn [mret M_ret].
    unfold domains_del. rewrite bind_gets, Hh. cbn [modify]. unfold Logger_init.
    rewrite (code_invalid_guard _ _ Hbad). reflexivity.
  - rewrite dict_get_remove, String.eqb_refl. reflexivity.
  - intros d' Hne. rewrite dict_get_remove, dict_get_set.
    destruct (String.eqb_spec d' d); [congruence | reflexivity].
Qed.

(** X15: a [LogInit] that returns a logger, from a state that runs reach,
    has registered it under the domain (["root"] by default), the other
    domains registered as before; the logger is a new object, with this
    domain and the path that was given. *)
Theorem LogInit_registers w domain0 level0 pathName0 maxSize0 backupCnt0 console0
    colors0 compress0 useThreads0 encoding0 server0 connect0 l :
  reachable w ->
  (LogInit domain0 level0 pathName0 maxSize0 backupCnt0 console0 colors0 compress0
           useThreads0 encoding0 server0 connect0 w).1 = Ok l ->
  let w' := (LogInit domain0 level0 pathName0 maxSize0 backupCnt0 console0 colors0 compress0
                     useThreads0 encoding0 server0 connect0 w).2 in
  dict_get (default "root"%string domain0) (domains w') = Some (Some l) /\
  (forall d, d <> default "root"%string domain0 ->
     dict_get d (domains w') = dict_get d (domains w)) /\
  loggers w !! l = None /\
  exists L, loggers w' !! l = Some L /\ domain L = default "root"%string domain0 /\
            pathName L = pathName0.
Proof.
  intros Hw Hok w'. subst w'.
  destruct (LogInit domain0 level0 pathName0 maxSize0 backupCnt0 console0 colors0 compress0
                    useThreads0 encoding0 server0 connect0 w) as [r wf] eqn:E.
  simpl in Hok |- *. subst r. revert E.
  set (d := default "root"%string domain0).
  unfold LogInit. rewrite !bind_modify. fold d. rewrite bind_eq.
  match goal with |- context [GetLogger _ _ _ _ _ _ _ _ ?x] => set (w0 := x) end.
  assert (Hk0 : keyed w0) by (apply keyed_unregister, reachable_keyed, Hw).
  pose proof (GetLogger_result w0 (Some d) level0 pathName0 maxSize0 backupCnt0 console0
                server0 connect0) as HG.
  destruct (GetLogger (Some d) level0 pathName0 maxSize0 backupCnt0 console0 server0 connect0 w0)
    as [[l1 | e |] w1]; simpl in HG |- *; try discriminate.
  destruct (HG l1 Hk0 eq_refl) as (Hd1 & Hfresh & L & HL & Hdom & _ & Hp & _). clear HG.
  fold d in Hd1, Hdom.
  set (P := fun L0 : Logger => domain L0 = d /\ pathName L0 = pathName0).
  assert (HI : FullInv (has_prop l1 P)).
  { apply has_prop_FullInv.
    - intros L1 L2 ? ? ? ? ? ? [? ?]. split; congruence.
    - intros L1 h H. exact H.
    - intros L1 t H. exact H.
    - intros L1 H. exact H. }
  rewrite bind_eq.
  match goal with |- context [match ?a w1 with _ => _ end] =>
    assert (HA : domains (a w1).2 = domains w1 /\ has_prop l1 P (a w1).2)
  end.
  { assert (HP1 : has_prop l1 P w1).
    { exists L. rewrite HL, lookup_insert_eq. split; [reflexivity | split; assumption]. }
    destruct (colors0 && String.eqb NORMAL ""); [| split; [reflexivity | exact HP1]].
    split.
    - apply (proj1 (proj2 (proj2 (level_methods_pres _ (ThreadInv0 := registry_is_ThreadInv
                                                           (domains w1)) l1 _ [] ∅)))).
      reflexivity.
    - apply (proj1 (proj2 (proj2 (level_methods_full _ l1 _ [] ∅)))). exact HP1. }
  match type of HA with context [(?a w1).2] => destruct (a w1) as [[[] | e |] w2] end;
    simpl in HA |- *; try discriminate.
  intros [= <- <-]. destruct HA as [Hd2 (L2 & HL2 & HD2 & HP2)].
  rewrite Hd2, Hd1. cbn [domains upd_domains upd_cls w0].
  split; [| split; [| split]].
  - rewrite dict_get_app, dict_get_remove, String.eqb_refl.
    unfold dict_get. simpl. rewrite String.eqb_refl. reflexivity.
  - intros d' Hne. rewrite dict_get_app, dict_get_remove, dict_get_set.
    destruct (String.eqb_spec d' d) as [? | _]; [congruence |].
    destruct (dict_get d' (domains w)); [reflexivity |].
    unfold dict_get. simpl. destruct (String.eqb_spec d d'); [congruence | reflexivity].
  - exact Hfresh.
  - exists L2. auto.
Qed.

(** ** A logger without a file *)

Lemma Logger_init_no_file fl0 fs0 th0 lg0 domain0 level0 pathName0 maxSize0 backupCnt0
    console0 server0 connect0 :
  no_directory fs0 pathName0 ->
  hoare (frame_io fl0 fs0 th0 lg0)
        (Logger_init domain0 level0 pathName0 maxSize0 backupCnt0 console0 server0 connect0)
        (fun l w => files w = fl0 /\ fsys w = fs0 /\ threads w = th0 /\
                    exists L, loggers w = <[l := L]> lg0 /\ F L = None /\
                              __thrLogger L = None /\ pathName L = pathName0)
        (frame_io fl0 fs0 th0 lg0).
Proof.
  intros Hno. unfold Logger_init.
  destruct ((maxSize0 <? 0) || (backupCnt0 <? 0) || (maxSize0 >? 0) && (backupCnt0 =? 0)).
  { apply hoare_raise. auto. }
  eapply hoare_gets_bind with (c := fresh (dom lg0)).
  { intros w (_ & _ & _ & ->). reflexivity. }
  do 3 (eapply hoare_bind; [apply hoare_frame; frame_prim | intros ?; cbv beta]).
  cbv zeta.
  eapply hoare_bind with (Q := fun isd w => frame_io fl0 fs0 th0 lg0 w /\ isd = false).
  { destruct pathName0 as [p |]; intros w Hw; simpl; (split; [exact Hw |]).
    - destruct Hw as (_ & -> & _). exact Hno.
    - reflexivity. }
  intros isd. apply hoare_pure. intros ->.
  eapply hoare_bind; [apply hoare_frame; mon | intros ut; cbv beta iota].
  eapply hoare_bind with
    (Q := fun (L1 : Logger) (w : World) => frame_io fl0 fs0 th0 lg0 w /\
            (F L1 = None /\ __thrLogger L1 = None /\ pathName L1 = pathName0)).
  { apply hoare_ret. intros w Hw. split; [exact Hw |]. repeat split. }
  intros L1. apply hoare_pure. intros (HF & HT & HP).
  eapply hoare_bind; [apply hoare_frame; mon | intros con; cbv beta].
  eapply hoare_bind;
    [apply hoare_frame; destruct ut; [destruct con |]; first [solve [frame_prim] | mon]
    | intros ?; cbv beta].
  eapply hoare_bind; [apply hoare_frame; destruct server0; [| mon] | intros srv; cbv beta].
  { mon_step; [frame_prim | mon]. }
  eapply hoare_bind; [apply hoare_frame; destruct connect0; [| mon] | intros cli; cbv beta].
  { mon_step; [frame_prim | mon]. }
  intros w (Hfl & Hfs & Hth & Hl). simpl. repeat (split; [assumption |]).
  eexists. split; [rewrite Hl; reflexivity |]. simpl. auto.
Qed.

Lemma span_while_all {A} (p : A -> bool) (l : list A) :
  forallb p l = true -> span_while p l = (l, []).
Proof.
  induction l as [| x l IH]; simpl; [reflexivity |].
  intros H. apply andb_true_iff in H as [Hx Hl]. rewrite Hx, (IH Hl). reflexivity.
Qed.

Lemma forallb_rev {A} (p : A -> bool) (l : list A) : forallb p (rev l) = forallb p l.
Proof.
  induction l as [| x l IH]; simpl; [reflexivity |].
  rewrite forallb_app, IH. simpl. rewrite andb_true_r. apply andb_comm.
Qed.

Lemma dirname_no_slash p : no_slash p = true -> dirname p = ""%string.
Proof.
  intros H. unfold dirname, path_split.
  rewrite (span_while_all _ (rev (String.list_ascii_of_string p)));
    [reflexivity | rewrite forallb_rev; exact H].
Qed.

(** X16: a logger made without a path, or for a path whose directory
    part is not a directory that exists, gets no file and no writer thread,
    and no error tells it: the constructor opens nothing and starts nothing,
    and returns a logger with [F = None].  A file name without a directory
    part is such a path, [os.path.dirname] of it being empty. *)
Theorem no_directory_no_file w domain0 level0 pathName0 maxSize0 backupCnt0 console0
    server0 connect0 :
  (forall l,
     no_directory (fsys w) pathName0 ->
     (Logger_init domain0 level0 pathName0 maxSize0 backupCnt0 console0 server0 connect0 w).1
       = Ok l ->
     files (Logger_init domain0 level0 pathName0 maxSize0 backupCnt0 console0 server0 connect0
              w).2 = files w /\
     fsys (Logger_init domain0 level0 pathName0 maxSize0 backupCnt0 console0 server0 connect0
             w).2 = fsys w /\
     threads (Logger_init domain0 level0 pathName0 maxSize0 backupCnt0 console0 server0 connect0
                w).2 = threads w /\
     exists L,
       loggers (Logger_init domain0 level0 pathName0 maxSize0 backupCnt0 console0 server0
                  connect0 w).2 = <[l := L]> (loggers w) /\
       F L = None /\ __thrLogger L = None /\ pathName L = pathName0) /\
  (forall p, no_slash p = true -> no_directory (fsys w) (Some p)).
Proof.
  split.
  - intros l Hno Hok.
    pose proof (Logger_init_no_file (files w) (fsys w) (threads w) (loggers w) domain0 level0
                  pathName0 maxSize0 backupCnt0 console0 server0 connect0 Hno w) as HS.
    rewrite Hok in HS. apply HS. repeat split.
  - intros p Hp. unfold no_directory. rewrite (dirname_no_slash p Hp). reflexivity.
Qed.

(** ** From the call to the file, with the writer thread *)

Lemma buffer_message_held w self L h message :
  loggers w !! self = Some L -> F L = Some h -> maxSize (common L) = 0 ->
  useThreads (cls w) = true ->
  size L + (Z.of_nat (String.length message) + 1) < 4096 ->
  buffer_message self message w = (Ok true, upd_loggers (alter (buffered message) self) w).
Proof.
  intros HL HF Hm Hut Hlt. unfold buffer_message.
  rewrite (bind_ok _ _ _ _ _ (get_logger_ok _ _ _ HL)), HF.
  rewrite bind_eq. cbn [upd_logger modify]. rewrite bind_class_attr. cbn [cls upd_loggers].
  rewrite Hut, Hm. cbn [Z.eqb negb]. rewrite orb_false_r.
  destruct (Z.geb_spec (size L + (Z.of_nat (String.length message) + 1)) 4096); [lia |].
  reflexivity.
Qed.

(** X17: with the writer thread and [maxSize = 0], an entry goes from the
    call to the file object in two passes of the writer: the call puts it
    in the queue and sets the wake event; the pass that takes it formats it
    into the buffer of the logger, the line short of 4096 characters; the
    next pass, the queue empty, writes the buffer to the file object and
    goes to wait. *)
Theorem queued_entry_reaches_file w self L t h f level0 msg args kwargs msg' sym :
  loggers w !! self = Some L -> stopped L = false -> __thrLogger L = Some t ->
  F L = Some h -> files w !! h = Some f -> fo_closed f = false ->
  queues w !! queue (common L) = Some [] -> maxSize (common L) = 0 ->
  useThreads (cls w) = true -> sameMsgCountMax (cls w) <= 0 ->
  cbFormatter (cls w) = None -> cbWriter (cls w) = None ->
  formatted msg args = Some msg' -> LOG2SYM !! level0 = Some sym ->
  kwargs !! "exc_info"%string = None ->
  let text := text_of (dateFmt (cls w)) (mkEntry (clock w) (domain L) level0 msg' kwargs) sym in
  size L + (Z.of_nat (String.length text) + 1) < 4096 ->
  exists w1 w2 w3,
    log self level0 msg args kwargs w = (Ok tt, w1) /\
    queues w1 !! queue (common L)
      = Some [Some (mkEntry (clock w) (domain L) level0 msg' kwargs)] /\
    files w1 = files w /\
    logThread_pass self w1 = (Ok TRun, w2) /\
    queues w2 !! queue (common L) = Some [] /\ files w2 = files w /\
    (exists L2, loggers w2 !! self = Some L2 /\ buf L2 = buf L ++ [(text +:+ nl)%string]) /\
    logThread_pass self w2 = (Ok TWait, w3) /\
    files w3 = <[h := mkFO (fo_ino f) false
                        (fo_wbuf f +:+ String.concat "" (buf L ++ [(text +:+ nl)%string]))
                        (fo_closes f)]> (files w) /\
    (exists L3, loggers w3 !! self = Some L3 /\ buf L3 = [] /\ F L3 = Some h).
Proof.
  intros HL Hs Hthr HF Hf Hc Hq Hm Hut Hsm Hfmt Hwr Hform Hsym Hexc text Hlt.
  set (e := mkEntry (clock w) (domain L) level0 msg' kwargs) in *.
  set (q := queue (common L)) in *.
  (* the call *)
  assert (Hlog : log self level0 msg args kwargs w =
                 (Ok tt, upd_events (alter (fun _ => true) (evtQueue (common L)))
                           (upd_queues (alter (fun l => l ++ [Some e]) q) w))).
  { unfold log. rewrite (log_unfold _ _ _ _ _ _ _ _ HL Hs Hform), Hut, Hthr.
    rewrite bool_decide_eq_false_2 by discriminate. reflexivity. }
  set (w1 := upd_events _ (upd_queues _ w)) in Hlog.
  assert (HL1 : loggers w1 !! self = Some L) by exact HL.
  assert (Hq1 : queues w1 !! q = Some [Some e]).
  { unfold w1. cbn. rewrite lookup_alter_eq, Hq. reflexivity. }
  (* the pass that takes the entry *)
  set (wp := upd_queues (insert q []) w1).
  assert (HLp : loggers wp !! self = Some L) by exact HL.
  destruct (logMessage_default wp self L None e 0 sym HLp Hfmt Hsym Hexc)
    as (c1 & Hsame & Hmsg).
  destruct Hsame as (_ & _ & _ & Hwr1 & _ & _ & Hut1 & _).
  set (wc := upd_cls (fun _ => c1) wp) in Hmsg.
  assert (HLc : loggers wc !! self = Some L) by exact HL.
  assert (Hutc : useThreads (cls wc) = true).
  { change (useThreads c1 = true). rewrite Hut1. exact Hut. }
  assert (Hpass1 : logThread_pass self w1
                   = (Ok TRun, upd_loggers (alter (buffered text) self) wc)).
  { unfold logThread_pass. rewrite (bind_ok _ _ _ _ _ (get_logger_ok _ _ _ HL1)).
    rewrite bind_eq. unfold queue_popleft. fold q. rewrite Hq1. fold wp.
    rewrite bind_class_attr.
    change (sameMsgCountMax (cls wp)) with (sameMsgCountMax (cls w)).
    destruct (Z.gtb_spec (sameMsgCountMax (cls w)) 0); [lia |].
    rewrite bind_eq. unfold try_except. rewrite Hmsg.
    unfold message_tail. rewrite bind_eq. unfold try_except. cbn [prefixed].
    change (dateFmt (cls wp)) with (dateFmt (cls w)). fold text.
    rewrite (buffer_message_held wc self L h text HLc HF Hm Hutc Hlt). reflexivity. }
  set (w2 := upd_loggers (alter (buffered text) self) wc) in Hpass1.
  assert (HL2 : loggers w2 !! self = Some (buffered text L)).
  { unfold w2. cbn. rewrite lookup_alter_eq, HL. reflexivity. }
  assert (Hq2 : queues w2 !! q = Some []).
  { unfold w2, wc, wp. cbn. apply lookup_insert_eq. }
  (* the pass on the empty queue *)
  assert (Hf2 : files w2 !! h = Some f) by exact Hf.
  assert (Hwr2 : cbWriter (cls w2) = None).
  { change (cbWriter c1 = None). rewrite Hwr1. exact Hwr. }
  assert (Hpass2 : logThread_pass self w2
                   = (Ok TWait,
                      upd_files (insert h (mkFO (fo_ino f) false
                                   (fo_wbuf f +:+ String.concat "" (buf L ++ [(text +:+ nl)%string]))
                                   (fo_closes f)))
                        (upd_loggers (alter (fun L => set_size 0 (set_buf [] L)) self) w2))).
  { unfold logThread_pass. rewrite (bind_ok _ _ _ _ _ (get_logger_ok _ _ _ HL2)).
    rewrite bind_eq. unfold queue_popleft.
    change (queue (common (buffered text L))) with q. rewrite Hq2.
    change (F (buffered text L)) with (F L). rewrite HF.
    change (buf (buffered text L)) with (buf L ++ [(text +:+ nl)%string]).
    destruct (buf L ++ [(text +:+ nl)%string]) as [| b0 bs] eqn:Eb.
    { destruct (buf L); discriminate. }
    rewrite bind_eq.
    rewrite (writePending_default w2 self _ h f HL2); try assumption.
    - cbn [buf buffered set_size set_buf]. rewrite Eb. reflexivity.
    - cbn. rewrite Eb. discriminate. }
  eexists _, _, _. split; [exact Hlog |]. split; [exact Hq1 |]. split; [reflexivity |].
  split; [exact Hpass1 |]. split; [exact Hq2 |]. split; [reflexivity |].
  split; [eexists; split; [exact HL2 | reflexivity] |].
  split; [exact Hpass2 |]. split; [reflexivity |].
  eexists. cbn. rewrite !lookup_alter_eq, HL. cbn. split; [reflexivity |]. auto.
Qed.

(** ** A rotation that returns *)

Lemma fs_replace_inodes fs a b fs' : fs_replace fs a b = Some fs' -> inodes fs' = inodes fs.
Proof.
  unfold fs_replace. intros H. repeat case_match; simplify_eq; reflexivity.
Qed.

Lemma os_replace_rot lg fl ino a b : preserves (frame_rot lg fl ino) (os_replace a b).
Proof.
  intros w (H1 & H2 & H3). unfold os_replace.
  destruct (fs_replace (fsys w) a b) as [fs' |] eqn:E; simpl; [| repeat split; assumption].
  split; [exact H1 | split; [exact H2 |]].
  rewrite <- H3. exact (fs_replace_inodes _ _ _ _ E).
Qed.

Lemma shift_loop_rot lg fl ino d n z names cnts :
  preserves (frame_rot lg fl ino) (shift_loop d n z names cnts).
Proof.
  induction cnts as [| c rest IH]; simpl; [apply preserves_ret |].
  case_match; [exact IH |]. apply preserves_bind; [apply os_replace_rot | intros _; exact IH].
Qed.

Lemma shift_backups_rot lg fl ino d n z names b :
  preserves (frame_rot lg fl ino) (shift_backups d n z names b).
Proof.
  unfold shift_backups. apply preserves_try; [apply shift_loop_rot | intros _; apply preserves_ret].
Qed.

Lemma fs_open_append_inodes fs p fs' i :
  fs_open_append fs p = Some (fs', i) ->
  forall j x, inodes fs !! j = Some x -> inodes fs' !! j = Some x.
Proof.
  unfold fs_open_append. intros H j x Hj. repeat case_match; simplify_eq; try exact Hj.
  cbn. rewrite lookup_insert_ne; [exact Hj |].
  intros <-. apply (is_fresh (dom (inodes fs))). apply elem_of_dom. eauto.
Qed.

(** [__writePending] with the default writer, the buffer empty or not. *)
Lemma writePending_summary w self L h f :
  loggers w !! self = Some L -> cbWriter (cls w) = None ->
  F L = Some h -> files w !! h = Some f -> fo_closed f = false ->
  exists w1,
    __writePending self w = (Ok tt, w1) /\
    (exists L1, loggers w1 !! self = Some L1 /\ F L1 = Some h /\ buf L1 = [] /\
                pathName L1 = pathName L /\ common L1 = common L) /\
    files w1 = <[h := mkFO (fo_ino f) false (fo_wbuf f +:+ String.concat "" (buf L))
                        (fo_closes f)]> (files w) /\
    fsys w1 = fsys w /\ cls w1 = cls w.
Proof.
  intros HL Hwr HF Hf Hc. destruct (buf L) as [| b0 bs] eqn:Eb.
  - exists w. split.
    { unfold __writePending. rewrite (bind_ok _ _ _ _ _ (get_logger_ok _ _ _ HL)), Eb.
      reflexivity. }
    split; [exists L; auto |]. split; [| auto].
    cbn. rewrite append_nil_r. symmetry. apply insert_id. rewrite Hf. destruct f; simpl in *.
    subst. reflexivity.
  - eexists. split.
    { rewrite (writePending_default w self L h f HL); try assumption; [reflexivity |].
      rewrite Eb. discriminate. }
    cbn. split; [| rewrite Eb; auto].
    eexists. rewrite lookup_alter_eq, HL. cbn. split; [reflexivity |]. auto.
Qed.

(** X18: a rotation without compression that returns has closed the
    file object of the logger, by one [close()], after it has written the
    buffer and flushed: the file that was the log file holds all that was
    logged to it; the logger has a new, open file object, an empty buffer
    and [pos = 0]. *)
Theorem rotation_renews_file w self L h f :
  loggers w !! self = Some L -> F L = Some h -> files w !! h = Some f ->
  fo_closed f = false -> cbWriter (cls w) = None -> compress (cls w) = None ->
  (__rotate self w).1 = Ok tt ->
  exists L' h' i',
    loggers (__rotate self w).2 !! self = Some L' /\ F L' = Some h' /\ h' <> h /\
    pos L' = 0 /\ buf L' = [] /\
    files (__rotate self w).2 !! h' = Some (mkFO i' false "" 0) /\
    files (__rotate self w).2 !! h = Some (mkFO (fo_ino f) true "" (S (fo_closes f))) /\
    inodes (fsys (__rotate self w).2) !! fo_ino f
      = Some (default ""%string (inodes (fsys w) !! fo_ino f)
              +:+ (fo_wbuf f +:+ String.concat "" (buf L)))%string.
Proof.
  intros HL HF Hf Hc Hwr Hcomp Hok.
  destruct (__rotate self w) as [r wf] eqn:E. simpl in Hok |- *. subst r. revert E.
  unfold __rotate.
  destruct (writePending_summary w self L h f HL Hwr HF Hf Hc)
    as (w1 & Hwp & (L1 & HL1 & HF1 & Hb1 & Hp1 & Hc1) & Hfl1 & Hfs1 & Hcls1).
  rewrite (bind_ok _ _ _ _ _ Hwp), (bind_ok _ _ _ _ _ (get_logger_ok _ _ _ HL1)), HF1.
  cbn [unwrap]. rewrite bind_eq. cbn [mret M_ret].
  set (f1 := mkFO (fo_ino f) false (fo_wbuf f +:+ String.concat "" (buf L)) (fo_closes f)) in *.
  assert (Hf1 : files w1 !! h = Some f1) by (rewrite Hfl1; apply lookup_insert_eq).
  rewrite <- (bind_assoc_eq (file_flush h) (fun _ => file_close h)).
  rewrite bind_eq, (flush_close_eq w1 h f1 Hf1 eq_refl).
  rewrite bind_eq. cbn [upd_logger modify].
  set (w3 := upd_loggers (alter (set_pos 0) self) _).
  assert (HL3 : loggers w3 !! self = Some (set_pos 0 L1)).
  { unfold w3. cbn. rewrite lookup_alter_eq, HL1. reflexivity. }
  assert (Hf3 : files w3 !! h = Some (mkFO (fo_ino f) true "" (S (fo_closes f)))).
  { unfold w3. cbn. apply lookup_insert_eq. }
  assert (Hi3 : inodes (fsys w3) !! fo_ino f
                = Some (default ""%string (inodes (fsys w) !! fo_ino f)
                        +:+ (fo_wbuf f +:+ String.concat "" (buf L)))%string).
  { unfold w3. cbn -[fs_append]. rewrite Hfs1.
    exact (proj1 (fs_append_twice (fsys w) (fo_ino f) (fo_wbuf f1))). }
  assert (Hc3 : compress (cls w3) = None).
  { change (compress (cls w1) = None). rewrite Hcls1. exact Hcomp. }
  clearbody w3.
  destruct (pathName L1) as [p |]; [| discriminate].
  cbn [unwrap]. rewrite bind_eq. cbn [mret M_ret].
  destruct (path_split p) as [d n]. rewrite bind_class_attr, Hc3.
  rewrite bind_eq. unfold os_listdir.
  destruct (fs_listdir (fsys w3) d) as [names |]; cbn [unwrap mret M_ret]; [| discriminate].
  rewrite bind_eq.
  match goal with |- context [shift_backups ?a ?b ?c ?dd ?ee w3] =>
    pose proof (shift_backups_rot _ _ _ a b c dd ee w3 (conj eq_refl (conj eq_refl eq_refl)))
      as (Hl4 & Hfl4 & Hi4);
    pose proof (shift_backups_returns a b c dd ee w3) as Hr4;
    destruct (shift_backups a b c dd ee w3) as [[[] | e |] w4]
  end; simpl in Hl4, Hfl4, Hi4, Hr4; try discriminate.
  rewrite bind_eq.
  match goal with |- context [os_replace ?a ?b w4] =>
    pose proof (os_replace_rot _ _ _ a b w4 (conj eq_refl (conj eq_refl eq_refl)))
      as (Hl5 & Hfl5 & Hi5);
    destruct (os_replace a b w4) as [[[] | e |] w5]
  end; simpl in Hl5, Hfl5, Hi5; try discriminate.
  rewrite bind_class_attr, bind_eq. unfold open_append.
  destruct (fs_open_append (fsys w5) p) as [[fs' i] |] eqn:Eo; [| discriminate].
  cbn [upd_logger modify]. intros [= <-].
  assert (Hh5 : files w5 !! h = Some (mkFO (fo_ino f) true "" (S (fo_closes f)))).
  { rewrite Hfl5, Hfl4. exact Hf3. }
  assert (Hne : fresh (dom (files w5)) <> h).
  { intros Heq. apply (is_fresh (dom (files w5))). rewrite Heq.
    apply elem_of_dom. eauto. }
  exists (set_F (Some (fresh (dom (files w5)))) (set_pos 0 L1)), (fresh (dom (files w5))), i.
  cbn. split.
  { rewrite lookup_alter_eq, Hl5, Hl4, HL3. reflexivity. }
  split; [reflexivity |]. split; [exact Hne |]. split; [reflexivity |].
  split; [exact Hb1 |]. split; [apply lookup_insert_eq |].
  split; [rewrite lookup_insert_ne by exact Hne; exact Hh5 |].
  apply (fs_open_append_inodes _ _ _ _ Eo). rewrite Hi5, Hi4. exact Hi3.
Qed.

(** ** The module's [Rotate] with writer threads *)

Lemma more_set_refl ev : more_set ev ev.
Proof. intros e. left. reflexivity. Qed.

Lemma more_set_trans ev1 ev2 ev3 : more_set ev1 ev2 -> more_set ev2 ev3 -> more_set ev1 ev3.
Proof.
  intros H12 H23 e. destruct (H12 e) as [H1 | [H1 H1']], (H23 e) as [H2 | [H2 H2']].
  - left. congruence.
  - right. split; [rewrite <- H1; exact H2 | exact H2'].
  - right. split; [exact H1 | congruence].
  - right. split; [exact H1 | exact H2'].
Qed.

Lemma more_set_alter ev x : more_set ev (alter (fun _ => true) x ev).
Proof.
  intros e. destruct (decide (x = e)) as [-> | Hne].
  - rewrite lookup_alter_eq. destruct (ev !! e) eqn:E; [right | left; reflexivity].
    split; [eauto | reflexivity].
  - left. apply lookup_alter_ne, Hne.
Qed.

Lemma more_set_keeps ev ev' e : more_set ev ev' -> ev !! e = Some true -> ev' !! e = Some true.
Proof. intros H He. destruct (H e) as [H1 | [_ H1]]; congruence. Qed.

Lemma more_set_there ev ev' e : more_set ev ev' -> is_Some (ev !! e) -> is_Some (ev' !! e).
Proof. intros H He. destruct (H e) as [H1 | [_ H1]]; rewrite H1; eauto. Qed.

Lemma Rotate_loop_threads w :
  useThreads (cls w) = true ->
  forall values signaled ev,
    (forall v, v ∈ values -> exists l, v = Some l /\ is_Some (loggers w !! l)) ->
    exists ev',
      Rotate_loop values signaled (upd_events (fun _ => ev) w)
        = (Ok tt, upd_events (fun _ => ev') w) /\
      more_set ev ev' /\
      (forall l L, Some l ∈ values -> loggers w !! l = Some L -> F L <> None ->
         evtRotate (common L) ∉ signaled -> is_Some (ev !! evtRotate (common L)) ->
         ev' !! evtRotate (common L) = Some true).
Proof.
  intros Hut values. induction values as [| v rest IH]; intros signaled ev Hvals.
  - exists ev. split; [reflexivity |]. split; [apply more_set_refl |].
    intros l L Hin. inversion Hin.
  - destruct (Hvals v (list_elem_of_here _ _)) as (l0 & -> & [L0 HL0]).
    assert (Hrest : forall v, v ∈ rest -> exists l, v = Some l /\ is_Some (loggers w !! l)).
    { intros v Hv. apply Hvals, list_elem_of_further, Hv. }
    set (ws := upd_events (fun _ => ev) w).
    assert (HLs : loggers ws !! l0 = Some L0) by exact HL0.
    simpl. rewrite bind_eq. cbn [mret M_ret].
    rewrite (bind_ok _ _ _ _ _ (get_logger_ok _ _ _ HLs)).
    destruct (bool_decide (F L0 = None) || bool_decide (evtRotate (common L0) ∈ signaled))
      eqn:Eskip.
    + destruct (IH signaled ev Hrest) as (ev' & Heq & Hmore & Hset).
      exists ev'. split; [exact Heq |]. split; [exact Hmore |].
      intros l L Hin HL HF Hns He.
      apply elem_of_cons in Hin as [[= <-] | Hin]; [| eapply Hset; eassumption].
      exfalso. rewrite HL0 in HL. injection HL as <-.
      destruct (proj1 (orb_true_iff _ _) Eskip) as [H | H];
        rewrite bool_decide_eq_true in H; contradiction.
    + apply orb_false_iff in Eskip as [HF0 Hns0].
      apply bool_decide_eq_false in HF0, Hns0.
      set (ev1 := alter (fun _ => true) (evtQueue (common L0))
                    (alter (fun _ => true) (evtRotate (common L0)) ev)).
      assert (Hrot : rotate l0 ws = (Ok tt, upd_events (fun _ => ev1) w)).
      { unfold rotate. rewrite (bind_ok _ _ _ _ _ (get_logger_ok _ _ _ HLs)).
        destruct (F L0) as [h0 |]; [| congruence].
        rewrite bind_class_attr. change (cls ws) with (cls w). rewrite Hut. reflexivity. }
      rewrite (bind_ok _ _ _ _ _ Hrot).
      destruct (IH ({[evtRotate (common L0)]} ∪ signaled) ev1 Hrest) as (ev' & Heq & Hmore & Hset).
      assert (Hm1 : more_set ev ev1).
      { eapply more_set_trans; apply more_set_alter. }
      exists ev'. split; [exact Heq |]. split; [eapply more_set_trans; eassumption |].
      intros l L Hin HL HF Hns He.
      assert (Hhead : is_Some (ev !! evtRotate (common L0)) ->
                      ev' !! evtRotate (common L0) = Some true).
      { intros [b Hb]. apply (more_set_keeps ev1); [exact Hmore |].
        unfold ev1. destruct (decide (evtQueue (common L0) = evtRotate (common L0))) as [Hq | Hq].
        - rewrite Hq, lookup_alter_eq, lookup_alter_eq, Hb. reflexivity.
        - rewrite lookup_alter_ne by exact Hq. rewrite lookup_alter_eq, Hb. reflexivity. }
      apply elem_of_cons in Hin as [[= <-] | Hin].
      * rewrite HL0 in HL. injection HL as <-. apply Hhead, He.
      * destruct (decide (evtRotate (common L) = evtRotate (common L0))) as [Heq' | Hne'].
        -- rewrite Heq' in He |- *. apply Hhead, He.
        -- apply (Hset l L Hin HL HF).
           ++ rewrite not_elem_of_union, not_elem_of_singleton. split; assumption.
           ++ eapply more_set_there; eassumption.
Qed.

(** X19: with writer threads, the module's [Rotate], on a registry of
    loggers, rotates nothing itself: it returns, having changed events
    only, and these by setting them; the rotate event of every logger of
    the registry that has a file is set, for the writer to rotate when it
    wakes. *)
Theorem Rotate_signals_writers w :
  useThreads (cls w) = true ->
  (forall v, v ∈ map snd (domains w) -> exists l, v = Some l /\ is_Some (loggers w !! l)) ->
  exists ev',
    Rotate w = (Ok tt, upd_events (fun _ => ev') w) /\
    more_set (events w) ev' /\
    (forall l L, Some l ∈ map snd (domains w) -> loggers w !! l = Some L -> F L <> None ->
       is_Some (events w !! evtRotate (common L)) ->
       ev' !! evtRotate (common L) = Some true).
Proof.
  intros Hut Hvals. unfold Rotate. rewrite bind_gets.
  destruct (Rotate_loop_threads w Hut (map snd (domains w)) ∅ (events w) Hvals)
    as (ev' & Heq & Hmore & Hset).
  exists ev'. split; [| split; [exact Hmore |]].
  - rewrite <- Heq. f_equal. destruct w; reflexivity.
  - intros l L Hin HL HF He. apply (Hset l L Hin HL HF); [set_solver | exact He].
Qed.

(** ** The count of the messages in a row, written *)

(** [_logMessage] on a logger with a file, without the writer thread and
    with [maxSize = 0]: the line goes through to the file object. *)
Lemma logMessage_through w self L h f key0 e cnt0 sym :
  loggers w !! self = Some L -> F L = Some h -> files w !! h = Some f ->
  fo_closed f = false -> maxSize (common L) = 0 -> useThreads (cls w) = false ->
  cbFormatter (cls w) = None -> cbWriter (cls w) = None ->
  LOG2SYM !! e_level e = Some sym -> e_kwargs e !! "exc_info"%string = None ->
  let line := (prefixed key0 cnt0 (text_of (dateFmt (cls w)) e sym) +:+ nl)%string in
  exists c1, same_config c1 (cls w) /\
    _logMessage self key0 (Some e) cnt0 w =
      (Ok tt,
       upd_files (insert h (mkFO (fo_ino f) false
                                 (fo_wbuf f +:+ String.concat "" (buf L ++ [line]))
                                 (fo_closes f)))
         (upd_loggers
            (alter (fun L => set_size 0 (set_buf []
                      (match key0 with
                       | Some _ => set__lastMsg (mkLast key0 1 (Some e)) L
                       | None => L
                       end))) self)
            (upd_cls (fun _ => c1) w))).
Proof.
  intros HL HF Hf Hc Hm Hut Hfmt Hwr Hsym Hexc line.
  destruct (logMessage_default w self L key0 e cnt0 sym HL Hfmt Hsym Hexc)
    as (c1 & Hsame & ->).
  exists c1. split; [exact Hsame |].
  destruct Hsame as (_ & _ & _ & Hwr1 & _ & _ & Hut1 & _).
  unfold message_tail. rewrite bind_eq. unfold try_except.
  match goal with |- context [buffer_message self ?m ?x] => set (wk := x) end.
  set (Lk := match key0 with
             | Some _ => set__lastMsg (mkLast key0 1 (Some e)) L
             | None => L
             end).
  assert (HLk : loggers wk !! self = Some Lk).
  { unfold wk, Lk. destruct key0; cbn; [rewrite lookup_alter_eq, HL |]; [reflexivity | exact HL]. }
  assert (Hfk : files wk !! h = Some f) by (unfold wk; destruct key0; exact Hf).
  assert (HFk : F Lk = Some h) by (unfold Lk; destruct key0; exact HF).
  assert (Hmk : maxSize (common Lk) = 0) by (unfold Lk; destruct key0; exact Hm).
  assert (Hutk : useThreads (cls wk) = false).
  { unfold wk. destruct key0; cbn; congruence. }
  assert (Hwrk : cbWriter (cls wk) = None).
  { unfold wk. destruct key0; cbn; congruence. }
  rewrite (buffer_message_through wk self Lk h f _ HLk HFk Hfk Hc Hmk Hutk Hwrk).
  cbn [mret M_ret]. f_equal. fold line.
  assert (Hb : buf Lk = buf L) by (unfold Lk; destruct key0; reflexivity).
  rewrite Hb. unfold wk, Lk.
  destruct key0 as [k |]; unfold upd_files, upd_loggers, upd_cls; cbn; f_equal;
    rewrite !alter_alter_eq; apply alter_ext; intros L0 _; reflexivity.
Qed.

(** ** No gate in [log] (C9) *)

(** [__logEntry] for a message that does not continue the row, no timer
    armed. *)
Lemma logEntry_new_key w self L e :
  loggers w !! self = Some L -> cbMessageKey (cls w) = None -> __thrTimer L = None ->
  key (_lastMsg L) <> Some (e_msg e) ->
  __logEntry self e w = _logMessage self (Some (e_msg e)) (Some e) 0 w.
Proof.
  intros HL Hmk HT Hk. unfold __logEntry.
  rewrite (bind_ok _ _ _ _ _ (get_logger_ok _ _ _ HL)), bind_class_attr, Hmk.
  rewrite bind_eq. cbn [mret M_ret]. rewrite bind_class_attr.
  rewrite bool_decide_eq_false_2 by congruence. cbn [andb]. rewrite HT. reflexivity.
Qed.


(** X20: with [sameMsgCountMax > 0], a message that does not continue
    the row, its text another or the count at the maximum, while the timer
    is armed, cancels the timer and writes two lines: the entry that was
    stored, with the prefix ["N times: "] for the stored count [N], and then
    the new message, which becomes the stored one, with the count [1]. *)
Theorem other_message_flushes_count w self L h f t k c e0 sym0 level0 msg args kwargs msg' sym :
  loggers w !! self = Some L -> stopped L = false -> formatted msg args = Some msg' ->
  useThreads (cls w) = false -> sameMsgCountMax (cls w) > 0 ->
  cbMessageKey (cls w) = None -> cbFormatter (cls w) = None -> cbWriter (cls w) = None ->
  F L = Some h -> files w !! h = Some f -> fo_closed f = false -> maxSize (common L) = 0 ->
  __thrTimer L = Some t -> _lastMsg L = mkLast k c (Some e0) -> c > 0 ->
  (k <> Some msg' \/ sameMsgCountMax (cls w) <= c) ->
  LOG2SYM !! e_level e0 = Some sym0 -> e_kwargs e0 !! "exc_info"%string = None ->
  LOG2SYM !! level0 = Some sym -> kwargs !! "exc_info"%string = None ->
  let e := mkEntry (clock w) (domain L) level0 msg' kwargs in
  let line0 := (pretty c +:+ " times: " +:+ text_of (dateFmt (cls w)) e0 sym0 +:+ nl)%string in
  let line := (text_of (dateFmt (cls w)) e sym +:+ nl)%string in
  exists w',
    log self level0 msg args kwargs w = (Ok tt, w') /\
    files w' = <[h := mkFO (fo_ino f) false
                        ((fo_wbuf f +:+ String.concat "" (buf L ++ [line0])) +:+ line)
                        (fo_closes f)]> (files w) /\
    (exists L', loggers w' !! self = Some L' /\ __thrTimer L' = None /\
                _lastMsg L' = mkLast (Some msg') 1 (Some e) /\ buf L' = []) /\
    (forall tm, timers w !! t = Some tm -> tm_state tm = Armed ->
       exists tm', timers w' !! t = Some tm' /\ tm_state tm' = Cancelled).
Proof.
  intros HL Hs Hform Hut Hsm Hmk Hfmt Hwr HF Hf Hc Hm HT Hlast Hcpos Hother
         Hsym0 Hexc0 Hsym Hexc e line0 line.
  unfold log. rewrite (log_unfold _ _ _ _ _ _ _ _ HL Hs Hform), Hut. fold e. cbn [negb orb].
  destruct (Z.gtb_spec (sameMsgCountMax (cls w)) 0) as [_ | ?]; [| lia].
  unfold __logEntry. rewrite (bind_ok _ _ _ _ _ (get_logger_ok _ _ _ HL)).
  rewrite bind_class_attr, Hmk. rewrite bind_eq. cbn [mret M_ret]. rewrite bind_class_attr.
  rewrite Hlast. cbn [key cnt entry e_msg e].
  assert (Hcond : bool_decide (Some msg' = k) && (c <? sameMsgCountMax (cls w)) = false).
  { destruct Hother as [Hk | Hge].
    - rewrite bool_decide_eq_false_2 by congruence. reflexivity.
    - destruct (Z.ltb_spec c (sameMsgCountMax (cls w))); [lia | apply andb_false_r]. }
  rewrite Hcond, HT. rewrite bind_eq. cbn [timer_cancel modify]. rewrite bind_eq.
  cbn [upd_logger modify]. rewrite bind_eq.
  match goal with |- context [_logMessage self (Some msg') (Some e0) c ?x] => set (wa := x) end.
  set (La := set___thrTimer None L).
  assert (HLa : loggers wa !! self = Some La).
  { unfold wa. cbn. rewrite lookup_alter_eq, HL. reflexivity. }
  assert (Hfa : files wa !! h = Some f) by exact Hf.
  destruct (logMessage_through wa self La h f (Some msg') e0 c sym0 HLa HF Hfa Hc Hm Hut
              Hfmt Hwr Hsym0 Hexc0) as (c1 & Hsame1 & Hm1).
  rewrite Hm1. clear Hm1.
  destruct Hsame1 as (Hdf1 & _ & Hfmt1 & Hwr1 & _ & _ & Hut1 & _).
  match goal with |- context [_logMessage self (Some msg') (Some e) 0 ?x] => set (w1 := x) end.
  set (L1 := set_size 0 (set_buf [] (set__lastMsg (mkLast (Some msg') 1 (Some e0)) La))).
  set (f1 := mkFO (fo_ino f) false
               (fo_wbuf f +:+ String.concat ""
                  (buf La ++ [(prefixed (Some msg') c (text_of (dateFmt (cls wa)) e0 sym0)
                               +:+ nl)%string]))
               (fo_closes f)).
  assert (HL1 : loggers w1 !! self = Some L1).
  { unfold w1. cbn [loggers upd_files upd_loggers upd_cls].
    rewrite lookup_alter_eq, HLa. reflexivity. }
  assert (Hf1 : files w1 !! h = Some f1) by (unfold w1; cbn; apply lookup_insert_eq).
  assert (Hut1' : useThreads (cls w1) = false).
  { change (useThreads c1 = false). rewrite Hut1. exact Hut. }
  assert (Hfmt1' : cbFormatter (cls w1) = None).
  { change (cbFormatter c1 = None). rewrite Hfmt1. exact Hfmt. }
  assert (Hwr1' : cbWriter (cls w1) = None).
  { change (cbWriter c1 = None). rewrite Hwr1. exact Hwr. }
  destruct (logMessage_through w1 self L1 h f1 (Some msg') e 0 sym HL1 HF Hf1 eq_refl Hm
              Hut1' Hfmt1' Hwr1' Hsym Hexc) as (c2 & _ & Hm2).
  rewrite Hm2. clear Hm2.
  eexists. split; [reflexivity |]. cbn -[String.concat].
  destruct (Z.gtb_spec c 0); [| lia].
  split; [| split].
  - rewrite insert_insert_eq. unfold line0, line. rewrite Hdf1.
    change (cls wa) with (cls w). cbn [String.concat]. rewrite !append_assoc. reflexivity.
  - rewrite !lookup_alter_eq, HL. cbn. eexists. split; [reflexivity |]. auto.
  - intros tm Htm Harmed. rewrite lookup_alter_eq, Htm. cbn. rewrite Harmed.
    eexists. split; reflexivity.
Qed.

(** ** A logger with a file of its own *)

Lemma find_shared_none p values w :
  (forall v, v ∈ values -> exists l L, v = Some l /\ loggers w !! l = Some L /\
                                       pathName L <> Some p) ->
  find_shared p values w = (Ok None, w).
Proof.
  induction values as [| v rest IH]; intros Hv; [reflexivity |].
  destruct (Hv v (list_elem_of_here _ _)) as (l & L & -> & HL & Hp).
  simpl. rewrite bind_eq. cbn [mret M_ret].
  rewrite (bind_ok _ _ _ _ _ (get_logger_ok _ _ _ HL)).
  rewrite bool_decide_eq_false_2 by congruence.
  apply IH. intros v Hin. apply Hv, list_elem_of_further, Hin.
Qed.

(** X21: a logger made for a path in a directory that exists, no logger
    of the registry having this path, opens the file for appending: it
    holds a new file object, open, on the file of this name, made empty
    when there was none, and starts [pos] at the length of the file.  With
    writer threads it starts a thread of its own, at the top of its loop;
    without, none. *)
Theorem new_path_opens_file w domain0 level0 p maxSize0 backupCnt0 console0 fs' i :
  ~ code_invalid maxSize0 backupCnt0 ->
  fs_isdir (fsys w) (dirname p) = true ->
  (forall v, v ∈ map snd (domains w) ->
     exists l L, v = Some l /\ loggers w !! l = Some L /\ pathName L <> Some p) ->
  fs_open_append (fsys w) p = Some (fs', i) ->
  (useThreads (cls w) = true -> thrConsoleLogger (cls w) = None -> has_console = true) ->
  let l := fresh (dom (loggers w)) in
  let h := fresh (dom (files w)) in
  exists w' L,
    Logger_init domain0 level0 (Some p) maxSize0 backupCnt0 console0 None None w = (Ok l, w') /\
    loggers w' = <[l := L]> (loggers w) /\ F L = Some h /\
    files w' = <[h := mkFO i false "" 0]> (files w) /\ fsys w' = fs' /\
    pos L = Z.of_nat (String.length (default ""%string (inodes fs' !! i))) /\
    (if useThreads (cls w)
     then __thrLogger L = Some (fresh (dom (threads w))) /\
          threads w' = <[fresh (dom (threads w)) := mkThread l TRun]> (threads w)
     else __thrLogger L = None /\ threads w' = threads w).
Proof.
  intros Hok Hdir Hnone Hopen Hcon l h. unfold Logger_init.
  destruct ((maxSize0 <? 0) || (backupCnt0 <? 0) || (maxSize0 >? 0) && (backupCnt0 =? 0)) eqn:G.
  { exfalso. apply Hok. unfold code_invalid.
    rewrite !orb_true_iff, andb_true_iff in G.
    rewrite !Z.ltb_lt, Z.gtb_lt, Z.eqb_eq in G. lia. }
  rewrite bind_gets. fold l.
  rewrite bind_eq. cbn [new_queue]. rewrite bind_eq. cbn [new_event]. rewrite bind_eq.
  cbn [new_event]. cbv zeta.
  match goal with |- context [(gets _ ≫= _) ?x] => set (w3 := x) end.
  assert (Hnone3 : forall v, v ∈ map snd (domains w3) ->
            exists l L, v = Some l /\ loggers w3 !! l = Some L /\ pathName L <> Some p)
    by exact Hnone.
  rewrite bind_gets. change (fsys w3) with (fsys w). rewrite Hdir. rewrite bind_class_attr.
  change (cls w3) with (cls w).
  rewrite bind_eq. rewrite bind_gets.
  rewrite (bind_ok _ _ _ _ _ (find_shared_none p (map snd (domains w3)) w3 Hnone3)).
  rewrite bind_class_attr, bind_eq. unfold open_append.
  change (fsys w3) with (fsys w). rewrite Hopen.
  change (fresh (dom (files w3))) with h.
  rewrite bind_eq. unfold file_tell, get_file. rewrite bind_eq.
  cbn [files upd_files upd_fsys]. rewrite lookup_insert_eq.
  cbn [unwrap mret M_ret fo_closed gets fo_ino fsys upd_files upd_fsys inodes].
  destruct (useThreads (cls w)) eqn:Eut.
  - rewrite !bind_eq. cbn [thread_start mret M_ret]. rewrite bind_class_attr.
    cbn [cls upd_threads upd_files upd_fsys]. change (cls w3) with (cls w).
    destruct (thrConsoleLogger (cls w)) as [q |] eqn:Econ.
    + eexists _, _. split; [reflexivity |]. cbn. auto 10.
    + unfold console_start. rewrite (Hcon eq_refl eq_refl).
      eexists _, _. split; [reflexivity |]. cbn. auto 10.
  - rewrite !bind_eq. cbn [mret M_ret]. rewrite bind_class_attr.
    eexists _, _. split; [reflexivity |]. cbn. auto 10.
Qed.

(** X22: [stop()] on a logger whose timer is armed cancels the timer and
    writes the stored entry, with the prefix ["N times: "] for the stored
    count [N] when the key is set, before it ends the queue: what was held
    back for the row is in the file object when [stop()] returns, and the
    logger is stopped. *)
Theorem stop_flushes_count w self L h f t k0 c e0 sym0 now :
  loggers w !! self = Some L -> __thrTimer L = Some t ->
  _lastMsg L = mkLast k0 c (Some e0) ->
  F L = Some h -> files w !! h = Some f -> fo_closed f = false -> maxSize (common L) = 0 ->
  useThreads (cls w) = false -> cbFormatter (cls w) = None -> cbWriter (cls w) = None ->
  LOG2SYM !! e_level e0 = Some sym0 -> e_kwargs e0 !! "exc_info"%string = None ->
  exists w',
    stop self now w = (Ok tt, w') /\
    files w' = <[h := mkFO (fo_ino f) false
                        (fo_wbuf f +:+
                         String.concat ""
                           (buf L ++ [(prefixed k0 c (text_of (dateFmt (cls w)) e0 sym0)
                                       +:+ nl)%string]))
                        (fo_closes f)]> (files w) /\
    (exists L', loggers w' !! self = Some L' /\ stopped L' = true /\ __thrTimer L' = None /\
                buf L' = []) /\
    (forall tm, timers w !! t = Some tm -> tm_state tm = Armed ->
       exists tm', timers w' !! t = Some tm' /\ tm_state tm' = Cancelled).
Proof.
  intros HL HT Hlast HF Hf Hc Hm Hut Hfmt Hwr Hsym0 Hexc0. unfold stop.
  rewrite (bind_ok _ _ _ _ _ (get_logger_ok _ _ _ HL)), HT, Hlast. cbn [key cnt entry].
  rewrite bind_eq, bind_eq. cbn [timer_cancel modify]. rewrite bind_eq.
  cbn [upd_logger modify].
  match goal with |- context [_logMessage self k0 (Some e0) c ?x] => set (wa := x) end.
  set (La := set___thrTimer None L).
  assert (HLa : loggers wa !! self = Some La).
  { unfold wa. cbn. rewrite lookup_alter_eq, HL. reflexivity. }
  assert (Hfa : files wa !! h = Some f) by exact Hf.
  destruct (logMessage_through wa self La h f k0 e0 c sym0 HLa HF Hfa Hc Hm Hut
              Hfmt Hwr Hsym0 Hexc0) as (c1 & _ & Hm1).
  rewrite Hm1. clear Hm1.
  destruct now; (eexists; split; [reflexivity |]); (split; [reflexivity | split]).
  1, 3: cbn; rewrite !lookup_alter_eq, HL; cbn; eexists;
    (split; [reflexivity |]); destruct k0; cbn; auto.
  all: intros tm Htm Harmed; cbn; rewrite lookup_alter_eq, Htm; cbn;
    rewrite Harmed; eexists; split; reflexivity.
Qed.

(** ** What does not come back *)

(** A primitive whose definition shows that it leaves the class and the
    loggers alone. *)
Ltac prim_off :=
  let w := fresh "w" in
  let Hw := fresh "Hw" in
  intros w Hw;
  cbv [new_queue new_event open_append get_file get_logger get_thread thread_start
       timer_start os_replace os_remove write_new network_import
       queue_popleft event_is_set os_listdir read_file unwrap modify raise mret M_ret
       event_set event_clear print_out print_err class_attr
       time_time gets timer_cancel queue_append queue_clear set_thread_state];
  repeat case_match; simpl; exact Hw.

Section Off.
Context (w0 : World).

Lemma upd_logger_off self f :
  (forall L, stopped L = true -> stopped (f L) = true) ->
  preserves (keeps_off w0) (upd_logger self f).
Proof.
  intros Hf w [Ha Hb]. split; [exact Ha |].
  intros l L HL Hs. destruct (Hb l L HL Hs) as (L' & HL' & Hs'). cbn.
  destruct (decide (l = self)) as [-> | Hne].
  - rewrite lookup_alter_eq, HL'. eexists. split; [reflexivity | apply Hf, Hs'].
  - rewrite lookup_alter_ne by congruence. eauto.
Qed.

Lemma set_cls_off g :
  (forall c, backlog (g c) = backlog c) -> preserves (keeps_off w0) (modify (upd_cls g)).
Proof.
  intros Hg w [Ha Hb]. split; [| exact Hb].
  intros H0. cbn. rewrite Hg. exact (Ha H0).
Qed.

Lemma backlog_append_off x : preserves (keeps_off w0) (backlog_append x).
Proof.
  intros w [Ha Hb]. split; [| exact Hb].
  intros H0. unfold backlog_append, modify. cbn. rewrite (Ha H0). exact (Ha H0).
Qed.

End Off.

Ltac off_step :=
  lazymatch goal with
  | |- preserves _ (upd_logger _ _) =>
      apply upd_logger_off;
      let L := fresh "L" in
      intros L ?; try (destruct (client L)); simpl; first [assumption | reflexivity]
  | |- preserves _ (modify (upd_cls _)) => apply set_cls_off; reflexivity
  | |- _ => mon_step
  end.

Ltac mon_off := repeat (first [ solve [eauto 3 with mon] | off_step | solve [prim_off] ]).

Section OffChain.
Context (w0 : World).

Lemma file_write_off h d : preserves (keeps_off w0) (file_write h d).
Proof. unfold file_write. mon_off. Qed.

Lemma file_flush_off h : preserves (keeps_off w0) (file_flush h).
Proof. unfold file_flush. mon_off. Qed.

Lemma file_close_off h : preserves (keeps_off w0) (file_close h).
Proof. unfold file_close. mon_off. Qed.

Hint Resolve backlog_append_off file_write_off file_flush_off file_close_off : mon.

Lemma report_error_off e : preserves (keeps_off w0) (report_error e).
Proof. unfold report_error. mon_off. Qed.

Hint Resolve report_error_off : mon.

Lemma writePending_off self : preserves (keeps_off w0) (__writePending self).
Proof. unfold __writePending. mon_off. Qed.

Lemma shift_loop_off d n z names cnts : preserves (keeps_off w0) (shift_loop d n z names cnts).
Proof. induction cnts as [| c rest IH]; simpl; mon_off. Qed.

Hint Resolve writePending_off shift_loop_off : mon.

Lemma rotation_off self : preserves (keeps_off w0) (__rotate self).
Proof. unfold __rotate, shift_backups. mon_off. Qed.

Hint Resolve rotation_off : mon.

Lemma rotate_off self : preserves (keeps_off w0) (rotate self).
Proof. unfold rotate. mon_off. Qed.

Lemma buffer_message_off self message : preserves (keeps_off w0) (buffer_message self message).
Proof. unfold buffer_message. mon_off. Qed.

Lemma console_message_off lv kw message :
  preserves (keeps_off w0) (console_message lv kw message).
Proof. unfold console_message. mon_off. Qed.

Lemma default_format_off d e : preserves (keeps_off w0) (default_format d e).
Proof. unfold default_format. mon_off. Qed.

Hint Resolve rotate_off buffer_message_off console_message_off default_format_off : mon.

Lemma logMessage_off self k e c : preserves (keeps_off w0) (_logMessage self k e c).
Proof. unfold _logMessage. mon_off. Qed.

Hint Resolve logMessage_off : mon.

Lemma timer_fire_off t : preserves (keeps_off w0) (timer_fire t).
Proof. unfold timer_fire. mon_off. Qed.

Lemma logEntry_off self e : preserves (keeps_off w0) (__logEntry self e).
Proof. unfold __logEntry. mon_off. Qed.

Hint Resolve timer_fire_off logEntry_off : mon.

Lemma log_off self lv msg args kw : preserves (keeps_off w0) (__log self lv msg args kw).
Proof. unfold __log. mon_off. Qed.

Hint Resolve log_off : mon.

Lemma stop_off self now : preserves (keeps_off w0) (stop self now).
Proof. unfold stop. mon_off. Qed.

Lemma logThread_pass_off self : preserves (keeps_off w0) (logThread_pass self).
Proof. unfold logThread_pass. mon_off. Qed.

Lemma logThread_wake_off self : preserves (keeps_off w0) (logThread_wake self).
Proof. unfold logThread_wake. mon_off. Qed.

Lemma thread_ready_off t : preserves (keeps_off w0) (thread_ready t).
Proof. unfold thread_ready. mon_off. Qed.

Hint Resolve stop_off logThread_pass_off logThread_wake_off thread_ready_off : mon.

Lemma thread_step_off t : preserves (keeps_off w0) (thread_step t).
Proof. unfold thread_step. mon_off. Qed.

Lemma thread_ended_off t : preserves (keeps_off w0) (thread_ended t).
Proof. unfold thread_ended. mon_off. Qed.

Hint Resolve thread_step_off thread_ended_off : mon.

Lemma thread_run_off fuel t : preserves (keeps_off w0) (thread_run fuel t).
Proof. induction fuel as [| n IH]; simpl; mon_off. Qed.

Hint Resolve thread_run_off : mon.

Lemma thread_join_off t : preserves (keeps_off w0) (thread_join t).
Proof. unfold thread_join. mon_off. Qed.

Lemma console_join_off q : preserves (keeps_off w0) (console_join q).
Proof. induction q as [| [[lv m] |] q IH]; simpl; mon_off. Qed.

Lemma domains_del_off k : preserves (keeps_off w0) (domains_del k).
Proof. unfold domains_del. mon_off. Qed.

Hint Resolve thread_join_off console_join_off domains_del_off : mon.

Lemma join_off self : preserves (keeps_off w0) (join self).
Proof. unfold join. mon_off. Qed.

Hint Resolve join_off : mon.

Lemma shutdown_off self now : preserves (keeps_off w0) (shutdown self now).
Proof. unfold shutdown. mon_off. Qed.

Hint Resolve shutdown_off : mon.

Lemma for_each_off {A} (xs : list A) body :
  (forall x, preserves (keeps_off w0) (body x)) -> preserves (keeps_off w0) (for_each xs body).
Proof. intros Hb. induction xs as [| x xs IH]; simpl; mon_off. Qed.

Lemma Shutdown_off now : preserves (keeps_off w0) (Shutdown now).
Proof. unfold Shutdown. mon_off. apply for_each_off. intros x. mon_off. Qed.

Lemma Rotate_loop_off values signaled : preserves (keeps_off w0) (Rotate_loop values signaled).
Proof. revert signaled. induction values as [| v rest IH]; intros signaled; simpl; mon_off. Qed.

Hint Resolve Rotate_loop_off : mon.

Lemma Rotate_off : preserves (keeps_off w0) Rotate.
Proof. unfold Rotate. mon_off. Qed.

Lemma file_tell_cls h : preserves (off_after w0) (file_tell h).
Proof. unfold file_tell. mon_off. Qed.

Lemma console_start_cls : preserves (off_after w0) console_start.
Proof.
  unfold console_start. destruct has_console; [| mon_off].
  intros w Hw H0. exact (Hw H0).
Qed.

(** The constructor: the class but for the console, and a new logger. *)
Lemma Logger_init_cls d lv p ms bc con srv cli :
  preserves (off_after w0) (Logger_init d lv p ms bc con srv cli).
Proof.
  pose proof file_tell_cls. pose proof console_start_cls.
  pose proof (find_shared_frame (off_after w0)).
  unfold Logger_init. mon_off.
  all: match goal with |- preserves _ ((if ?b then _ else _) _) => destruct b end; mon_off.
Qed.

Lemma Logger_init_off d lv p ms bc con srv cli :
  preserves (keeps_off w0) (Logger_init d lv p ms bc con srv cli).
Proof.
  intros w [Ha Hb]. split; [apply Logger_init_cls, Ha |].
  pose proof (Logger_init_spec (domains w) (loggers w) d lv p ms bc con srv cli w
                (conj eq_refl eq_refl)) as H.
  intros l0 L0 HL0 Hs. destruct (Hb l0 L0 HL0 Hs) as (L' & HL' & Hs').
  destruct (Logger_init d lv p ms bc con srv cli w) as [[l | e |] w']; simpl in *.
  - destruct H as (_ & Hnone & L & -> & _). exists L'.
    rewrite lookup_insert_ne by congruence. auto.
  - destruct H as [_ ->]. eauto.
  - destruct H as [_ ->]. eauto.
Qed.

Hint Resolve Logger_init_off : mon.

Lemma GetLogger_off d lv p ms bc con srv cli :
  preserves (keeps_off w0) (GetLogger d lv p ms bc con srv cli).
Proof. unfold GetLogger. mon_off. Qed.

Hint Resolve GetLogger_off : mon.

Lemma LogInit_off d lv p ms bc con col comp ut enc srv cli :
  preserves (keeps_off w0) (LogInit d lv p ms bc con col comp ut enc srv cli).
Proof. unfold LogInit. mon_off. unfold warning. mon_off. Qed.

(** [setBacklog] with the backlog off: [deque(None, maxlen=size)] raises. *)
Lemma setBacklog_off n w :
  backlog (cls w) = None ->
  setBacklog n w = (if n >? 0 then (Raise TypeError, w)
                    else (Ok tt, upd_cls (set_backlog None) w)).
Proof.
  intros Hw. unfold setBacklog. destruct (n >? 0); [| reflexivity].
  unfold class_attr. rewrite bind_gets, Hw. reflexivity.
Qed.

Lemma setBacklog_keeps_off n : preserves (keeps_off w0) (setBacklog n).
Proof.
  intros w [Ha Hb]. split.
  - intros H0. rewrite (setBacklog_off _ _ (Ha H0)).
    destruct (n >? 0); [exact (Ha H0) | reflexivity].
  - unfold setBacklog, class_attr. destruct (n >? 0); [| exact Hb].
    rewrite bind_gets. destruct (backlog (cls w)); exact Hb.
Qed.

Hint Resolve LogInit_off Shutdown_off Rotate_off setBacklog_keeps_off : mon.

Lemma run_off c : preserves (keeps_off w0) (run c).
Proof.
  destruct c; simpl;
    try (unfold log, debug, info, warning, error, fatal, critical, exception, setLevel,
           configure);
    mon_off.
Qed.

Lemma run_all_off cs w : keeps_off w0 w -> keeps_off w0 (run_all cs w).
Proof.
  revert w. induction cs as [| c cs IH]; intros w Hw; simpl; [exact Hw |].
  apply IH, run_off, Hw.
Qed.

End OffChain.

Lemma keeps_off_refl w : keeps_off w w.
Proof. split; [intros H; exact H | intros l L HL Hs; eauto]. Qed.

Lemma reachable_off w : reachable w -> backlog (cls w) = None.
Proof.
  induction 1 as [fs now | c w _ IH]; [reflexivity |].
  exact (proj1 (run_off w c w (keeps_off_refl w)) IH).
Qed.

(** A logger that is stopped refuses every call. *)
Lemma stopped_refuses w self L :
  loggers w !! self = Some L -> stopped L = true ->
  forall msg args kwargs,
    (forall level0, log self level0 msg args kwargs w = (Raise already_stopped, w)) /\
    refused (debug self msg args kwargs) w /\ refused (info self msg args kwargs) w /\
    refused (warning self msg args kwargs) w /\ refused (error self msg args kwargs) w /\
    refused (fatal self msg args kwargs) w /\ refused (critical self msg args kwargs) w /\
    refused (exception self msg args kwargs) w.
Proof.
  intros HL Hs msg args kwargs.
  assert (Hlog : forall lv m a k, __log self lv m a k w = (Raise already_stopped, w)).
  { intros lv m a k. unfold __log.
    rewrite (bind_ok _ _ _ _ _ (get_logger_ok _ _ _ HL)), Hs. reflexivity. }
  split; [intros lv; apply Hlog |].
  unfold refused, debug, info, warning, error, fatal, critical, exception.
  rewrite !(bind_ok _ _ _ _ _ (get_logger_ok _ _ _ HL)).
  repeat split;
    match goal with |- context [if ?c then _ else _] => destruct c end;
    try (left; reflexivity); right; apply Hlog.
Qed.

(** X23: the backlog cannot be switched on: in every state that runs
    reach, [Logger.backlog] is [None], and [setBacklog] with a positive size
    raises [TypeError], [deque(None, maxlen=size)] having nothing to iterate
    over, and changes nothing; with another size it returns and leaves the
    backlog [None]. *)
Theorem backlog_stays_off w size0 :
  reachable w ->
  backlog (cls w) = None /\
  (size0 > 0 -> setBacklog size0 w = (Raise TypeError, w)) /\
  (size0 <= 0 -> (setBacklog size0 w).1 = Ok tt /\ backlog (cls (setBacklog size0 w).2) = None).
Proof.
  intros Hw. pose proof (reachable_off w Hw) as Hb.
  split; [exact Hb |]. rewrite (setBacklog_off _ _ Hb).
  split; intros Hs.
  - destruct (Z.gtb_spec size0 0); [reflexivity | lia].
  - destruct (Z.gtb_spec size0 0); [lia |]. split; reflexivity.
Qed.

(** X24: [stop()] is final: after a [stop()] that returned, whatever
    calls, steps of writer threads and timers follow, on this logger or on
    others, the logger is stopped: [log] raises [RuntimeError] (["Logger
    already stopped"]) and changes nothing, and each of the named logging
    calls does nothing or fails in the same way.  No call starts a stopped
    logger again. *)
Theorem stop_is_final w self now cs level0 msg args kwargs :
  (stop self now w).1 = Ok tt ->
  let w' := run_all cs (stop self now w).2 in
  log self level0 msg args kwargs w' = (Raise already_stopped, w') /\
  refused (debug self msg args kwargs) w' /\ refused (info self msg args kwargs) w' /\
  refused (warning self msg args kwargs) w' /\ refused (error self msg args kwargs) w' /\
  refused (fatal self msg args kwargs) w' /\ refused (critical self msg args kwargs) w' /\
  refused (exception self msg args kwargs) w'.
Proof.
  intros Hok w'. destruct (stop_needs_logger _ _ _ Hok) as [L HL].
  destruct (stop_logger _ _ _ _ HL Hok) as (_ & L1 & HL1 & Hs & _).
  destruct (proj2 (run_all_off _ cs _ (keeps_off_refl _)) self L1 HL1 Hs) as (L2 & HL2 & Hs2).
  destruct (stopped_refuses w' self L2 HL2 Hs2 msg args kwargs) as [Hlog Hrest].
  split; [apply Hlog | exact Hrest].
Qed.

End Verification.

(** * The claims on runs *)

(** C1, counterexample: with [maxSize = 0] and [backupCnt = 3], invalid by
    the wording of the specification, the constructor returns; with
    [maxSize = 5] and [backupCnt = 0], valid by that wording, it raises the
    configuration error. *)
Lemma zero_maxSize_with_backups_is_accepted :
  spec_invalid 0 3 /\
  (Logger_init (rt := sample_rt) "root" 10 None 0 3 false None None sample_world).1 = Ok 0%nat /\
  ~ spec_invalid 5 0 /\
  (Logger_init (rt := sample_rt) "root" 10 None 5 0 false None None sample_world).1
    = Raise config_error.
Proof.
  split; [left; split; [reflexivity | discriminate] |].
  split; [vm_compute; reflexivity |].
  split; [| vm_compute; reflexivity].
  unfold spec_invalid. lia.
Qed.

(** C2, the defect: after a graceful shutdown without the writer thread
    the domain has left the registry, but the message is still in the
    buffer of the logger, the file object is open and nothing is on disk;
    with the writer thread the same run leaves the buffer empty, the
    message on disk and the file closed. *)
Theorem sync_shutdown_leaves_buffer_and_file :
  (domains sync_shutdown_run = [] /\
   buf <$> loggers sync_shutdown_run !! 0%nat = Some [("1000: INFO: hello" +:+ nl)%string] /\
   file_of sync_shutdown_run 0 = Some (mkFO 0 false "" 0) /\
   disk sync_shutdown_run "/tmp/app.log" = Some ""%string) /\
  (domains async_shutdown_run = [] /\
   buf <$> loggers async_shutdown_run !! 0%nat = Some [] /\
   files async_shutdown_run !! 0%nat = Some (mkFO 0 true "" 1) /\
   disk async_shutdown_run "/tmp/app.log" = Some ("1000: INFO: hello" +:+ nl)%string).
Proof. repeat split; vm_compute; reflexivity. Qed.

(** C3, the defect: [LogInit] for a domain that has a logger leaves that
    logger as it was, not stopped, its thread running and its file open,
    and opens the file again for the new one; [GetLogger] for it stops and
    joins the logger and then raises [KeyError], the registry empty and no
    new logger made. *)
Theorem reinit_leaves_previous_running :
  (domains init_twice_run = [("a"%string, Some 1%nat)] /\
   stopped <$> loggers init_twice_run !! 0%nat = Some false /\
   th_state <$> threads init_twice_run !! 0%nat = Some TRun /\
   file_of init_twice_run 0 = Some (mkFO 0 false "" 0) /\
   file_of init_twice_run 1 = Some (mkFO 0 false "" 0)) /\
  (let r := GetLogger (rt := sample_rt) (Some "a"%string) 10 (Some "/tmp/app.log"%string)
                      0 0 false None None init_once_run in
   r.1 = Raise KeyError /\ domains r.2 = [] /\ loggers r.2 !! 1%nat = None /\
   stopped <$> loggers r.2 !! 0%nat = Some true).
Proof. repeat split; vm_compute; reflexivity. Qed.

(** C4, the defect: after three entries with the same key, the count at 3
    and the third entry stored, the timer that fires writes the second
    entry, the one that armed it, without a count, and the logger keeps
    the timer; five entries and silence give four lines, one of them with
    the prefix, written when the fourth entry came. *)
Theorem timer_flush_drops_count :
  (_lastMsg <$> loggers same_message_run !! 0%nat
     = Some (mkLast (Some "m"%string) 3 (Some (mkEntry 1002 "root" 20 "m" ∅))) /\
   unflushed same_message_run 0 = Some ("1000: INFO: m" +:+ nl)%string /\
   unflushed three_then_silence 0
     = Some ("1000: INFO: m" +:+ nl +:+ "1001: INFO: m" +:+ nl)%string /\
   __thrTimer <$> loggers three_then_silence !! 0%nat = Some (Some 0%nat)) /\
  unflushed five_then_silence 0
    = Some ("1000: INFO: m" +:+ nl +:+ "3 times: 1002: INFO: m" +:+ nl +:+
            "1003: INFO: m" +:+ nl +:+ "1004: INFO: m" +:+ nl)%string.
Proof. repeat split; vm_compute; reflexivity. Qed.

(** C5, counterexample: with [app.log.3] a directory the rename for the
    third slot fails; the one for the second slot would succeed, and the
    loop of the specification makes it, but the rotation does not:
    [app.log.2] keeps its content, and the first backup is lost under the
    active file. *)
Lemma failed_rename_stops_the_shift :
  fs_listdir (fsys before_rotation) "/tmp" = Some backup_names /\
  fs_replace (fsys before_rotation) "/tmp/app.log.2" "/tmp/app.log.3" = None /\
  is_Some (fs_replace (fsys before_rotation) "/tmp/app.log.1" "/tmp/app.log.2") /\
  disk (shift_each_slot "/tmp" "app.log" "" backup_names (range_down 3) before_rotation).2
       "/tmp/app.log.2" = Some "one"%string /\
  disk after_rotation "/tmp/app.log.2" = Some "two"%string /\
  disk after_rotation "/tmp/app.log.1" = Some ("1000: INFO: hello" +:+ nl)%string.
Proof.
  split; [vm_compute; reflexivity |]. split; [vm_compute; reflexivity |].
  split; [vm_compute; eexists; reflexivity |].
  repeat split; vm_compute; reflexivity.
Qed.

(** The theorem of C5 on this rotation: the rename for the third slot
    fails, the rotation returns, the second backup is as it was. *)
Lemma shift_failure_ends_shift_witness :
  (rotation_start 0 before_rotation).1 = Ok rotating_logger /\
  fs_listdir (fsys (rotation_start 0 before_rotation).2) "/tmp" = Some backup_names /\
  range_down (backupCnt (common rotating_logger)) = [] ++ 3 :: [2] /\
  fs_replace (fsys (rotation_start 0 before_rotation).2) "/tmp/app.log.2" "/tmp/app.log.3"
    = None /\
  (__rotate 0 before_rotation).1 = Ok tt /\
  disk (__rotate 0 before_rotation).2 "/tmp/app.log.2" = Some "two"%string /\
  disk (__rotate 0 before_rotation).2 "/tmp/app.log.1"
    = Some ("1000: INFO: hello" +:+ nl)%string.
Proof.
  assert (H1 : (rotation_start 0 before_rotation).1 = Ok rotating_logger)
    by (vm_compute; reflexivity).
  assert (H2 : fs_listdir (fsys (rotation_start 0 before_rotation).2) "/tmp"
               = Some backup_names) by (vm_compute; reflexivity).
  assert (H3 : range_down (backupCnt (common rotating_logger)) = [] ++ 3 :: [2])
    by reflexivity.
  assert (H4 : fs_replace (fsys (rotation_start 0 before_rotation).2) "/tmp/app.log.2"
                 "/tmp/app.log.3" = None) by (vm_compute; reflexivity).
  pose proof (shift_failure_ends_shift 0 before_rotation rotating_logger "/tmp/app.log"
                "/tmp" "app.log" backup_names [] 3 [2]) as H.
  cbv zeta in H. specialize (H H1 eq_refl).
  repeat match type of H with
         | ?A -> _ =>
             let Hx := fresh "Hx" in
             assert (Hx : A);
             [ first [ solve [vm_compute; reflexivity]
                     | vm_compute; do 2 apply list_elem_of_further; apply list_elem_of_here ]
             | specialize (H Hx); clear Hx ]
         end.
  destruct H as (_ & Hrot & _).
  split; [exact H1 |]. split; [exact H2 |]. split; [exact H3 |]. split; [exact H4 |].
  rewrite Hrot. repeat split; vm_compute; reflexivity.
Defined.

(** C6, counterexample: [/tmp/app.log] and [/tmp/./app.log] resolve to one
    file; the loggers of the domains ["a"] and ["b"], made for the one and
    the other, are both in the registry, each with its own open file
    object on the same inode and its own queue. *)
Lemma two_names_two_files :
  resolve (fsys two_names_run) "/tmp/app.log" = resolve (fsys two_names_run) "/tmp/./app.log" /\
  domains two_names_run = [("a"%string, Some 0%nat); ("b"%string, Some 1%nat)] /\
  F <$> loggers two_names_run !! 0%nat = Some (Some 0%nat) /\
  F <$> loggers two_names_run !! 1%nat = Some (Some 1%nat) /\
  files two_names_run !! 0%nat = Some (mkFO 0 false "" 0) /\
  files two_names_run !! 1%nat = Some (mkFO 0 false "" 0) /\
  (fun L => queue (common L)) <$> loggers two_names_run !! 0%nat = Some 0%nat /\
  (fun L => queue (common L)) <$> loggers two_names_run !! 1%nat = Some 1%nat.
Proof. repeat split; vm_compute; reflexivity. Qed.

(** The theorem of C6 on the run with one name for the file. *)
Lemma one_file_per_registered_path_witness :
  reachable (rt := sample_rt) one_name_run /\
  one_file_per_path one_name_run /\
  (exists L', registered init_shared_run 0 L' /\ pathName L' = Some "/tmp/app.log"%string) /\
  fs_isdir (fsys init_shared_run) (dirname "/tmp/app.log") = true /\
  (Logger_init (rt := sample_rt) "b" 10 (Some "/tmp/app.log"%string) 0 0 false None None
               init_shared_run).1 = Ok 1%nat /\
  shares_post (domains init_shared_run) (loggers init_shared_run) (files init_shared_run)
    "/tmp/app.log" 1
    (Logger_init (rt := sample_rt) "b" 10 (Some "/tmp/app.log"%string) 0 0 false None None
                 init_shared_run).2.
Proof.
  assert (Hr : reachable (rt := sample_rt) one_name_run).
  { unfold one_name_run. apply reachable_run_all. apply reachable_start. }
  assert (HL : exists L', registered init_shared_run 0 L' /\
                          pathName L' = Some "/tmp/app.log"%string).
  { eexists. split; [split; [exists "a"%string |] |]; vm_compute; reflexivity. }
  assert (Hd : fs_isdir (fsys init_shared_run) (dirname "/tmp/app.log") = true)
    by (vm_compute; reflexivity).
  assert (Hok : (Logger_init (rt := sample_rt) "b" 10 (Some "/tmp/app.log"%string) 0 0 false
                   None None init_shared_run).1 = Ok 1%nat) by (vm_compute; reflexivity).
  split; [exact Hr |].
  split; [exact (proj1 (one_file_per_registered_path (rt := sample_rt)) one_name_run Hr) |].
  split; [exact HL |]. split; [exact Hd |]. split; [exact Hok |].
  destruct HL as (L' & HL' & Hp).
  exact (proj2 (one_file_per_registered_path (rt := sample_rt)) init_shared_run 0%nat L'
           "/tmp/app.log"%string "b"%string 10 0 0 false None None 1%nat HL' Hp Hd Hok).
Defined.

(** The theorem of C7 on a logger at level 100. *)
Lemma gated_call_is_noop_witness :
  (exists L, loggers quiet_run !! 0%nat = Some L /\ level L = 100) /\
  debug (rt := sample_rt) 0 "x" [] ∅ quiet_run = (Ok tt, quiet_run) /\
  info (rt := sample_rt) 0 "x" [] ∅ quiet_run = (Ok tt, quiet_run) /\
  warning (rt := sample_rt) 0 "x" [] ∅ quiet_run = (Ok tt, quiet_run) /\
  error (rt := sample_rt) 0 "x" [] ∅ quiet_run = (Ok tt, quiet_run) /\
  fatal (rt := sample_rt) 0 "x" [] ∅ quiet_run = (Ok tt, quiet_run) /\
  exception (rt := sample_rt) 0 "x" [] ∅ quiet_run = (Ok tt, quiet_run).
Proof.
  assert (HL : exists L, loggers quiet_run !! 0%nat = Some L /\ level L = 100)
    by (eexists; split; vm_compute; reflexivity).
  split; [exact HL |].
  destruct HL as (L & HL & Hlv).
  destruct (gated_call_is_noop (rt := sample_rt) quiet_run 0 L "x" [] ∅ HL)
    as (H1 & H2 & H3 & H4 & H5 & H6).
  rewrite Hlv in *.
  split; [apply H1; reflexivity |]. split; [apply H2; reflexivity |].
  split; [apply H3; reflexivity |]. split; [apply H4; reflexivity |].
  split; [apply H5; reflexivity | apply H6; reflexivity].
Defined.

(** The theorem of C10 on a logger at level 10. *)
Lemma critical_is_fatal_witness :
  (exists L, loggers init_shared_run !! 0%nat = Some L) /\
  critical (rt := sample_rt) 0 "x" [] ∅ init_shared_run
    = fatal (rt := sample_rt) 0 "x" [] ∅ init_shared_run.
Proof.
  assert (HL : exists L, loggers init_shared_run !! 0%nat = Some L)
    by (eexists; vm_compute; reflexivity).
  split; [exact HL |]. destruct HL as (L & HL).
  exact (proj1 (critical_is_fatal (rt := sample_rt) init_shared_run 0 L "x" [] ∅ HL)).
Defined.





(** * The further properties on runs *)

(** X1 on the run with two domains. *)
Lemma registry_keys_are_domains_witness :
  reachable (rt := sample_rt) one_name_run /\
  dict_get "b" (domains one_name_run) = Some (Some 1%nat) /\
  exists L, loggers one_name_run !! 1%nat = Some L /\ domain L = "b"%string.
Proof.
  assert (Hr : reachable (rt := sample_rt) one_name_run).
  { unfold one_name_run. apply reachable_run_all. apply reachable_start. }
  assert (Hd : dict_get "b" (domains one_name_run) = Some (Some 1%nat))
    by (vm_compute; reflexivity).
  split; [exact Hr |]. split; [exact Hd |].
  exact (registry_keys_are_domains (rt := sample_rt) one_name_run "b"%string 1%nat Hr Hd).
Defined.

(** X2 on a logger without a writer thread, stopped. *)
Lemma stopped_logger_refuses_witness :
  (stop (rt := sample_rt) 0 false init_shared_run).1 = Ok tt /\
  log (rt := sample_rt) 0 20 "x" [] ∅ (stop (rt := sample_rt) 0 false init_shared_run).2
    = (Raise already_stopped, (stop (rt := sample_rt) 0 false init_shared_run).2) /\
  refused (info (rt := sample_rt) 0 "x" [] ∅) (stop (rt := sample_rt) 0 false init_shared_run).2.
Proof.
  assert (H : (stop (rt := sample_rt) 0 false init_shared_run).1 = Ok tt)
    by (vm_compute; reflexivity).
  destruct (stopped_logger_refuses (rt := sample_rt) init_shared_run 0 false 20 "x" [] ∅ H)
    as (H1 & _ & H2 & _).
  split; [exact H |]. split; [exact H1 | exact H2].
Defined.

(** X3 on a logger with a message in its queue. *)
Lemma stop_queues_sentinel_witness :
  loggers queued_run !! 0%nat = Some (logger_at queued_run 0) /\
  queues queued_run !! queue (common (logger_at queued_run 0))
    = Some [Some (mkEntry 1000 "root" 20 "hello" ∅)] /\
  (stop (rt := sample_rt) 0 false queued_run).1 = Ok tt /\
  queues (stop (rt := sample_rt) 0 false queued_run).2 !! queue (common (logger_at queued_run 0))
    = Some ([Some (mkEntry 1000 "root" 20 "hello" ∅)] ++ [None]) /\
  domains (stop (rt := sample_rt) 0 false queued_run).2 = domains queued_run.
Proof.
  assert (HL : loggers queued_run !! 0%nat = Some (logger_at queued_run 0))
    by (vm_compute; reflexivity).
  assert (Hq : queues queued_run !! queue (common (logger_at queued_run 0))
               = Some [Some (mkEntry 1000 "root" 20 "hello" ∅)]) by (vm_compute; reflexivity).
  assert (Hok : (stop (rt := sample_rt) 0 false queued_run).1 = Ok tt)
    by (vm_compute; reflexivity).
  destruct (stop_queues_sentinel (rt := sample_rt) queued_run 0 false (logger_at queued_run 0)
              [Some (mkEntry 1000 "root" 20 "hello" ∅)] HL Hq Hok) as (H1 & _ & _ & H2 & _).
  split; [exact HL |]. split; [exact Hq |]. split; [exact Hok |].
  split; [exact H1 | exact H2].
Defined.

(** X4 on the run with two domains: the shutdown of the first logger. *)
Lemma shutdown_unregisters_witness :
  loggers one_name_run !! 0%nat = Some (logger_at one_name_run 0) /\
  (shutdown (rt := sample_rt) 0 false one_name_run).1 = Ok tt /\
  domains (shutdown (rt := sample_rt) 0 false one_name_run).2
    = dict_remove (domain (logger_at one_name_run 0)) (domains one_name_run) /\
  dict_get (domain (logger_at one_name_run 0))
    (domains (shutdown (rt := sample_rt) 0 false one_name_run).2) = None.
Proof.
  assert (HL : loggers one_name_run !! 0%nat = Some (logger_at one_name_run 0))
    by (vm_compute; reflexivity).
  assert (Hok : (shutdown (rt := sample_rt) 0 false one_name_run).1 = Ok tt)
    by (vm_compute; reflexivity).
  destruct (shutdown_unregisters (rt := sample_rt) one_name_run 0 false
              (logger_at one_name_run 0) HL Hok) as (_ & H1 & H2 & _).
  split; [exact HL |]. split; [exact Hok |]. split; [exact H1 | exact H2].
Defined.

(** X5 on a logger without a writer thread. *)
Lemma join_twice_raises_witness :
  (join (rt := sample_rt) 0 init_shared_run).1 = Ok tt /\
  join (rt := sample_rt) 0 (join (rt := sample_rt) 0 init_shared_run).2 = (Raise KeyError, (join (rt := sample_rt) 0 init_shared_run).2).
Proof.
  assert (H : (join (rt := sample_rt) 0 init_shared_run).1 = Ok tt) by (vm_compute; reflexivity).
  split; [exact H |].
  exact (join_twice_raises (rt := sample_rt) init_shared_run 0 H).
Defined.

(** X6 on the domain ["a"], which holds a logger. *)
Lemma GetLogger_never_replaces_witness :
  reachable (rt := sample_rt) init_shared_run /\
  dict_get (default "root"%string (Some "a"%string)) (domains init_shared_run)
    = Some (Some 0%nat) /\
  (shutdown (rt := sample_rt) 0 false init_shared_run).1 = Ok tt /\
  GetLogger (rt := sample_rt) (Some "a"%string) 10 (Some "/tmp/b.log"%string) 0 0 false None None
            init_shared_run
    = (Raise KeyError, (shutdown (rt := sample_rt) 0 false init_shared_run).2).
Proof.
  assert (Hr : reachable (rt := sample_rt) init_shared_run).
  { unfold init_shared_run. apply reachable_run_all. apply reachable_start. }
  assert (Hd : dict_get (default "root"%string (Some "a"%string)) (domains init_shared_run)
               = Some (Some 0%nat)) by (vm_compute; reflexivity).
  assert (Hok : (shutdown (rt := sample_rt) 0 false init_shared_run).1 = Ok tt)
    by (vm_compute; reflexivity).
  split; [exact Hr |]. split; [exact Hd |]. split; [exact Hok |].
  exact (proj2 (GetLogger_never_replaces (rt := sample_rt) init_shared_run (Some "a"%string)
                  0%nat 10 (Some "/tmp/b.log"%string) 0 0 false None None Hr Hd) Hok).
Defined.

(** X7 before [LogInit], and for a second domain after it. *)
Lemma GetLogger_registers_witness :
  (domains sample_world = [] /\
   GetLogger (rt := sample_rt) (Some "b"%string) 10 None 0 0 false None None sample_world
     = (Raise (ValueError "Call LogInit first"), sample_world)) /\
  reachable (rt := sample_rt) init_shared_run /\
  (GetLogger (rt := sample_rt) (Some "b"%string) 10 None 0 0 false None None
             init_shared_run).1 = Ok 1%nat /\
  domains (GetLogger (rt := sample_rt) (Some "b"%string) 10 None 0 0 false None None
                     init_shared_run).2
    = dict_remove (default "root"%string (Some "b"%string)) (domains init_shared_run)
        ++ [(default "root"%string (Some "b"%string), Some 1%nat)] /\
  loggers init_shared_run !! 1%nat = None.
Proof.
  assert (He : domains sample_world = []) by reflexivity.
  assert (Hr : reachable (rt := sample_rt) init_shared_run).
  { unfold init_shared_run. apply reachable_run_all. apply reachable_start. }
  assert (Hok : (GetLogger (rt := sample_rt) (Some "b"%string) 10 None 0 0 false None None
                           init_shared_run).1 = Ok 1%nat) by (vm_compute; reflexivity).
  split.
  - split; [exact He |].
    exact (proj1 (GetLogger_registers (rt := sample_rt) sample_world (Some "b"%string) 10 None
                    0 0 false None None) He).
  - destruct (proj2 (GetLogger_registers (rt := sample_rt) init_shared_run (Some "b"%string) 10
                       None 0 0 false None None) 1%nat Hr Hok) as (H1 & H2 & _).
    split; [exact Hr |]. split; [exact Hok |]. split; [exact H1 | exact H2].
Defined.

(** X8 on the run with two domains. *)
Lemma Shutdown_empties_registry_witness :
  reachable (rt := sample_rt) one_name_run /\
  (Shutdown (rt := sample_rt) false one_name_run).1 = Ok tt /\
  domains (Shutdown (rt := sample_rt) false one_name_run).2 = [].
Proof.
  assert (Hr : reachable (rt := sample_rt) one_name_run).
  { unfold one_name_run. apply reachable_run_all. apply reachable_start. }
  assert (Hok : (Shutdown (rt := sample_rt) false one_name_run).1 = Ok tt)
    by (vm_compute; reflexivity).
  split; [exact Hr |]. split; [exact Hok |].
  exact (Shutdown_empties_registry (rt := sample_rt) one_name_run false Hr Hok).
Defined.

(** X9 on a logger whose file the writer thread has closed. *)
Lemma logMessage_survives_file_errors_witness :
  loggers async_shutdown_run !! 0%nat = Some (logger_at async_shutdown_run 0) /\
  cbFormatter (cls async_shutdown_run) = None /\
  is_Some (LOG2SYM (Runtime := sample_rt) !! e_level (mkEntry 1000 "root" 20 "x" ∅)) /\
  (_logMessage (rt := sample_rt) 0 None (Some (mkEntry 1000 "root" 20 "x" ∅)) 0
               async_shutdown_run).1 = Ok tt.
Proof.
  assert (HL : loggers async_shutdown_run !! 0%nat = Some (logger_at async_shutdown_run 0))
    by (vm_compute; reflexivity).
  assert (Hf : cbFormatter (cls async_shutdown_run) = None) by (vm_compute; reflexivity).
  assert (Hs : is_Some (LOG2SYM (Runtime := sample_rt) !! e_level (mkEntry 1000 "root" 20 "x" ∅)))
    by (exists "INFO"%string; vm_compute; reflexivity).
  split; [exact HL |]. split; [exact Hf |]. split; [exact Hs |].
  exact (logMessage_survives_file_errors (rt := sample_rt) async_shutdown_run 0
           (logger_at async_shutdown_run 0) None (mkEntry 1000 "root" 20 "x" ∅) 0 HL Hf Hs).
Defined.

(** X10 on a logger without a writer thread and without a rotation size. *)
Lemma sync_log_writes_through_witness :
  (loggers init_shared_run !! 0%nat = Some (logger_at init_shared_run 0) /\
   stopped (logger_at init_shared_run 0) = false /\
   F (logger_at init_shared_run 0) = Some 0%nat /\
   files init_shared_run !! 0%nat = Some (mkFO 0 false "" 0) /\
   maxSize (common (logger_at init_shared_run 0)) = 0 /\
   useThreads (cls init_shared_run) = false /\
   sameMsgCountMax (cls init_shared_run) <= 0 /\
   cbFormatter (cls init_shared_run) = None /\ cbWriter (cls init_shared_run) = None /\
   formatted (rt := sample_rt) "hello" [] = Some "hello"%string /\
   LOG2SYM (Runtime := sample_rt) !! 20 = Some "INFO"%string) /\
  exists w',
    log (rt := sample_rt) 0 20 "hello" [] ∅ init_shared_run = (Ok tt, w') /\
    files w' !! 0%nat = Some (mkFO 0 false ("1000: INFO: hello" +:+ nl) 0) /\
    stdout w' = stdout init_shared_run /\ fsys w' = fsys init_shared_run.
Proof.
  assert (HL : loggers init_shared_run !! 0%nat = Some (logger_at init_shared_run 0))
    by (vm_compute; reflexivity).
  assert (Hs : stopped (logger_at init_shared_run 0) = false) by (vm_compute; reflexivity).
  assert (HF : F (logger_at init_shared_run 0) = Some 0%nat) by (vm_compute; reflexivity).
  assert (Hf : files init_shared_run !! 0%nat = Some (mkFO 0 false "" 0))
    by (vm_compute; reflexivity).
  assert (Hc : fo_closed (mkFO 0 false "" 0) = false) by reflexivity.
  assert (Hm : maxSize (common (logger_at init_shared_run 0)) = 0) by (vm_compute; reflexivity).
  assert (Hut : useThreads (cls init_shared_run) = false) by (vm_compute; reflexivity).
  assert (Hsm : sameMsgCountMax (cls init_shared_run) <= 0) by (vm_compute; discriminate).
  assert (Hcf : cbFormatter (cls init_shared_run) = None) by (vm_compute; reflexivity).
  assert (Hcw : cbWriter (cls init_shared_run) = None) by (vm_compute; reflexivity).
  assert (Hfm : formatted (rt := sample_rt) "hello" [] = Some "hello"%string) by reflexivity.
  assert (Hsy : LOG2SYM (Runtime := sample_rt) !! 20 = Some "INFO"%string)
    by (vm_compute; reflexivity).
  assert (Hk : (∅ : gmap string pyval) !! "exc_info"%string = None) by reflexivity.
  split; [exact (conj HL (conj Hs (conj HF (conj Hf (conj Hm (conj Hut (conj Hsm (conj Hcf
                   (conj Hcw (conj Hfm Hsy)))))))))) |].
  destruct (sync_log_writes_through (rt := sample_rt) init_shared_run 0
              (logger_at init_shared_run 0) 0%nat (mkFO 0 false "" 0) 20 "hello" [] ∅ "hello"
              "INFO" HL Hs HF Hf Hc Hm Hut Hsm Hcf Hcw Hfm Hsy Hk)
    as (w' & Hlog & Hfiles & _ & _ & Hout & _ & Hfs & _).
  exists w'. split; [exact Hlog |]. split; [| split; [exact Hout | exact Hfs]].
  rewrite Hfiles. vm_compute. reflexivity.
Defined.

(** X11 on a logger with [maxSize = 4096]. *)
Lemma sized_log_is_buffered_witness :
  (loggers sized_run !! 0%nat = Some (logger_at sized_run 0) /\
   stopped (logger_at sized_run 0) = false /\ F (logger_at sized_run 0) = Some 0%nat /\
   maxSize (common (logger_at sized_run 0)) <> 0 /\
   useThreads (cls sized_run) = false /\ sameMsgCountMax (cls sized_run) <= 0 /\
   cbFormatter (cls sized_run) = None /\ colors (cls sized_run) = false /\
   thrConsoleLogger (cls sized_run) = None /\
   pos (logger_at sized_run 0)
     + (Z.of_nat (String.length
                    (text_of (rt := sample_rt) (dateFmt (cls sized_run))
                       (mkEntry (clock sized_run) (domain (logger_at sized_run 0)) 20 "hello" ∅)
                       "INFO")) + 1)
     < maxSize (common (logger_at sized_run 0))) /\
  exists w',
    log (rt := sample_rt) 0 20 "hello" [] ∅ sized_run = (Ok tt, w') /\
    files w' = files sized_run /\ fsys w' = fsys sized_run /\
    stdout w' = stdout sized_run /\ stderr w' = stderr sized_run.
Proof.
  assert (HL : loggers sized_run !! 0%nat = Some (logger_at sized_run 0))
    by (vm_compute; reflexivity).
  assert (Hs : stopped (logger_at sized_run 0) = false) by (vm_compute; reflexivity).
  assert (HF : F (logger_at sized_run 0) = Some 0%nat) by (vm_compute; reflexivity).
  assert (Hm : maxSize (common (logger_at sized_run 0)) <> 0) by (vm_compute; discriminate).
  assert (Hut : useThreads (cls sized_run) = false) by (vm_compute; reflexivity).
  assert (Hsm : sameMsgCountMax (cls sized_run) <= 0) by (vm_compute; discriminate).
  assert (Hcf : cbFormatter (cls sized_run) = None) by (vm_compute; reflexivity).
  assert (Hco : colors (cls sized_run) = false) by (vm_compute; reflexivity).
  assert (Htc : thrConsoleLogger (cls sized_run) = None) by (vm_compute; reflexivity).
  assert (Hfm : formatted (rt := sample_rt) "hello" [] = Some "hello"%string) by reflexivity.
  assert (Hsy : LOG2SYM (Runtime := sample_rt) !! 20 = Some "INFO"%string)
    by (vm_compute; reflexivity).
  assert (Hk : (∅ : gmap string pyval) !! "exc_info"%string = None) by reflexivity.
  assert (Hkc : (∅ : gmap string pyval) !! "console"%string = None) by reflexivity.
  assert (Hlt : pos (logger_at sized_run 0)
     + (Z.of_nat (String.length
                    (text_of (rt := sample_rt) (dateFmt (cls sized_run))
                       (mkEntry (clock sized_run) (domain (logger_at sized_run 0)) 20 "hello" ∅)
                       "INFO")) + 1)
     < maxSize (common (logger_at sized_run 0))) by (vm_compute; reflexivity).
  split; [exact (conj HL (conj Hs (conj HF (conj Hm (conj Hut (conj Hsm (conj Hcf (conj Hco
                   (conj Htc Hlt))))))))) |].
  destruct (sized_log_is_buffered (rt := sample_rt) sized_run 0 (logger_at sized_run 0) 0%nat
              20 "hello" [] ∅ "hello" "INFO" HL Hs HF Hm Hut Hsm Hcf Hco Htc Hfm Hsy Hk Hkc Hlt)
    as (w' & Hlog & Hfiles & Hfs & _ & Hout & Herr).
  exists w'. split; [exact Hlog |]. split; [exact Hfiles |]. split; [exact Hfs |].
  split; [exact Hout | exact Herr].
Defined.

(** X12 on the writer of a stopped logger with a line in its buffer. *)
Lemma writer_flushes_and_closes_witness :
  (loggers ended_run !! 0%nat = Some (logger_at ended_run 0) /\
   queues ended_run !! queue (common (logger_at ended_run 0)) = Some [None] /\
   F (logger_at ended_run 0) = Some 0%nat /\
   files ended_run !! 0%nat = Some (mkFO 0 false "" 0) /\
   cbWriter (cls ended_run) = None) /\
  exists w',
    logThread_pass (rt := sample_rt) 0 ended_run = (Ok TDone, w') /\
    files w' = <[0%nat := mkFO 0 true "" 1]> (files ended_run) /\
    inodes (fsys w') !! 0%nat = Some ("1000: INFO: hello" +:+ nl)%string.
Proof.
  assert (HL : loggers ended_run !! 0%nat = Some (logger_at ended_run 0))
    by (vm_compute; reflexivity).
  assert (Hq : queues ended_run !! queue (common (logger_at ended_run 0)) = Some [None])
    by (vm_compute; reflexivity).
  assert (HF : F (logger_at ended_run 0) = Some 0%nat) by (vm_compute; reflexivity).
  assert (Hf : files ended_run !! 0%nat = Some (mkFO 0 false "" 0)) by (vm_compute; reflexivity).
  assert (Hc : fo_closed (mkFO 0 false "" 0) = false) by reflexivity.
  assert (Hcw : cbWriter (cls ended_run) = None) by (vm_compute; reflexivity).
  split; [exact (conj HL (conj Hq (conj HF (conj Hf Hcw)))) |].
  destruct (writer_flushes_and_closes (rt := sample_rt) ended_run 0 (logger_at ended_run 0)
              0%nat (mkFO 0 false "" 0) [] HL Hq HF Hf Hc Hcw)
    as (w' & Hpass & _ & Hfiles & Hino & _).
  exists w'. split; [exact Hpass |]. split; [exact Hfiles |].
  etrans; [exact Hino |]. vm_compute. reflexivity.
Defined.

(** X13 on the second message of a row. *)
Lemma repeated_message_is_counted_witness :
  (loggers one_message_run !! 0%nat = Some (logger_at one_message_run 0) /\
   stopped (logger_at one_message_run 0) = false /\
   useThreads (cls one_message_run) = false /\
   sameMsgCountMax (cls one_message_run) > 0 /\ cbMessageKey (cls one_message_run) = None /\
   key (_lastMsg (logger_at one_message_run 0)) = Some "m"%string /\
   cnt (_lastMsg (logger_at one_message_run 0)) < sameMsgCountMax (cls one_message_run)) /\
  exists w', log (rt := sample_rt) 0 20 "m" [] ∅ one_message_run = (Ok tt, w').
Proof.
  assert (HL : loggers one_message_run !! 0%nat = Some (logger_at one_message_run 0))
    by (vm_compute; reflexivity).
  assert (Hs : stopped (logger_at one_message_run 0) = false) by (vm_compute; reflexivity).
  assert (Hfm : formatted (rt := sample_rt) "m" [] = Some "m"%string) by reflexivity.
  assert (Hut : useThreads (cls one_message_run) = false) by (vm_compute; reflexivity).
  assert (Hsm : sameMsgCountMax (cls one_message_run) > 0) by (vm_compute; reflexivity).
  assert (Hmk : cbMessageKey (cls one_message_run) = None) by (vm_compute; reflexivity).
  assert (Hk : key (_lastMsg (logger_at one_message_run 0)) = Some "m"%string)
    by (vm_compute; reflexivity).
  assert (Hc : cnt (_lastMsg (logger_at one_message_run 0)) < sameMsgCountMax (cls one_message_run))
    by (vm_compute; reflexivity).
  split; [exact (conj HL (conj Hs (conj Hut (conj Hsm (conj Hmk (conj Hk Hc)))))) |].
  eexists.
  exact (repeated_message_is_counted (rt := sample_rt) one_message_run 0
           (logger_at one_message_run 0) 20 "m" [] ∅ "m" HL Hs Hfm (or_introl Hut) Hsm Hmk Hk Hc).
Defined.

(** X14 on a domain that holds a logger. *)
Lemma LogInit_failure_unregisters_witness :
  code_invalid 5 0 /\
  LogInit (rt := sample_rt) (Some "a"%string) 10 (Some "/tmp/app.log"%string) 5 0 false false
          None false None None None init_shared_run
    = (Raise config_error,
       upd_domains (fun ds => dict_remove (default "root"%string (Some "a"%string))
                                (dict_set (default "root"%string (Some "a"%string)) None ds))
         (upd_cls (init_cls false None false None) init_shared_run)).
Proof.
  assert (H : code_invalid 5 0) by (unfold code_invalid; lia).
  split; [exact H |].
  exact (proj1 (LogInit_failure_unregisters (rt := sample_rt) init_shared_run (Some "a"%string)
                  10 (Some "/tmp/app.log"%string) 5 0 false false None false None None None H)).
Defined.

(** X15 on a second domain. *)
Lemma LogInit_registers_witness :
  reachable (rt := sample_rt) init_shared_run /\
  (LogInit (rt := sample_rt) (Some "b"%string) 10 (Some "/tmp/b.log"%string) 0 0 false false
           None false None None None init_shared_run).1 = Ok 1%nat /\
  dict_get (default "root"%string (Some "b"%string))
    (domains (LogInit (rt := sample_rt) (Some "b"%string) 10 (Some "/tmp/b.log"%string) 0 0
                      false false None false None None None init_shared_run).2)
    = Some (Some 1%nat) /\
  loggers init_shared_run !! 1%nat = None.
Proof.
  assert (Hr : reachable (rt := sample_rt) init_shared_run).
  { unfold init_shared_run. apply reachable_run_all. apply reachable_start. }
  assert (Hok : (LogInit (rt := sample_rt) (Some "b"%string) 10 (Some "/tmp/b.log"%string) 0 0
                         false false None false None None None init_shared_run).1 = Ok 1%nat)
    by (vm_compute; reflexivity).
  destruct (LogInit_registers (rt := sample_rt) init_shared_run (Some "b"%string) 10
              (Some "/tmp/b.log"%string) 0 0 false false None false None None None 1%nat Hr Hok)
    as (H1 & _ & H2 & _).
  split; [exact Hr |]. split; [exact Hok |]. split; [exact H1 | exact H2].
Defined.

(** X16 on a file name without a directory part. *)
Lemma no_directory_no_file_witness :
  no_slash "app.log" = true /\
  no_directory (fsys sample_world) (Some "app.log"%string) /\
  (Logger_init (rt := sample_rt) "root" 10 (Some "app.log"%string) 0 0 false None None
               sample_world).1 = Ok 0%nat /\
  files (Logger_init (rt := sample_rt) "root" 10 (Some "app.log"%string) 0 0 false None None
                     sample_world).2 = files sample_world /\
  fsys (Logger_init (rt := sample_rt) "root" 10 (Some "app.log"%string) 0 0 false None None
                    sample_world).2 = fsys sample_world.
Proof.
  assert (Hs : no_slash "app.log" = true) by reflexivity.
  assert (Hn : no_directory (fsys sample_world) (Some "app.log"%string)).
  { exact (proj2 (no_directory_no_file (rt := sample_rt) sample_world "root" 10
                    (Some "app.log"%string) 0 0 false None None) "app.log"%string Hs). }
  assert (Hok : (Logger_init (rt := sample_rt) "root" 10 (Some "app.log"%string) 0 0 false None
                             None sample_world).1 = Ok 0%nat) by (vm_compute; reflexivity).
  destruct (proj1 (no_directory_no_file (rt := sample_rt) sample_world "root" 10
                     (Some "app.log"%string) 0 0 false None None) 0%nat Hn Hok)
    as (H1 & H2 & _).
  split; [exact Hs |]. split; [exact Hn |]. split; [exact Hok |]. split; [exact H1 | exact H2].
Defined.

(** X17 on a logger with a writer thread and an empty queue. *)
Lemma queued_entry_reaches_file_witness :
  (loggers init_once_run !! 0%nat = Some first_logger /\
   files init_once_run !! 0%nat = Some (mkFO 0 false "" 0) /\
   queues init_once_run !! queue (common first_logger) = Some [] /\
   useThreads (cls init_once_run) = true /\ sameMsgCountMax (cls init_once_run) <= 0 /\
   cbFormatter (cls init_once_run) = None /\ cbWriter (cls init_once_run) = None /\
   size first_logger
     + (Z.of_nat (String.length
                    (text_of (rt := sample_rt) (dateFmt (cls init_once_run))
                       (mkEntry (clock init_once_run) (domain first_logger) 20 "hello" ∅)
                       "INFO")) + 1) < 4096) /\
  exists w1 w2 w3,
    log (rt := sample_rt) 0 20 "hello" [] ∅ init_once_run = (Ok tt, w1) /\
    logThread_pass (rt := sample_rt) 0 w1 = (Ok TRun, w2) /\
    logThread_pass (rt := sample_rt) 0 w2 = (Ok TWait, w3) /\
    files w3 !! 0%nat = Some (mkFO 0 false ("1000: INFO: hello" +:+ nl) 0).
Proof.
  assert (HL : loggers init_once_run !! 0%nat = Some first_logger) by (vm_compute; reflexivity).
  assert (Hs : stopped first_logger = false) by reflexivity.
  assert (Ht : __thrLogger first_logger = Some 0%nat) by reflexivity.
  assert (HF : F first_logger = Some 0%nat) by reflexivity.
  assert (Hf : files init_once_run !! 0%nat = Some (mkFO 0 false "" 0))
    by (vm_compute; reflexivity).
  assert (Hc : fo_closed (mkFO 0 false "" 0) = false) by reflexivity.
  assert (Hq : queues init_once_run !! queue (common first_logger) = Some [])
    by (vm_compute; reflexivity).
  assert (Hm : maxSize (common first_logger) = 0) by reflexivity.
  assert (Hut : useThreads (cls init_once_run) = true) by (vm_compute; reflexivity).
  assert (Hsm : sameMsgCountMax (cls init_once_run) <= 0) by (vm_compute; discriminate).
  assert (Hcf : cbFormatter (cls init_once_run) = None) by (vm_compute; reflexivity).
  assert (Hcw : cbWriter (cls init_once_run) = None) by (vm_compute; reflexivity).
  assert (Hfm : formatted (rt := sample_rt) "hello" [] = Some "hello"%string) by reflexivity.
  assert (Hsy : LOG2SYM (Runtime := sample_rt) !! 20 = Some "INFO"%string)
    by (vm_compute; reflexivity).
  assert (Hk : (∅ : gmap string pyval) !! "exc_info"%string = None) by reflexivity.
  assert (Hlt : size first_logger
     + (Z.of_nat (String.length
                    (text_of (rt := sample_rt) (dateFmt (cls init_once_run))
                       (mkEntry (clock init_once_run) (domain first_logger) 20 "hello" ∅)
                       "INFO")) + 1) < 4096) by (vm_compute; reflexivity).
  split; [exact (conj HL (conj Hf (conj Hq (conj Hut (conj Hsm (conj Hcf (conj Hcw Hlt))))))) |].
  destruct (queued_entry_reaches_file (rt := sample_rt) init_once_run 0 first_logger 0%nat 0%nat
              (mkFO 0 false "" 0) 20 "hello" [] ∅ "hello" "INFO"
              HL Hs Ht HF Hf Hc Hq Hm Hut Hsm Hcf Hcw Hfm Hsy Hk Hlt)
    as (w1 & w2 & w3 & Hlog & _ & _ & Hp1 & _ & _ & _ & Hp2 & Hfiles & _).
  exists w1, w2, w3. split; [exact Hlog |]. split; [exact Hp1 |]. split; [exact Hp2 |].
  rewrite Hfiles. vm_compute. reflexivity.
Defined.

(** X18 on the rotation of a logger with a line in its buffer. *)
Lemma rotation_renews_file_witness :
  (loggers before_rotation !! 0%nat = Some (logger_at before_rotation 0) /\
   F (logger_at before_rotation 0) = Some 0%nat /\
   files before_rotation !! 0%nat = Some (mkFO 2 false "" 0) /\
   cbWriter (cls before_rotation) = None /\ compress (cls before_rotation) = None /\
   (__rotate 0 before_rotation).1 = Ok tt) /\
  exists L' h',
    loggers (__rotate 0 before_rotation).2 !! 0%nat = Some L' /\ F L' = Some h' /\
    h' <> 0%nat /\ pos L' = 0 /\ buf L' = [] /\
    files (__rotate 0 before_rotation).2 !! 0%nat = Some (mkFO 2 true "" 1) /\
    inodes (fsys (__rotate 0 before_rotation).2) !! 2%nat
      = Some ("1000: INFO: hello" +:+ nl)%string.
Proof.
  assert (HL : loggers before_rotation !! 0%nat = Some (logger_at before_rotation 0))
    by (vm_compute; reflexivity).
  assert (HF : F (logger_at before_rotation 0) = Some 0%nat) by (vm_compute; reflexivity).
  assert (Hf : files before_rotation !! 0%nat = Some (mkFO 2 false "" 0))
    by (vm_compute; reflexivity).
  assert (Hc : fo_closed (mkFO 2 false "" 0) = false) by reflexivity.
  assert (Hcw : cbWriter (cls before_rotation) = None) by (vm_compute; reflexivity).
  assert (Hcp : compress (cls before_rotation) = None) by (vm_compute; reflexivity).
  assert (Hok : (__rotate 0 before_rotation).1 = Ok tt) by (vm_compute; reflexivity).
  split; [exact (conj HL (conj HF (conj Hf (conj Hcw (conj Hcp Hok))))) |].
  destruct (rotation_renews_file before_rotation 0 (logger_at before_rotation 0) 0%nat
              (mkFO 2 false "" 0) HL HF Hf Hc Hcw Hcp Hok)
    as (L' & h' & i' & H1 & H2 & H3 & H4 & H5 & _ & H6 & H7).
  exists L', h'. split; [exact H1 |]. split; [exact H2 |]. split; [exact H3 |].
  split; [exact H4 |]. split; [exact H5 |]. split; [exact H6 |].
  etrans; [exact H7 |]. vm_compute. reflexivity.
Defined.

(** X19 on a registry with one logger, which has a writer thread. *)
Lemma Rotate_signals_writers_witness :
  useThreads (cls init_once_run) = true /\
  (forall v, v ∈ map snd (domains init_once_run) ->
     exists l, v = Some l /\ is_Some (loggers init_once_run !! l)) /\
  exists ev',
    Rotate init_once_run = (Ok tt, upd_events (fun _ => ev') init_once_run) /\
    more_set (events init_once_run) ev' /\
    ev' !! evtRotate (common first_logger) = Some true.
Proof.
  assert (Hut : useThreads (cls init_once_run) = true) by (vm_compute; reflexivity).
  assert (Hd : domains init_once_run = [("a"%string, Some 0%nat)]) by (vm_compute; reflexivity).
  assert (HL : loggers init_once_run !! 0%nat = Some first_logger) by (vm_compute; reflexivity).
  assert (Hreg : forall v, v ∈ map snd (domains init_once_run) ->
                   exists l, v = Some l /\ is_Some (loggers init_once_run !! l)).
  { intros v Hv. rewrite Hd in Hv. apply list_elem_of_singleton in Hv as ->.
    exists 0%nat. split; [reflexivity |]. exists first_logger. exact HL. }
  split; [exact Hut |]. split; [exact Hreg |].
  destruct (Rotate_signals_writers init_once_run Hut Hreg) as (ev' & H1 & H2 & H3).
  exists ev'. split; [exact H1 |]. split; [exact H2 |].
  apply (H3 0%nat first_logger).
  - rewrite Hd. apply list_elem_of_here.
  - exact HL.
  - discriminate.
  - exists false. vm_compute. reflexivity.
Defined.

(** X20 on a row of three messages, and then another message. *)
Lemma other_message_flushes_count_witness :
  (loggers same_message_run !! 0%nat = Some (logger_at same_message_run 0) /\
   stopped (logger_at same_message_run 0) = false /\
   useThreads (cls same_message_run) = false /\ sameMsgCountMax (cls same_message_run) > 0 /\
   cbMessageKey (cls same_message_run) = None /\ cbFormatter (cls same_message_run) = None /\
   cbWriter (cls same_message_run) = None /\ F (logger_at same_message_run 0) = Some 0%nat /\
   files same_message_run !! 0%nat = Some (mkFO 0 false ("1000: INFO: m" +:+ nl) 0) /\
   maxSize (common (logger_at same_message_run 0)) = 0 /\
   __thrTimer (logger_at same_message_run 0) = Some 0%nat /\
   _lastMsg (logger_at same_message_run 0)
     = mkLast (Some "m"%string) 3 (Some (mkEntry 1002 "root" 20 "m" ∅))) /\
  exists w',
    log (rt := sample_rt) 0 20 "n" [] ∅ same_message_run = (Ok tt, w') /\
    files w' !! 0%nat
      = Some (mkFO 0 false ("1000: INFO: m" +:+ nl +:+ "3 times: 1002: INFO: m" +:+ nl +:+
                            "1003: INFO: n" +:+ nl) 0).
Proof.
  assert (HL : loggers same_message_run !! 0%nat = Some (logger_at same_message_run 0))
    by (vm_compute; reflexivity).
  assert (Hs : stopped (logger_at same_message_run 0) = false) by (vm_compute; reflexivity).
  assert (Hfm : formatted (rt := sample_rt) "n" [] = Some "n"%string) by reflexivity.
  assert (Hut : useThreads (cls same_message_run) = false) by (vm_compute; reflexivity).
  assert (Hsm : sameMsgCountMax (cls same_message_run) > 0) by (vm_compute; reflexivity).
  assert (Hmk : cbMessageKey (cls same_message_run) = None) by (vm_compute; reflexivity).
  assert (Hcf : cbFormatter (cls same_message_run) = None) by (vm_compute; reflexivity).
  assert (Hcw : cbWriter (cls same_message_run) = None) by (vm_compute; reflexivity).
  assert (HF : F (logger_at same_message_run 0) = Some 0%nat) by (vm_compute; reflexivity).
  assert (Hf : files same_message_run !! 0%nat = Some (mkFO 0 false ("1000: INFO: m" +:+ nl) 0))
    by (vm_compute; reflexivity).
  assert (Hc : fo_closed (mkFO 0 false ("1000: INFO: m" +:+ nl) 0) = false) by reflexivity.
  assert (Hm : maxSize (common (logger_at same_message_run 0)) = 0) by (vm_compute; reflexivity).
  assert (Ht : __thrTimer (logger_at same_message_run 0) = Some 0%nat)
    by (vm_compute; reflexivity).
  assert (Hlm : _lastMsg (logger_at same_message_run 0)
                = mkLast (Some "m"%string) 3 (Some (mkEntry 1002 "root" 20 "m" ∅)))
    by (vm_compute; reflexivity).
  assert (Hpos : 3 > 0) by reflexivity.
  assert (Hne : Some "m"%string <> Some "n"%string) by discriminate.
  assert (Hsy0 : LOG2SYM (Runtime := sample_rt) !! e_level (mkEntry 1002 "root" 20 "m" ∅)
                 = Some "INFO"%string) by (vm_compute; reflexivity).
  assert (Hk0 : e_kwargs (mkEntry 1002 "root" 20 "m" ∅) !! "exc_info"%string = None)
    by reflexivity.
  assert (Hsy : LOG2SYM (Runtime := sample_rt) !! 20 = Some "INFO"%string)
    by (vm_compute; reflexivity).
  assert (Hk : (∅ : gmap string pyval) !! "exc_info"%string = None) by reflexivity.
  split; [exact (conj HL (conj Hs (conj Hut (conj Hsm (conj Hmk (conj Hcf (conj Hcw (conj HF
                   (conj Hf (conj Hm (conj Ht Hlm))))))))))) |].
  destruct (other_message_flushes_count (rt := sample_rt) same_message_run 0
              (logger_at same_message_run 0) 0%nat (mkFO 0 false ("1000: INFO: m" +:+ nl) 0)
              0%nat (Some "m"%string) 3 (mkEntry 1002 "root" 20 "m" ∅) "INFO" 20 "n" [] ∅ "n"
              "INFO" HL Hs Hfm Hut Hsm Hmk Hcf Hcw HF Hf Hc Hm Ht Hlm Hpos (or_introl Hne)
              Hsy0 Hk0 Hsy Hk)
    as (w' & Hlog & Hfiles & _).
  exists w'. split; [exact Hlog |]. rewrite Hfiles. vm_compute. reflexivity.
Defined.

(** X21 on the first logger of a program. *)
Lemma new_path_opens_file_witness :
  (~ code_invalid 0 0 /\
   fs_isdir (fsys sample_world) (dirname "/tmp/app.log") = true /\
   fs_open_append (fsys sample_world) "/tmp/app.log" = Some (opened_fs, 0%nat)) /\
  exists w' L,
    Logger_init (rt := sample_rt) "root" 10 (Some "/tmp/app.log"%string) 0 0 false None None
                sample_world = (Ok (fresh (dom (loggers sample_world))), w') /\
    loggers w' = <[fresh (dom (loggers sample_world)) := L]> (loggers sample_world) /\
    F L = Some (fresh (dom (files sample_world))) /\
    files w' = <[fresh (dom (files sample_world)) := mkFO 0 false "" 0]> (files sample_world) /\
    fsys w' = opened_fs.
Proof.
  assert (Hv : ~ code_invalid 0 0) by (unfold code_invalid; lia).
  assert (Hd : fs_isdir (fsys sample_world) (dirname "/tmp/app.log") = true)
    by (vm_compute; reflexivity).
  assert (Hnone : forall v, v ∈ map snd (domains sample_world) ->
            exists l L, v = Some l /\ loggers sample_world !! l = Some L /\
                        pathName L <> Some "/tmp/app.log"%string).
  { intros v Hv'. apply elem_of_nil in Hv'. destruct Hv'. }
  assert (Ho : fs_open_append (fsys sample_world) "/tmp/app.log" = Some (opened_fs, 0%nat))
    by (vm_compute; reflexivity).
  assert (Hcon : useThreads (cls sample_world) = true ->
                 thrConsoleLogger (cls sample_world) = None ->
                 has_console (Runtime := sample_rt) = true) by (intros _ _; reflexivity).
  split; [exact (conj Hv (conj Hd Ho)) |].
  destruct (new_path_opens_file (rt := sample_rt) sample_world "root" 10 "/tmp/app.log" 0 0
              false opened_fs 0%nat Hv Hd Hnone Ho Hcon)
    as (w' & L & H1 & H2 & H3 & H4 & H5 & _).
  exists w', L. split; [exact H1 |]. split; [exact H2 |]. split; [exact H3 |].
  split; [exact H4 | exact H5].
Defined.

(** X22 on a row of three messages, and then [stop()]. *)
Lemma stop_flushes_count_witness :
  (loggers same_message_run !! 0%nat = Some (logger_at same_message_run 0) /\
   __thrTimer (logger_at same_message_run 0) = Some 0%nat /\
   _lastMsg (logger_at same_message_run 0)
     = mkLast (Some "m"%string) 3 (Some (mkEntry 1002 "root" 20 "m" ∅)) /\
   F (logger_at same_message_run 0) = Some 0%nat /\
   files same_message_run !! 0%nat = Some (mkFO 0 false ("1000: INFO: m" +:+ nl) 0) /\
   maxSize (common (logger_at same_message_run 0)) = 0 /\
   useThreads (cls same_message_run) = false /\ cbFormatter (cls same_message_run) = None /\
   cbWriter (cls same_message_run) = None) /\
  exists w',
    stop (rt := sample_rt) 0 false same_message_run = (Ok tt, w') /\
    files w' !! 0%nat
      = Some (mkFO 0 false ("1000: INFO: m" +:+ nl +:+ "3 times: 1002: INFO: m" +:+ nl) 0).
Proof.
  assert (HL : loggers same_message_run !! 0%nat = Some (logger_at same_message_run 0))
    by (vm_compute; reflexivity).
  assert (Ht : __thrTimer (logger_at same_message_run 0) = Some 0%nat)
    by (vm_compute; reflexivity).
  assert (Hlm : _lastMsg (logger_at same_message_run 0)
                = mkLast (Some "m"%string) 3 (Some (mkEntry 1002 "root" 20 "m" ∅)))
    by (vm_compute; reflexivity).
  assert (HF : F (logger_at same_message_run 0) = Some 0%nat) by (vm_compute; reflexivity).
  assert (Hf : files same_message_run !! 0%nat = Some (mkFO 0 false ("1000: INFO: m" +:+ nl) 0))
    by (vm_compute; reflexivity).
  assert (Hc : fo_closed (mkFO 0 false ("1000: INFO: m" +:+ nl) 0) = false) by reflexivity.
  assert (Hm : maxSize (common (logger_at same_message_run 0)) = 0) by (vm_compute; reflexivity).
  assert (Hut : useThreads (cls same_message_run) = false) by (vm_compute; reflexivity).
  assert (Hcf : cbFormatter (cls same_message_run) = None) by (vm_compute; reflexivity).
  assert (Hcw : cbWriter (cls same_message_run) = None) by (vm_compute; reflexivity).
  assert (Hsy0 : LOG2SYM (Runtime := sample_rt) !! e_level (mkEntry 1002 "root" 20 "m" ∅)
                 = Some "INFO"%string) by (vm_compute; reflexivity).
  assert (Hk0 : e_kwargs (mkEntry 1002 "root" 20 "m" ∅) !! "exc_info"%string = None)
    by reflexivity.
  split; [exact (conj HL (conj Ht (conj Hlm (conj HF (conj Hf (conj Hm (conj Hut
                   (conj Hcf Hcw)))))))) |].
  destruct (stop_flushes_count (rt := sample_rt) same_message_run 0
              (logger_at same_message_run 0) 0%nat (mkFO 0 false ("1000: INFO: m" +:+ nl) 0)
              0%nat (Some "m"%string) 3 (mkEntry 1002 "root" 20 "m" ∅) "INFO" false
              HL Ht Hlm HF Hf Hc Hm Hut Hcf Hcw Hsy0 Hk0)
    as (w' & Hstop & Hfiles & _).
  exists w'. split; [exact Hstop |]. rewrite Hfiles. vm_compute. reflexivity.
Defined.

(** X23 on the state after three messages. *)
Lemma backlog_stays_off_witness :
  reachable (rt := sample_rt) same_message_run /\ 5 > 0 /\
  backlog (cls same_message_run) = None /\
  setBacklog 5 same_message_run = (Raise TypeError, same_message_run).
Proof.
  assert (Hr : reachable (rt := sample_rt) same_message_run).
  { unfold same_message_run. apply reachable_run_all. apply reachable_start. }
  assert (Hp : 5 > 0) by reflexivity.
  destruct (backlog_stays_off (rt := sample_rt) same_message_run 5 Hr) as (H1 & H2 & _).
  split; [exact Hr |]. split; [exact Hp |]. split; [exact H1 | exact (H2 Hp)].
Defined.

(** X24 on a stopped logger whose domain is then initialised again. *)
Lemma stop_is_final_witness :
  (stop (rt := sample_rt) 0 false init_shared_run).1 = Ok tt /\
  log (rt := sample_rt) 0 20 "x" [] ∅
      (run_all (rt := sample_rt)
         [init_call "a" "/tmp/app.log" 0 0 false; CInfo 1 "hello" [] ∅; CTick 1]
         (stop (rt := sample_rt) 0 false init_shared_run).2)
    = (Raise already_stopped,
       run_all (rt := sample_rt)
         [init_call "a" "/tmp/app.log" 0 0 false; CInfo 1 "hello" [] ∅; CTick 1]
         (stop (rt := sample_rt) 0 false init_shared_run).2).
Proof.
  assert (H : (stop (rt := sample_rt) 0 false init_shared_run).1 = Ok tt)
    by (vm_compute; reflexivity).
  split; [exact H |].
  exact (proj1 (stop_is_final (rt := sample_rt) init_shared_run 0 false
                  [init_call "a" "/tmp/app.log" 0 0 false; CInfo 1 "hello" [] ∅; CTick 1]
                  20 "x" [] ∅ H)).
Defined.
